(** * biostar/server/models.py: the denormalised counters and their upkeep

    A shallow embedding of the model layer of [biostar.server.models]:
    the rows of each table are records, the database is a record of finite
    maps from primary keys to rows, and every method of the source is a
    computation in a state-and-exception monad over that database.

    Conventions of the embedding.
    - An ORM instance is identified with its row: reading an attribute of
      a related object ([self.post.author]) is a lookup in the current
      database, and [obj.save()] writes the whole row back.
    - Python integers are unbounded, so counters are [Z].
    - A Python exception is [Raise e]; the database reached when the
      exception was raised is kept, since every [save()] before it has
      already been issued.
    - Dates are integers (seconds), [datetime.now()] reads [clock].
    - Text is unicode, as Django's fields hold it; a string of the
      embedding is the UTF-8 encoding of the text, one [ascii] per byte,
      so that a character beyond U+007F takes two bytes or more.
    - One-to-one relations are indexed by the key of the row they extend:
      profiles by user id, answers by the id of their post. *)

From Stdlib Require Import Ascii String.
From stdpp Require Import gmap strings list fin_maps sorting.

Local Open Scope Z_scope.

(** ** Rows *)

(** [UserProfile]: [json] and the two automatic dates play no part in any
    counter and are left out; [user] is the key of the table. *)
Record UserProfile := mkUserProfile {
  profile_score : Z;
  bronze_badges : Z;
  silver_badges : Z;
  gold_badges : Z
}.

Record Tag := mkTag {
  tag_name : string;
  tag_count : Z
}.

(** [Post]; [tag_set] is the many-to-many table [post_tag_set] of the
    database. *)
Record Post := mkPost {
  post_author : Z;
  post_content : string;
  post_html : string;
  post_title : string;
  post_tag_string : string;
  post_views : Z;
  post_score : Z;
  comment_count : Z;
  revision_count : Z;
  creation_date : Z;
  lastedit_date : Z;
  lastedit_user : Z
}.

Record PostRevision := mkPostRevision {
  revision_post : Z;
  revision_content : string;
  revision_tag_string : string;
  revision_title : string;
  revision_author : Z;
  revision_date : Z
}.

Record Question := mkQuestion {
  answer_count : Z;
  question_post : Z;
  answer_accepted : bool
}.

Record Answer := mkAnswer {
  answer_question : Z;
  answer_post : Z;
  accepted : bool
}.

Record Comment := mkComment {
  comment_parent : Z;
  comment_post : Z
}.

Record Vote := mkVote {
  vote_author : Z;
  vote_post : Z;
  vote_type : Z
}.

Record Badge := mkBadge {
  badge_name : string;
  badge_type : Z;
  badge_unique : bool;
  badge_secret : bool;
  badge_count : Z
}.

(** [date] is [None] until the [pre_save] hook [create_award] fills it. *)
Record Award := mkAward {
  award_badge : Z;
  award_user : Z;
  award_date : option Z
}.

#[global] Instance UserProfile_eq_dec : EqDecision UserProfile.
Proof. solve_decision. Defined.
#[global] Instance Tag_eq_dec : EqDecision Tag.
Proof. solve_decision. Defined.
#[global] Instance Post_eq_dec : EqDecision Post.
Proof. solve_decision. Defined.
#[global] Instance PostRevision_eq_dec : EqDecision PostRevision.
Proof. solve_decision. Defined.
#[global] Instance Question_eq_dec : EqDecision Question.
Proof. solve_decision. Defined.
#[global] Instance Answer_eq_dec : EqDecision Answer.
Proof. solve_decision. Defined.
#[global] Instance Comment_eq_dec : EqDecision Comment.
Proof. solve_decision. Defined.
#[global] Instance Vote_eq_dec : EqDecision Vote.
Proof. solve_decision. Defined.
#[global] Instance Badge_eq_dec : EqDecision Badge.
Proof. solve_decision. Defined.
#[global] Instance Award_eq_dec : EqDecision Award.
Proof. solve_decision. Defined.

(** The model classes that take part in the signals below, and an instance
    of one of the five classes with an [apply] method. *)
Inductive Model :=
  | MVote | MAward | MComment | MAnswer | MPostRevision
  | MUser | MPost | MQuestion | MTag | MBadge.

#[global] Instance Model_eq_dec : EqDecision Model.
Proof. solve_decision. Defined.

Inductive Instance :=
  | IVote (v : Vote)
  | IAward (a : Award)
  | IComment (c : Comment)
  | IAnswer (a : Answer)
  | IPostRevision (r : PostRevision).

#[global] Instance Instance_eq_dec : EqDecision Instance.
Proof. solve_decision. Defined.

Definition model_of (i : Instance) : Model :=
  match i with
  | IVote _ => MVote
  | IAward _ => MAward
  | IComment _ => MComment
  | IAnswer _ => MAnswer
  | IPostRevision _ => MPostRevision
  end.

(** ** The database *)

(** [applied] is a ghost trace: every call [instance.apply(dir)] made by a
    signal receiver is appended to it, so that "apply ran exactly once"
    can be stated. No method reads it. *)
Record Store := mkStore {
  profiles : gmap Z UserProfile;
  tags : gmap Z Tag;
  posts : gmap Z Post;
  post_tag_set : gmap Z (gset Z);
  revisions : gmap Z PostRevision;
  questions : gmap Z Question;
  answers : gmap Z Answer;
  comments : gmap Z Comment;
  votes : gmap Z Vote;
  badges : gmap Z Badge;
  awards : gmap Z Award;
  clock : Z;
  applied : list (Instance * Z)
}.

Definition set_profiles (f : gmap Z UserProfile → gmap Z UserProfile) (s : Store) : Store :=
  mkStore (f (profiles s)) (tags s) (posts s) (post_tag_set s) (revisions s)
    (questions s) (answers s) (comments s) (votes s) (badges s) (awards s)
    (clock s) (applied s).
Definition set_tag_rows (f : gmap Z Tag → gmap Z Tag) (s : Store) : Store :=
  mkStore (profiles s) (f (tags s)) (posts s) (post_tag_set s) (revisions s)
    (questions s) (answers s) (comments s) (votes s) (badges s) (awards s)
    (clock s) (applied s).
Definition set_posts (f : gmap Z Post → gmap Z Post) (s : Store) : Store :=
  mkStore (profiles s) (tags s) (f (posts s)) (post_tag_set s) (revisions s)
    (questions s) (answers s) (comments s) (votes s) (badges s) (awards s)
    (clock s) (applied s).
Definition set_post_tag_set (f : gmap Z (gset Z) → gmap Z (gset Z)) (s : Store) : Store :=
  mkStore (profiles s) (tags s) (posts s) (f (post_tag_set s)) (revisions s)
    (questions s) (answers s) (comments s) (votes s) (badges s) (awards s)
    (clock s) (applied s).
Definition set_revisions (f : gmap Z PostRevision → gmap Z PostRevision) (s : Store) : Store :=
  mkStore (profiles s) (tags s) (posts s) (post_tag_set s) (f (revisions s))
    (questions s) (answers s) (comments s) (votes s) (badges s) (awards s)
    (clock s) (applied s).
Definition set_questions (f : gmap Z Question → gmap Z Question) (s : Store) : Store :=
  mkStore (profiles s) (tags s) (posts s) (post_tag_set s) (revisions s)
    (f (questions s)) (answers s) (comments s) (votes s) (badges s) (awards s)
    (clock s) (applied s).
Definition set_answers (f : gmap Z Answer → gmap Z Answer) (s : Store) : Store :=
  mkStore (profiles s) (tags s) (posts s) (post_tag_set s) (revisions s)
    (questions s) (f (answers s)) (comments s) (votes s) (badges s) (awards s)
    (clock s) (applied s).
Definition set_comments (f : gmap Z Comment → gmap Z Comment) (s : Store) : Store :=
  mkStore (profiles s) (tags s) (posts s) (post_tag_set s) (revisions s)
    (questions s) (answers s) (f (comments s)) (votes s) (badges s) (awards s)
    (clock s) (applied s).
Definition set_votes (f : gmap Z Vote → gmap Z Vote) (s : Store) : Store :=
  mkStore (profiles s) (tags s) (posts s) (post_tag_set s) (revisions s)
    (questions s) (answers s) (comments s) (f (votes s)) (badges s) (awards s)
    (clock s) (applied s).
Definition set_badges (f : gmap Z Badge → gmap Z Badge) (s : Store) : Store :=
  mkStore (profiles s) (tags s) (posts s) (post_tag_set s) (revisions s)
    (questions s) (answers s) (comments s) (votes s) (f (badges s)) (awards s)
    (clock s) (applied s).
Definition set_awards (f : gmap Z Award → gmap Z Award) (s : Store) : Store :=
  mkStore (profiles s) (tags s) (posts s) (post_tag_set s) (revisions s)
    (questions s) (answers s) (comments s) (votes s) (badges s) (f (awards s))
    (clock s) (applied s).
Definition set_applied (f : list (Instance * Z) → list (Instance * Z)) (s : Store) : Store :=
  mkStore (profiles s) (tags s) (posts s) (post_tag_set s) (revisions s)
    (questions s) (answers s) (comments s) (votes s) (badges s) (awards s)
    (clock s) (f (applied s)).

Definition empty_store : Store :=
  mkStore ∅ ∅ ∅ ∅ ∅ ∅ ∅ ∅ ∅ ∅ ∅ 0 [].

(** ** Exceptions and the monad of methods *)

(** The Python exceptions the modelled paths can raise, and the two error
    names that only the specification uses ([InvalidActor],
    [DuplicateAward]): no definition below raises those. *)
Inductive exn :=
  | TypeError | ValueError | IndexError
  | DoesNotExist | MultipleObjectsReturned | IntegrityError
  | InvalidActor | DuplicateAward.

#[global] Instance exn_eq_dec : EqDecision exn.
Proof. solve_decision. Defined.

Inductive outcome (A : Type) :=
  | Ok (a : A)
  | Raise (e : exn).
Arguments Ok {A} a.
Arguments Raise {A} e.

Definition M (A : Type) : Type := Store → outcome A * Store.

#[global] Instance M_ret : MRet M := λ A a s, (Ok a, s).
#[global] Instance M_bind : MBind M := λ A B f m s,
  match m s with
  | (Ok a, s') => f a s'
  | (Raise e, s') => (Raise e, s')
  end.

Definition raise {A} (e : exn) : M A := λ s, (Raise e, s).
Definition gets {A} (f : Store → A) : M A := λ s, (Ok (f s), s).
Definition modify (f : Store → Store) : M unit := λ s, (Ok tt, f s).

(** [Model.objects.get(pk=k)] and the forward access to a foreign key. *)
Definition get_row {A} (table : Store → gmap Z A) (k : Z) : M A := λ s,
  match table s !! k with
  | Some row => (Ok row, s)
  | None => (Raise DoesNotExist, s)
  end.

(** A Python [for] loop whose body is run for its effects. *)
Fixpoint for_each {A} (l : list A) (body : A → M unit) : M unit :=
  match l with
  | [] => mret tt
  | x :: l' => body x ;; for_each l' body
  end.

(** [user.get_profile()] and [prof.save()]. The [pre_save] hook
    [create_post] only fills in an editor and dates that a post lacks, and
    the [post_save] hook [create_profile] only gives a new user a
    profile; rows here always have these fields, so saving a post is
    writing its row. *)
Definition get_profile (user : Z) : M UserProfile := get_row profiles user.
Definition save_profile (user : Z) (prof : UserProfile) : M unit :=
  modify (set_profiles (insert user prof)).
Definition save_post (pk : Z) (post : Post) : M unit :=
  modify (set_posts (insert pk post)).
Definition save_question (pk : Z) (q : Question) : M unit :=
  modify (set_questions (insert pk q)).
Definition save_answer (post_pk : Z) (a : Answer) : M unit :=
  modify (set_answers (insert post_pk a)).
Definition save_badge (pk : Z) (b : Badge) : M unit :=
  modify (set_badges (insert pk b)).
Definition save_tag (pk : Z) (t : Tag) : M unit :=
  modify (set_tag_rows (insert pk t)).

(** Field updates written [obj.field = v] or [obj.field += v] in the source. *)
Definition add_profile_score (d : Z) (p : UserProfile) : UserProfile :=
  mkUserProfile (profile_score p + d) (bronze_badges p) (silver_badges p) (gold_badges p).
Definition add_bronze (d : Z) (p : UserProfile) : UserProfile :=
  mkUserProfile (profile_score p) (bronze_badges p + d) (silver_badges p) (gold_badges p).
Definition add_silver (d : Z) (p : UserProfile) : UserProfile :=
  mkUserProfile (profile_score p) (bronze_badges p) (silver_badges p + d) (gold_badges p).
Definition add_gold (d : Z) (p : UserProfile) : UserProfile :=
  mkUserProfile (profile_score p) (bronze_badges p) (silver_badges p) (gold_badges p + d).
Definition add_post_score (d : Z) (p : Post) : Post :=
  mkPost (post_author p) (post_content p) (post_html p) (post_title p)
    (post_tag_string p) (post_views p) (post_score p + d) (comment_count p)
    (revision_count p) (creation_date p) (lastedit_date p) (lastedit_user p).
Definition add_comment_count (d : Z) (p : Post) : Post :=
  mkPost (post_author p) (post_content p) (post_html p) (post_title p)
    (post_tag_string p) (post_views p) (post_score p) (comment_count p + d)
    (revision_count p) (creation_date p) (lastedit_date p) (lastedit_user p).
Definition add_revision_count (d : Z) (p : Post) : Post :=
  mkPost (post_author p) (post_content p) (post_html p) (post_title p)
    (post_tag_string p) (post_views p) (post_score p) (comment_count p)
    (revision_count p + d) (creation_date p) (lastedit_date p) (lastedit_user p).
Definition add_answer_count (d : Z) (q : Question) : Question :=
  mkQuestion (answer_count q + d) (question_post q) (answer_accepted q).
Definition set_answer_accepted (b : bool) (q : Question) : Question :=
  mkQuestion (answer_count q) (question_post q) b.
Definition set_accepted (b : bool) (a : Answer) : Answer :=
  mkAnswer (answer_question a) (answer_post a) b.
Definition add_badge_count (d : Z) (b : Badge) : Badge :=
  mkBadge (badge_name b) (badge_type b) (badge_unique b) (badge_secret b) (badge_count b + d).
Definition add_tag_count (d : Z) (t : Tag) : Tag :=
  mkTag (tag_name t) (tag_count t + d).

(** ** The classes with an [apply] method *)

Module PostRevision.
(** [self.post.revision_count += dir; self.post.save()] *)
Definition apply (self : PostRevision) (dir : Z) : M unit :=
  post ← get_row posts (revision_post self);
  save_post (revision_post self) (add_revision_count dir post).
End PostRevision.

Module Answer.
Definition apply (self : Answer) (dir : Z) : M unit :=
  question ← get_row questions (answer_question self);
  save_question (answer_question self) (add_answer_count dir question).
End Answer.

Module Comment.
Definition apply (self : Comment) (dir : Z) : M unit :=
  parent ← get_row posts (comment_parent self);
  save_post (comment_parent self) (add_comment_count dir parent).
End Comment.

Definition VOTE_UP : Z := 0.
Definition VOTE_DOWN : Z := 1.
Definition VOTE_ACCEPT : Z := 2.

(** Mappings of mutually exclusive votes; no method consults it. *)
Definition OPPOSING_VOTES : gmap Z Z := {[ VOTE_UP := VOTE_DOWN; VOTE_DOWN := VOTE_UP ]}.

Definition POST_SCORE : gmap Z Z := {[ VOTE_UP := 1; VOTE_DOWN := -1 ]}.
Definition USER_REP : gmap Z Z := {[ VOTE_UP := 10; VOTE_DOWN := -2; VOTE_ACCEPT := 15 ]}.
Definition VOTER_REP : gmap Z Z := {[ VOTE_DOWN := -1; VOTE_ACCEPT := 2 ]}.

Module Vote.
(** [dict.get(key, 0)] *)
Definition score (self : Vote) : Z := default 0 (POST_SCORE !! vote_type self).
Definition reputation (self : Vote) : Z := default 0 (USER_REP !! vote_type self).
Definition voter_reputation (self : Vote) : Z := default 0 (VOTER_REP !! vote_type self).

Definition apply (self : Vote) (dir : Z) : M unit :=
  (if decide (reputation self = 0) then mret tt else
     post ← get_row posts (vote_post self);
     prof ← get_profile (post_author post);
     save_profile (post_author post) (add_profile_score (dir * reputation self) prof)) ;;
  (if decide (voter_reputation self = 0) then mret tt else
     prof ← get_profile (vote_author self);
     save_profile (vote_author self) (add_profile_score (dir * voter_reputation self) prof)) ;;
  (if decide (score self = 0) then mret tt else
     post ← get_row posts (vote_post self);
     save_post (vote_post self) (add_post_score (dir * score self) post)) ;;
  (if decide (vote_type self = VOTE_ACCEPT) then
     _ ← get_row posts (vote_post self);
     answer ← get_row answers (vote_post self);
     question ← get_row questions (answer_question answer);
     let b := bool_decide (dir = 1) in
     save_answer (vote_post self) (set_accepted b answer) ;;
     save_question (answer_question answer) (set_answer_accepted b question)
   else mret tt).
End Vote.

Definition BADGE_BRONZE : Z := 0.
Definition BADGE_SILVER : Z := 1.
Definition BADGE_GOLD : Z := 2.

Module Award.
Definition apply (self : Award) (dir : Z) : M unit :=
  badge ← get_row badges (award_badge self);
  let type := badge_type badge in
  prof ← get_profile (award_user self);
  let prof := if decide (type = BADGE_BRONZE) then add_bronze dir prof else prof in
  let prof := if decide (type = BADGE_SILVER) then add_silver dir prof else prof in
  let prof := if decide (type = BADGE_GOLD) then add_gold dir prof else prof in
  save_profile (award_user self) prof ;;
  save_badge (award_badge self) (add_badge_count dir badge).
End Award.

(** [instance.apply(dir)], dispatched on the class of the instance. *)
Definition instance_apply (i : Instance) (dir : Z) : M unit :=
  match i with
  | IVote v => Vote.apply v dir
  | IAward a => Award.apply a dir
  | IComment c => Comment.apply c dir
  | IAnswer a => Answer.apply a dir
  | IPostRevision r => PostRevision.apply r dir
  end.

(** ** Signals *)

(** The keyword arguments a signal passes to its receivers. [post_save]
    sends [instance], [created] and [raw]; [post_delete] sends [instance]
    only, so [created] and [raw] are absent there. *)
Record kwargs := mkKwargs {
  kw_instance : Instance;
  kw_created : option bool;
  kw_raw : option bool
}.

Definition MODELS_WITH_APPLY : list Model :=
  [MVote; MAward; MComment; MAnswer; MPostRevision].

(** A call [instance.apply(dir)] made by a receiver, recorded in the trace. *)
Definition call_apply (instance : Instance) (dir : Z) : M unit :=
  modify (set_applied (λ l, l ++ [(instance, dir)])) ;;
  instance_apply instance dir.

(** [def apply_instance(sender, instance, created, raw, *args, **kwargs)]:
    [created] and [raw] are required parameters, and Python raises
    [TypeError] when a call does not supply them. *)
Definition apply_instance (kw : kwargs) : M unit :=
  match kw_created kw, kw_raw kw with
  | Some created, Some raw =>
      if created && negb raw then call_apply (kw_instance kw) 1 else mret tt
  | _, _ => raise TypeError
  end.

(** [def unapply_instance(sender, instance, *args, **kwargs)] *)
Definition unapply_instance (kw : kwargs) : M unit :=
  call_apply (kw_instance kw) (-1).

Inductive Signal := post_save | post_delete.

#[global] Instance Signal_eq_dec : EqDecision Signal.
Proof. solve_decision. Defined.

(** The connections made by the loop over [MODELS_WITH_APPLY]: both
    signals are connected to [apply_instance]. *)
Definition connections : list (Signal * Model * (kwargs → M unit)) :=
  flat_map (λ model, [ (post_save, model, apply_instance);
                       (post_delete, model, apply_instance) ])
    MODELS_WITH_APPLY.

(** [signal.send(sender, **named)]: every receiver connected for this
    sender is called in turn; an exception of a receiver propagates. *)
Definition send (signal : Signal) (sender : Model) (kw : kwargs) : M unit :=
  for_each (filter (λ c, c.1 = (signal, sender)) connections) (λ c, c.2 kw).

(** ** Saving and deleting instances of the classes with [apply] *)

(** The [pre_save] hook [create_award]. *)
Definition create_award (instance : Award) : M Award :=
  match award_date instance with
  | Some _ => mret instance
  | None =>
      now ← gets clock;
      mret (mkAward (award_badge instance) (award_user instance) (Some now))
  end.

Definition pre_save (i : Instance) : M Instance :=
  match i with
  | IAward a => a' ← create_award a; mret (IAward a')
  | _ => mret i
  end.

(** INSERT, with a new primary key. Answers are keyed by their post: a
    second answer row for one post violates the uniqueness of the
    one-to-one field. *)
Definition insert_row (i : Instance) : M Z := λ s,
  match i with
  | IVote v => let pk := fresh (dom (votes s)) in (Ok pk, set_votes (insert pk v) s)
  | IAward a => let pk := fresh (dom (awards s)) in (Ok pk, set_awards (insert pk a) s)
  | IComment c => let pk := fresh (dom (comments s)) in (Ok pk, set_comments (insert pk c) s)
  | IAnswer a =>
      let pk := answer_post a in
      match answers s !! pk with
      | Some _ => (Raise IntegrityError, s)
      | None => (Ok pk, set_answers (insert pk a) s)
      end
  | IPostRevision r =>
      let pk := fresh (dom (revisions s)) in (Ok pk, set_revisions (insert pk r) s)
  end.

(** UPDATE and DELETE of the row with key [pk]. *)
Definition update_row (pk : Z) (i : Instance) : M unit :=
  match i with
  | IVote v => modify (set_votes (insert pk v))
  | IAward a => modify (set_awards (insert pk a))
  | IComment c => modify (set_comments (insert pk c))
  | IAnswer a => modify (set_answers (insert pk a))
  | IPostRevision r => modify (set_revisions (insert pk r))
  end.

Definition delete_row (pk : Z) (i : Instance) : M unit :=
  match i with
  | IVote _ => modify (set_votes (delete pk))
  | IAward _ => modify (set_awards (delete pk))
  | IComment _ => modify (set_comments (delete pk))
  | IAnswer _ => modify (set_answers (delete pk))
  | IPostRevision _ => modify (set_revisions (delete pk))
  end.

(** [instance.save()] on an instance that has no row yet; [raw] is true
    only when a fixture is loaded. Returns the new primary key. *)
Definition save_new (i : Instance) (raw : bool) : M Z :=
  i ← pre_save i;
  pk ← insert_row i;
  send post_save (model_of i) (mkKwargs i (Some true) (Some raw)) ;;
  mret pk.

(** [instance.save()] on an instance that already has the row [pk]. *)
Definition save_existing (pk : Z) (i : Instance) (raw : bool) : M unit :=
  i ← pre_save i;
  update_row pk i ;;
  send post_save (model_of i) (mkKwargs i (Some false) (Some raw)).

(** [instance.delete()]: the row is removed, then [post_delete] is sent
    with the instance as it was. *)
Definition delete_instance (pk : Z) (i : Instance) : M unit :=
  delete_row pk i ;;
  send post_delete (model_of i) (mkKwargs i None None).

(** [try: body except e: handler] *)
Definition try_except {A} (body : M A) (e : exn) (handler : M A) : M A := λ s,
  match body s with
  | (Ok a, s') => (Ok a, s')
  | (Raise e', s') => if decide (e' = e) then handler s' else (Raise e', s')
  end.

(** [manager.get(...)]: the single row that satisfies the
    conditions, [DoesNotExist] when there is none and
    [MultipleObjectsReturned] when there are several. *)
Definition objects_get {A} (table : Store → gmap Z A)
    (P : A → Prop) `{!∀ x, Decision (P x)} : M (Z * A) := λ s,
  match map_to_list (filter (λ kv, P kv.2) (table s)) with
  | [] => (Raise DoesNotExist, s)
  | [kv] => (Ok kv, s)
  | _ => (Raise MultipleObjectsReturned, s)
  end.

(** ** Strings *)

Local Open Scope string_scope.

(** [s.split(' ')]: cut at every single space; never the empty list. *)
Fixpoint split_space (s : string) : list string :=
  match s with
  | EmptyString => [EmptyString]
  | String c s' =>
      if decide (c = " "%char) then EmptyString :: split_space s'
      else match split_space s' with
           | [] => [String c EmptyString]
           | t :: ts => String c t :: ts
           end
  end.

(** The line boundaries of [unicode.splitlines] that are one byte long,
    the carriage return apart: LF, VT, FF, FS, GS and RS. *)
Definition is_line_break_byte (c : ascii) : bool :=
  bool_decide (c ∈ ["010"; "011"; "012"; "028"; "029"; "030"]%char).

(** The text after the line boundary a text starts with, if it starts
    with one: one of the bytes above, CR LF, CR alone, NEL (U+0085, the
    bytes C2 85), LS (U+2028, the bytes E2 80 A8) or PS (U+2029, the bytes
    E2 80 A9). *)
Definition skip_line_boundary (s : string) : option string :=
  match s with
  | EmptyString => None
  | String c s1 =>
      if is_line_break_byte c then Some s1
      else if decide (c = "013"%char) then
        match s1 with
        | String c1 s2 => if decide (c1 = "010"%char) then Some s2 else Some s1
        | EmptyString => Some s1
        end
      else
        match s1 with
        | String c1 s2 =>
            if decide (c = "194"%char ∧ c1 = "133"%char) then Some s2
            else
              match s2 with
              | String c2 s3 =>
                  if decide (c = "226"%char ∧ c1 = "128"%char ∧
                             (c2 = "168"%char ∨ c2 = "169"%char))
                  then Some s3 else None
              | EmptyString => None
              end
        | EmptyString => None
        end
  end.

(** A character is put in front of the first line. *)
Definition push_char (c : ascii) (lines : list string) : list string :=
  match lines with
  | [] => [String c EmptyString]
  | t :: ts => String c t :: ts
  end.

(** [s.splitlines()] on a unicode string: cut at every line boundary; a
    final line boundary does not open a further line and the empty string
    has no line. The cases are those of [skip_line_boundary], written out
    so that the recursion is on a tail of the string. *)
Fixpoint splitlines (s : string) : list string :=
  match s with
  | EmptyString => []
  | String c s1 =>
      if is_line_break_byte c then EmptyString :: splitlines s1
      else if decide (c = "013"%char) then
        EmptyString ::
          match s1 with
          | String c1 s2 => if decide (c1 = "010"%char) then splitlines s2 else splitlines s1
          | EmptyString => []
          end
      else
        match s1 with
        | String c1 s2 =>
            if decide (c = "194"%char ∧ c1 = "133"%char) then EmptyString :: splitlines s2
            else
              match s2 with
              | String c2 s3 =>
                  if decide (c = "226"%char ∧ c1 = "128"%char ∧
                             (c2 = "168"%char ∨ c2 = "169"%char))
                  then EmptyString :: splitlines s3
                  else push_char c (splitlines s1)
              | EmptyString => push_char c (splitlines s1)
              end
        | EmptyString => [String c EmptyString]
        end
  end.

(** ["\n".join(content.splitlines())] *)
Definition unix_line_endings (content : string) : string :=
  String.concat (String "010"%char EmptyString) (splitlines content).

(** [x or y] on an optional string: [None] and the empty string are both
    false. *)
Definition str_or (x : option string) (y : string) : string :=
  match x with
  | Some v => if decide (v = EmptyString) then y else v
  | None => y
  end.

(** ** The many-to-many relation [Post.tag_set] *)

(** The receiver of [m2m_changed]. [pk_set] is [None] in Django for the
    clear actions, which never look at it; it is the empty set here. *)
Definition tags_changed (instance : Z) (action : string) (pk_set : gset Z) : M unit :=
  (if decide (action = "post_add") then
     for_each (elements pk_set) (λ pk,
       tag ← get_row tags pk;
       save_tag pk (add_tag_count 1 tag))
   else mret tt) ;;
  (if decide (action = "post_delete") then
     for_each (elements pk_set) (λ pk,
       tag ← get_row tags pk;
       save_tag pk (add_tag_count (-1) tag))
   else mret tt) ;;
  (if decide (action = "pre_clear") then
     (* instance.tag_set.all(): the tag rows joined to this post *)
     held ← gets (λ s, elements (default (∅ : gset Z) (post_tag_set s !! instance)));
     for_each held (λ pk, modify (set_tag_rows (alter (add_tag_count (-1)) pk)))
   else mret tt).

(** [self.tag_set.clear()] *)
Definition tag_set_clear (self : Z) : M unit :=
  tags_changed self "pre_clear" ∅ ;;
  modify (set_post_tag_set (insert self ∅)) ;;
  tags_changed self "post_clear" ∅.

(** [self.tag_set.add( *objs )]: only the keys not yet related are added
    and announced. *)
Definition tag_set_add (self : Z) (objs : list Z) : M unit :=
  match objs with
  | [] => mret tt
  | _ =>
      existing ← gets (λ s, default ∅ (post_tag_set s !! self));
      let new_ids := list_to_set objs ∖ existing in
      tags_changed self "pre_add" new_ids ;;
      modify (set_post_tag_set (insert self (existing ∪ new_ids))) ;;
      tags_changed self "post_add" new_ids
  end.

(** The body of the loop of [set_tags]: fetch the tag of that name or
    create it. *)
Definition get_or_create_tag (tag_name0 : string) : M Z :=
  try_except
    (kv ← objects_get tags (λ t, tag_name t = tag_name0); mret kv.1)
    DoesNotExist
    (λ s, let pk := fresh (dom (tags s)) in
          (Ok pk, set_tag_rows (insert pk (mkTag tag_name0 0)) s)).

Fixpoint collect_tags (names : list string) : M (list Z) :=
  match names with
  | [] => mret []
  | tag_name0 :: rest =>
      pk ← get_or_create_tag tag_name0;
      pks ← collect_tags rest;
      mret (pk :: pks)
  end.

(** ** Users of a request *)

Inductive RequestUser :=
  | AnonymousUser
  | User (id : Z).

Definition is_anonymous (user : RequestUser) : bool :=
  match user with AnonymousUser => true | User _ => false end.

(** [Vote(author=user, type=vote_type, post=self)]: Django's foreign-key
    descriptor accepts only a [User] instance for [author] and raises
    [ValueError] for anything else. *)
Definition Vote_init (author : RequestUser) (type : Z) (post : Z) : M Vote :=
  match author with
  | User id => mret (mkVote id post type)
  | AnonymousUser => raise ValueError
  end.

(** ** Methods of [Post]; [self] is the primary key of the post *)

Definition set_tag_string (tag_string : string) (p : Post) : Post :=
  mkPost (post_author p) (post_content p) (post_html p) (post_title p)
    tag_string (post_views p) (post_score p) (comment_count p)
    (revision_count p) (creation_date p) (lastedit_date p) (lastedit_user p).

Definition edit_post (date author : Z) (html content title : string) (p : Post) : Post :=
  mkPost (post_author p) content html title (post_tag_string p) (post_views p)
    (post_score p) (comment_count p) (revision_count p) (creation_date p) date author.

Definition date_le (a b : Z * PostRevision) : Prop :=
  (revision_date a.2 ≤ revision_date b.2)%Z.

#[global] Instance date_le_dec : RelDecision date_le.
Proof. intros a b. unfold date_le. apply _. Defined.

Module Post.

(** [self.revisions.order_by('date')[0]] *)
Definition current_revision (self : Z) : M (Z * PostRevision) :=
  revs ← gets (λ s, merge_sort date_le
                      (map_to_list (filter (λ kv, revision_post kv.2 = self) (revisions s))));
  match revs with
  | [] => raise IndexError
  | r :: _ => mret r
  end.

Definition get_vote (self : Z) (user : RequestUser) (vote_type0 : Z) : M (option (Z * Vote)) :=
  match user with
  | AnonymousUser => mret None
  | User id =>
      try_except
        (kv ← objects_get votes
                (λ v, vote_post v = self ∧ vote_author v = id ∧ vote_type v = vote_type0);
         mret (Some kv))
        DoesNotExist
        (mret None)
  end.

Definition add_vote (self : Z) (user : RequestUser) (vote_type0 : Z) : M Vote :=
  vote ← Vote_init user vote_type0 self;
  save_new (IVote vote) false ;;
  mret vote.

Definition remove_vote (self : Z) (user : RequestUser) (vote_type0 : Z) : M bool :=
  vote ← get_vote self user vote_type0;
  match vote with
  | Some (pk, v) => delete_instance pk (IVote v) ;; mret true
  | None => mret false
  end.

Definition set_tags (self : Z) (tag_string : string) : M unit :=
  post ← get_row posts self;
  save_post self (set_tag_string tag_string post) ;;
  tag_set_clear self ;;
  tags ← collect_tags (split_space tag_string);
  tag_set_add self tags.

(** [self.tag_string.split(' ')] *)
Definition get_tags (self : Post) : list string :=
  split_space (post_tag_string self).

Section Rendering.

(** [html.generate], the Markdown renderer of another module. *)
Variable generate : string → string.

(** The assignments to [self] between [revision.save()] and
    [self.set_tags(tag_string)] reach the database with the [save()]
    that opens [set_tags]; nothing reads the row in between, so they
    are written at once. *)
Definition create_revision (self : Z) (content title tag_string : option string)
    (author date : option Z) : M unit :=
  post ← get_row posts self;
  let content := str_or content (post_content post) in
  let title := str_or title (post_title post) in
  let tag_string := str_or tag_string (post_tag_string post) in
  let author := default (post_author post) author in
  now ← gets clock;
  let date := default now date in
  save_new (IPostRevision (mkPostRevision self content tag_string title author date))
    false ;;
  let content := unix_line_endings content in
  post ← get_row posts self;
  save_post self (edit_post date author (generate content) content title post) ;;
  set_tags self tag_string ;;
  post ← get_row posts self;
  save_post self post.

End Rendering.

End Post.

(** * Notions used in the statements *)

(** The denormalised counters of the database: reputation and badge
    tallies of the profiles, the posts with their score and their comment
    and revision counts, the answer counts of the questions, the award
    counts of the badges and the usage counts of the tags. The accepted
    flags are not counters and are left out. *)
Record Counters := mkCounters {
  c_profiles : gmap Z UserProfile;
  c_posts : gmap Z Post;
  c_answer_counts : gmap Z Z;
  c_badges : gmap Z Badge;
  c_tags : gmap Z Tag
}.

Definition counters (s : Store) : Counters :=
  mkCounters (profiles s) (posts s) (answer_count <$> questions s) (badges s) (tags s).

(** The rows [Vote.apply] reads. They exist whenever the foreign keys of
    the vote are sound, its author and the author of its post have a
    profile, and the post of an Accept vote is an answer. *)
Definition vote_refs_ok (v : Vote) (s : Store) : Prop :=
  (Vote.reputation v ≠ 0 →
     ∃ post, posts s !! vote_post v = Some post ∧ is_Some (profiles s !! post_author post)) ∧
  (Vote.voter_reputation v ≠ 0 → is_Some (profiles s !! vote_author v)) ∧
  (Vote.score v ≠ 0 → is_Some (posts s !! vote_post v)) ∧
  (vote_type v = VOTE_ACCEPT →
     is_Some (posts s !! vote_post v) ∧
     ∃ answer, answers s !! vote_post v = Some answer ∧
               is_Some (questions s !! answer_question answer)).

Definition vote_post_author (v : Vote) (s : Store) : Z :=
  default 0 (post_author <$> posts s !! vote_post v).
Definition vote_question (v : Vote) (s : Store) : Z :=
  default 0 (answer_question <$> answers s !! vote_post v).

(** The database after a run of [Vote.apply v dir] that returns. *)
Definition Vote_effect (v : Vote) (dir : Z) (s : Store) : Store :=
  let b := bool_decide (dir = 1) in
  let s1 := set_profiles (alter (add_profile_score (dir * Vote.reputation v))
                            (vote_post_author v s)) s in
  let s2 := set_profiles (alter (add_profile_score (dir * Vote.voter_reputation v))
                            (vote_author v)) s1 in
  let s3 := set_posts (alter (add_post_score (dir * Vote.score v)) (vote_post v)) s2 in
  if decide (vote_type v = VOTE_ACCEPT) then
    set_questions (alter (set_answer_accepted b) (vote_question v s))
      (set_answers (alter (set_accepted b) (vote_post v)) s3)
  else s3.

(** The scoring table of the specification: the change of the post's
    score, of the reputation of the post's author and of the reputation of
    the voter, per vote type. *)
Definition scoring_table (type : Z) : Z * Z * Z :=
  if decide (type = VOTE_UP) then (1, 10, 0)
  else if decide (type = VOTE_DOWN) then (-1, -2, -1)
  else if decide (type = VOTE_ACCEPT) then (0, 15, 2)
  else (0, 0, 0).

(** The three tests on the badge type in [Award.apply], as one update of
    the profile. *)
Definition add_badge_tier (type dir : Z) (prof : UserProfile) : UserProfile :=
  let prof := if decide (type = BADGE_BRONZE) then add_bronze dir prof else prof in
  let prof := if decide (type = BADGE_SILVER) then add_silver dir prof else prof in
  if decide (type = BADGE_GOLD) then add_gold dir prof else prof.

(** The database after a run of [Award.apply a dir] that returns, for an
    award of a badge of the given type. *)
Definition Award_effect (a : Award) (type dir : Z) (s : Store) : Store :=
  set_badges (alter (add_badge_count dir) (award_badge a))
    (set_profiles (alter (add_badge_tier type dir) (award_user a)) s).

(** At most one answer of question [q] is accepted. *)
Definition at_most_one_accepted (s : Store) (q : Z) : Prop :=
  ∀ k1 k2 a1 a2,
    answers s !! k1 = Some a1 → answers s !! k2 = Some a2 →
    answer_question a1 = q → answer_question a2 = q →
    accepted a1 = true → accepted a2 = true → k1 = k2.

(** * A small database for the examples *)

(** Users 1, 2 and 3; user 1 asked question 100 (post 10), users 2 and 3
    answered it (posts 11 and 12); badge 1 is a unique bronze badge. *)
Definition new_profile : UserProfile := mkUserProfile 0 0 0 0.

Definition new_post (author : Z) (content : string) : Post :=
  mkPost author content EmptyString EmptyString EmptyString 0 0 0 0 0 0 author.

Definition example_db : Store :=
  mkStore
    {[ 1 := new_profile; 2 := new_profile; 3 := new_profile ]}
    ∅
    {[ 10 := new_post 1 "Q"; 11 := new_post 2 "A1"; 12 := new_post 3 "A2" ]}
    ∅
    ∅
    {[ 100 := mkQuestion 2 10 false ]}
    {[ 11 := mkAnswer 100 11 false; 12 := mkAnswer 100 12 false ]}
    ∅
    ∅
    {[ 1 := mkBadge "Teacher" BADGE_BRONZE true false 0 ]}
    ∅
    1000
    [].

(** Post 10 edited twice, at dates 1 and 2, with the identity as
    renderer. *)
Definition two_edits : Store :=
  (Post.create_revision (λ x, x) 10 (Some "second") None None None (Some 2)
     (Post.create_revision (λ x, x) 10 (Some "first") None None None (Some 1)
        example_db).2).2.

(** No two tag rows share a name that occurs in [names]: the condition
    under which [Tag.objects.get(name=...)] finds at most one row for
    each of these names. *)
Definition names_unique_in (names : list string) (m : gmap Z Tag) : Prop :=
  ∀ k1 k2 t1 t2,
    m !! k1 = Some t1 → m !! k2 = Some t2 →
    tag_name t1 = tag_name t2 → tag_name t1 ∈ names → k1 = k2.

(** The tags related to a post. *)
Definition tag_set_of (s : Store) (post : Z) : gset Z :=
  default ∅ (post_tag_set s !! post).

(** A loop that applies [f] to the rows with the keys of [pks]. *)
Definition alter_all {A} (f : A → A) (pks : list Z) (m : gmap Z A) : gmap Z A :=
  foldl (λ m pk, alter f pk m) m pks.

(** The net change of the usage count of the tag row [k] when the tags of
    a post go from the set [old] to the set [new]. *)
Definition net_change (old new : gset Z) (k : Z) : Z :=
  (if decide (k ∈ new) then 1 else 0) - (if decide (k ∈ old) then 1 else 0).


(** The example database with one tag row, named "a", whose count is 0
    although post 10 holds the tag: a count out of step with the
    relation, as an import or a manual edit of the row can leave it. *)
Definition stale_count_db : Store :=
  set_post_tag_set (insert 10 {[ 5 ]})
    (set_tag_rows (insert 5 (mkTag "a" 0)) example_db).

(** A computation that leaves the table of posts as it finds it, whether
    it returns or raises. *)
Definition keeps_posts {A} (m : M A) : Prop :=
  ∀ s, posts (m s).2 = posts s.

(** The line feed, and the example database after post 10 was given the
    content of two line feeds through [create_revision] (identity as
    renderer): the stored content is then one line feed. *)
Definition LF : string := String "010"%char EmptyString.

Definition blank_line_db : Store :=
  (Post.create_revision (λ x, x) 10 (Some (LF ++ LF)) None None None None example_db).2.

(** [x] is an argument that Python's [or] treats as false. *)
Definition omitted_or_empty (x : option string) : Prop :=
  x = None ∨ x = Some EmptyString.

(** * Further notions *)

(** A computation that leaves the observation [f] of the database as it
    finds it, whether it returns or raises. *)
Definition keeps {A B} (f : Store → B) (m : M A) : Prop :=
  ∀ s, f (m s).2 = f s.

(** A vote of the given post, user and type: the conditions of the query
    in [get_vote]. *)
Definition vote_matches (self id type : Z) (v : Vote) : Prop :=
  vote_post v = self ∧ vote_author v = id ∧ vote_type v = type.

(** The sum of [score()] over the votes on a post, and the statement that
    every post's score is that sum. *)
Definition votes_score (s : Store) (post : Z) : Z :=
  map_fold (λ _ v acc, (if decide (vote_post v = post) then Vote.score v else 0) + acc)
    0 (votes s).

Definition scores_in_step (s : Store) : Prop :=
  ∀ p post, posts s !! p = Some post → post_score post = votes_score s p.

(** The posts that hold the tag row [k], and the statement that tag rows
    and the relation are in step: every tag a post holds has a row, and
    the count of every row is the number of posts that hold it. *)
Definition holders (s : Store) (k : Z) : gset Z :=
  filter (λ p, k ∈ tag_set_of s p) (dom (post_tag_set s)).

Definition held_tags_exist (s : Store) : Prop :=
  ∀ p k, k ∈ tag_set_of s p → is_Some (tags s !! k).

Definition counts_in_step (s : Store) : Prop :=
  ∀ k t, tags s !! k = Some t → tag_count t = Z.of_nat (size (holders s k)).

(** [PostRevision.get_tags]: [self.tag_string.split(' ')] *)
Definition PostRevision_get_tags (self : PostRevision) : list string :=
  split_space (revision_tag_string self).

(** The carriage return, and the characters of a string. *)
Definition CR : ascii := "013"%char.

(** No line boundary starts anywhere in the text. *)
Fixpoint line_boundary_free (s : string) : bool :=
  match s with
  | EmptyString => true
  | String _ s1 =>
      match skip_line_boundary s with
      | Some _ => false
      | None => line_boundary_free s1
      end
  end.

(** The line boundaries of a unicode text, as byte strings: LF, VT, FF,
    CR LF, CR, FS, GS, RS, NEL, LS and PS. *)
Definition line_boundaries : list string :=
  [ String "010" EmptyString; String "011" EmptyString; String "012" EmptyString;
    String "013" (String "010" EmptyString); String "013" EmptyString;
    String "028" EmptyString; String "029" EmptyString; String "030" EmptyString;
    String "194" (String "133" EmptyString);
    String "226" (String "128" (String "168" EmptyString));
    String "226" (String "128" (String "169" EmptyString)) ].

(** [PostRevision.to_html]: the HTML of a revision is rendered on demand
    from its content. *)
Definition PostRevision_to_html (generate : string → string) (self : PostRevision) : string :=
  generate (revision_content self).

(** The number of revisions of a post, and the statement that the
    revision count of every post is that number. *)
Definition revisions_of (s : Store) (post : Z) : gmap Z PostRevision :=
  filter (λ kv, revision_post kv.2 = post) (revisions s).

Definition revision_counts_in_step (s : Store) : Prop :=
  ∀ p post, posts s !! p = Some post →
            revision_count post = Z.of_nat (size (revisions_of s p)).

(** The snapshot [create_revision] stores and the row it leaves in the
    post, from the arguments, the post as it was and the clock. *)
Definition new_revision (self : Z) (content title tag_string : option string)
    (author date : option Z) (now : Z) (post : Post) : PostRevision :=
  mkPostRevision self
    (str_or content (post_content post))
    (str_or tag_string (post_tag_string post))
    (str_or title (post_title post))
    (default (post_author post) author)
    (default now date).

Definition revised_post (generate : string → string)
    (content title tag_string : option string) (author date : option Z)
    (now : Z) (post : Post) : Post :=
  set_tag_string (str_or tag_string (post_tag_string post))
    (edit_post (default now date) (default (post_author post) author)
       (generate (unix_line_endings (str_or content (post_content post))))
       (unix_line_endings (str_or content (post_content post)))
       (str_or title (post_title post))
       (add_revision_count 1 post)).

(** The comments on a post, the answers to a question and the awards of a
    badge, and the statements that the denormalised counts are their
    numbers. *)
Definition comments_on (s : Store) (post : Z) : gmap Z Comment :=
  filter (λ kv, comment_parent kv.2 = post) (comments s).

Definition comment_counts_in_step (s : Store) : Prop :=
  ∀ p post, posts s !! p = Some post →
            comment_count post = Z.of_nat (size (comments_on s p)).

Definition answers_to (s : Store) (question : Z) : gmap Z Answer :=
  filter (λ kv, answer_question kv.2 = question) (answers s).

Definition answer_counts_in_step (s : Store) : Prop :=
  ∀ k q, questions s !! k = Some q →
         answer_count q = Z.of_nat (size (answers_to s k)).

Definition awards_of (s : Store) (badge : Z) : gmap Z Award :=
  filter (λ kv, award_badge kv.2 = badge) (awards s).

Definition badge_counts_in_step (s : Store) : Prop :=
  ∀ k b, badges s !! k = Some b →
         badge_count b = Z.of_nat (size (awards_of s k)).

(** * Proofs *)

Local Close Scope string_scope.

(** ** Reasoning about monadic code *)

Lemma bind_Ok {A B} (m : M A) (f : A → M B) (s s' : Store) (a : A) :
  m s = (Ok a, s') → (m ≫= f) s = f a s'.
Proof. intros H. unfold mbind, M_bind. by rewrite H. Qed.

Lemma bind_Raise {A B} (m : M A) (f : A → M B) (s s' : Store) (e : exn) :
  m s = (Raise e, s') → (m ≫= f) s = (Raise e, s').
Proof. intros H. unfold mbind, M_bind. by rewrite H. Qed.

Lemma mret_Ok {A} (a : A) (s s' : Store) : s' = s → (mret a : M A) s = (Ok a, s').
Proof. by intros ->. Qed.

Lemma bind_Ok_inv {A B} (m : M A) (f : A → M B) (s s' : Store) (b : B) :
  (m ≫= f) s = (Ok b, s') → ∃ a s1, m s = (Ok a, s1) ∧ f a s1 = (Ok b, s').
Proof.
  unfold mbind, M_bind. destruct (m s) as [[a|e] s1]; [eauto | discriminate].
Qed.

Lemma get_row_Some {A} (table : Store → gmap Z A) (k : Z) (s : Store) (row : A) :
  table s !! k = Some row → get_row table k s = (Ok row, s).
Proof. intros H. unfold get_row. by rewrite H. Qed.

Lemma get_row_Ok_inv {A} (table : Store → gmap Z A) (k : Z) (s s' : Store) (row : A) :
  get_row table k s = (Ok row, s') → table s !! k = Some row ∧ s' = s.
Proof. unfold get_row. destruct (table s !! k); naive_solver. Qed.

(** ** Finite-map facts used throughout *)

Lemma insert_as_alter {A} (f : A → A) (m : gmap Z A) (k : Z) (x : A) :
  m !! k = Some x → <[k := f x]> m = alter f k m.
Proof.
  intros H. apply map_eq; intros j. rewrite lookup_insert, lookup_alter.
  case_decide; subst; [by rewrite H | done].
Qed.

Lemma add_profile_score_0 (p : UserProfile) : add_profile_score 0 p = p.
Proof. destruct p. unfold add_profile_score; simpl. f_equal; lia. Qed.

Lemma add_post_score_0 (p : Post) : add_post_score 0 p = p.
Proof. destruct p. unfold add_post_score; simpl. f_equal; lia. Qed.

(** ** What [Vote.apply] does *)

(** The pattern [row = table.get(k); row.field = ...; row.save()]. *)
Lemma profile_update_ok (f : UserProfile → UserProfile) (u : Z) (s : Store) (p : UserProfile) :
  profiles s !! u = Some p →
  (prof ← get_profile u; save_profile u (f prof)) s = (Ok tt, set_profiles (alter f u) s).
Proof.
  intros H. unfold get_profile. erewrite bind_Ok by (by apply get_row_Some).
  unfold save_profile, modify, set_profiles. by rewrite (insert_as_alter f _ _ _ H).
Qed.

Lemma post_update_ok (f : Post → Post) (k : Z) (s : Store) (p : Post) :
  posts s !! k = Some p →
  (post ← get_row posts k; save_post k (f post)) s = (Ok tt, set_posts (alter f k) s).
Proof.
  intros H. erewrite bind_Ok by (by apply get_row_Some).
  unfold save_post, modify, set_posts. by rewrite (insert_as_alter f _ _ _ H).
Qed.

Lemma question_update_ok (f : Question → Question) (k : Z) (s : Store) (q : Question) :
  questions s !! k = Some q →
  (question ← get_row questions k; save_question k (f question)) s
  = (Ok tt, set_questions (alter f k) s).
Proof.
  intros H. erewrite bind_Ok by (by apply get_row_Some).
  unfold save_question, modify, set_questions. by rewrite (insert_as_alter f _ _ _ H).
Qed.

Lemma set_profiles_id (f : gmap Z UserProfile → gmap Z UserProfile) (s : Store) :
  f (profiles s) = profiles s → set_profiles f s = s.
Proof. intros H. destruct s; unfold set_profiles; simpl in *. by rewrite H. Qed.

Lemma set_posts_id (f : gmap Z Post → gmap Z Post) (s : Store) :
  f (posts s) = posts s → set_posts f s = s.
Proof. intros H. destruct s; unfold set_posts; simpl in *. by rewrite H. Qed.


Lemma profile_update_inv (f : UserProfile → UserProfile) (u : Z) (s s' : Store) :
  (prof ← get_profile u; save_profile u (f prof)) s = (Ok tt, s') →
  is_Some (profiles s !! u).
Proof.
  intros (p & s1 & H & _)%bind_Ok_inv. apply get_row_Ok_inv in H as [H _]. eauto.
Qed.

Lemma post_update_inv (f : Post → Post) (k : Z) (s s' : Store) :
  (post ← get_row posts k; save_post k (f post)) s = (Ok tt, s') →
  is_Some (posts s !! k).
Proof.
  intros (p & s1 & H & _)%bind_Ok_inv. apply get_row_Ok_inv in H as [H _]. eauto.
Qed.

Lemma question_update_inv (f : Question → Question) (k : Z) (s s' : Store) :
  (question ← get_row questions k; save_question k (f question)) s = (Ok tt, s') →
  is_Some (questions s !! k).
Proof.
  intros (p & s1 & H & _)%bind_Ok_inv. apply get_row_Ok_inv in H as [H _]. eauto.
Qed.

Ltac step_with s1 :=
  match goal with
  | |- (?m ≫= ?f) ?s = _ =>
      let B := fresh "B" in
      assert (B : m s = (Ok tt, s1)); [ | rewrite (bind_Ok m f s s1 tt B); clear B ]
  end.

Lemma Vote_apply_ok (v : Vote) (dir : Z) (s : Store) :
  vote_refs_ok v s → Vote.apply v dir s = (Ok tt, Vote_effect v dir s).
Proof.
  intros (Hrep & Hvrep & Hsc & Hacc).
  unfold Vote.apply, Vote_effect, vote_post_author, vote_question.
  set (s1 := set_profiles _ s). set (s2 := set_profiles _ s1). set (s3 := set_posts _ s2).
  step_with s1.
  { subst s1. case_decide as E.
    - rewrite E, Z.mul_0_r. apply mret_Ok, set_profiles_id.
      apply alter_id; auto using add_profile_score_0.
    - destruct (Hrep E) as (post & Hpost & [pa Hpa]). rewrite Hpost; simpl.
      erewrite bind_Ok by (by apply get_row_Some). by eapply profile_update_ok. }
  step_with s2.
  { subst s2. case_decide as E.
    - rewrite E, Z.mul_0_r. apply mret_Ok, set_profiles_id.
      apply alter_id; auto using add_profile_score_0.
    - assert (is_Some (profiles s1 !! vote_author v)) as [pv Hpv].
      { subst s1; simpl. apply lookup_alter_is_Some; auto. }
      by eapply profile_update_ok. }
  step_with s3.
  { subst s3. case_decide as E.
    - rewrite E, Z.mul_0_r. apply mret_Ok, set_posts_id.
      apply alter_id; auto using add_post_score_0.
    - assert (is_Some (posts s2 !! vote_post v)) as [p Hp] by (simpl; auto).
      by eapply post_update_ok. }
  case_decide as E; [|done].
  destruct (Hacc E) as ([post Hpost] & answer & Hans & [q Hq]).
  rewrite Hans; simpl.
  assert (is_Some (posts s3 !! vote_post v)) as [post3 Hpost3].
  { subst s3; simpl. apply lookup_alter_is_Some. by rewrite Hpost. }
  erewrite bind_Ok by (by apply get_row_Some).
  erewrite bind_Ok by (by apply (get_row_Some answers)).
  erewrite bind_Ok by (by apply (get_row_Some questions)).
  unfold save_answer, save_question, modify, mbind, M_bind.
  f_equal. unfold set_questions, set_answers; simpl.
  by rewrite (insert_as_alter _ _ _ _ Hans), (insert_as_alter _ _ _ _ Hq).
Qed.

(** Conversely a run that returns has found every row it reads. *)
Lemma Vote_apply_Ok_inv (v : Vote) (dir : Z) (s s' : Store) :
  Vote.apply v dir s = (Ok tt, s') → vote_refs_ok v s.
Proof.
  unfold Vote.apply. intros H.
  apply bind_Ok_inv in H as ([] & s1 & B1 & H).
  apply bind_Ok_inv in H as ([] & s2 & B2 & H).
  apply bind_Ok_inv in H as ([] & s3 & B3 & B4).
  assert (Hrep : Vote.reputation v ≠ 0 →
     ∃ post, posts s !! vote_post v = Some post ∧ is_Some (profiles s !! post_author post)).
  { intros E. rewrite decide_False in B1 by done.
    apply bind_Ok_inv in B1 as (post & s0 & [Hpost ->]%get_row_Ok_inv & B1).
    exists post. split; [done|]. by eapply profile_update_inv. }
  assert (E1 : profiles s1 = alter (add_profile_score (dir * Vote.reputation v))
                               (vote_post_author v s) (profiles s)
               ∧ posts s1 = posts s ∧ answers s1 = answers s ∧ questions s1 = questions s).
  { destruct (decide (Vote.reputation v = 0)) as [E|E].
    - inversion B1; subst s1. rewrite E, Z.mul_0_r.
      rewrite alter_id; auto using add_profile_score_0.
    - destruct (Hrep E) as (post & Hpost & [pa Hpa]).
      unfold vote_post_author. rewrite Hpost; simpl.
      erewrite bind_Ok in B1 by (by apply get_row_Some).
      erewrite profile_update_ok in B1 by done. by inversion B1. }
  destruct E1 as (Ep1 & Eo1 & Ea1 & Eq1).
  assert (Hvrep : Vote.voter_reputation v ≠ 0 → is_Some (profiles s !! vote_author v)).
  { intros E. rewrite decide_False in B2 by done.
    apply profile_update_inv in B2. rewrite Ep1 in B2.
    by apply lookup_alter_is_Some in B2. }
  assert (E2 : posts s2 = posts s ∧ answers s2 = answers s ∧ questions s2 = questions s).
  { destruct (decide (Vote.voter_reputation v = 0)) as [E|E].
    - by inversion B2; subst s2.
    - destruct (profile_update_inv _ _ _ _ B2) as [pv Hpv].
      erewrite profile_update_ok in B2 by done. inversion B2; subst s2. simpl. auto. }
  destruct E2 as (Eo2 & Ea2 & Eq2).
  assert (Hsc : Vote.score v ≠ 0 → is_Some (posts s !! vote_post v)).
  { intros E. rewrite decide_False in B3 by done.
    apply post_update_inv in B3. by rewrite Eo2 in B3. }
  assert (E3 : is_Some (posts s3 !! vote_post v) → is_Some (posts s !! vote_post v)).
  { destruct (decide (Vote.score v = 0)) as [E|E].
    - inversion B3; subst s3. by rewrite Eo2.
    - destruct (post_update_inv _ _ _ _ B3) as [p Hp].
      erewrite post_update_ok in B3 by done. inversion B3; subst s3. simpl.
      rewrite Eo2. by intros ?%lookup_alter_is_Some. }
  assert (E3' : answers s3 = answers s ∧ questions s3 = questions s).
  { destruct (decide (Vote.score v = 0)) as [E|E].
    - by inversion B3; subst s3.
    - destruct (post_update_inv _ _ _ _ B3) as [p Hp].
      erewrite post_update_ok in B3 by done. inversion B3; subst s3. simpl. auto. }
  destruct E3' as (Ea3 & Eq3).
  split; [done|]. split; [done|]. split; [done|]. intros E.
  rewrite decide_True in B4 by done. split.
  - apply bind_Ok_inv in B4 as (post & s0 & [Hpost ->]%get_row_Ok_inv & B4). eauto.
  -     apply bind_Ok_inv in B4 as (post & s0 & [Hpost ->]%get_row_Ok_inv & B4).
    apply bind_Ok_inv in B4 as (answer & s0 & [Hans ->]%get_row_Ok_inv & B4).
    apply bind_Ok_inv in B4 as (q & s0 & [Hq ->]%get_row_Ok_inv & B4).
    exists answer. rewrite <- Ea3, <- Eq3. eauto.
Qed.

Lemma answer_count_set_accepted (b : bool) (k : Z) (m : gmap Z Question) :
  answer_count <$> alter (set_answer_accepted b) k m = answer_count <$> m.
Proof.
  apply map_eq; intros j. rewrite !lookup_fmap, lookup_alter.
  case_decide; [subst|done]. by destruct (m !! j).
Qed.

(** The three dictionaries of the source agree with the scoring table. *)
Lemma dicts_scoring_table (v : Vote) :
  (Vote.score v, Vote.reputation v, Vote.voter_reputation v) = scoring_table (vote_type v).
Proof.
  unfold Vote.score, Vote.reputation, Vote.voter_reputation, scoring_table.
  unfold POST_SCORE, USER_REP, VOTER_REP.
  generalize (vote_type v); intros t.
  repeat case_decide; subst; try reflexivity.
  by rewrite !lookup_insert_ne, !lookup_singleton_ne by done.
Qed.

Lemma vote_post_author_eq (v : Vote) (s : Store) (post : Post) :
  posts s !! vote_post v = Some post → vote_post_author v s = post_author post.
Proof. unfold vote_post_author. by intros ->. Qed.

Lemma lookup_alter_at {A} (f : A → A) (m : gmap Z A) (i j : Z) :
  alter f i m !! j = if decide (j = i) then f <$> m !! j else m !! j.
Proof. rewrite lookup_alter. repeat case_decide; by subst. Qed.

(** The rows of the profiles and of the posts after a vote was applied,
    field by field. *)
Lemma Vote_effect_profiles (v : Vote) (dir : Z) (s : Store) (u : Z) :
  profiles (Vote_effect v dir s) !! u =
  (λ p, mkUserProfile
          (profile_score p
           + (if decide (u = vote_post_author v s) then dir * Vote.reputation v else 0)
           + (if decide (u = vote_author v) then dir * Vote.voter_reputation v else 0))
          (bronze_badges p) (silver_badges p) (gold_badges p))
  <$> profiles s !! u.
Proof.
  assert (profiles (Vote_effect v dir s)
          = alter (add_profile_score (dir * Vote.voter_reputation v)) (vote_author v)
              (alter (add_profile_score (dir * Vote.reputation v))
                 (vote_post_author v s) (profiles s))) as ->
    by (unfold Vote_effect; by case_decide).
  rewrite !lookup_alter_at. unfold add_profile_score.
  repeat case_decide; try congruence;
    destruct (profiles s !! u) as [[sc br si go]|]; simpl; try done;
    do 2 f_equal; lia.
Qed.

Lemma Vote_effect_posts (v : Vote) (dir : Z) (s : Store) (k : Z) :
  posts (Vote_effect v dir s) !! k =
  (λ p, mkPost (post_author p) (post_content p) (post_html p) (post_title p)
          (post_tag_string p) (post_views p)
          (post_score p + (if decide (k = vote_post v) then dir * Vote.score v else 0))
          (comment_count p) (revision_count p) (creation_date p)
          (lastedit_date p) (lastedit_user p))
  <$> posts s !! k.
Proof.
  assert (posts (Vote_effect v dir s)
          = alter (add_post_score (dir * Vote.score v)) (vote_post v) (posts s)) as ->
    by (unfold Vote_effect; by case_decide).
  rewrite lookup_alter_at. unfold add_post_score.
  repeat case_decide; try congruence;
    destruct (posts s !! k) as [p|]; simpl; try done;
    destruct p; simpl; do 2 f_equal; lia.
Qed.

(** C6: on any database in which the rows a vote refers to exist,
    [apply(+1)] returns and changes the counters exactly by the scoring
    table (Upvote 1, 10, 0; Downvote -1, -2, -1; Accept 0, 15, 2): the
    first entry is added to the score of the voted post, the second to the
    reputation of the post's author and the third to the reputation of the
    voter; every other field of these rows, every other profile and post,
    the answer counts, the badges and the tags keep their values. *)
Theorem vote_apply_scoring_table (v : Vote) (s : Store) :
  vote_refs_ok v s →
  ∃ s', Vote.apply v 1 s = (Ok tt, s') ∧
    let '(d_score, d_author, d_voter) := scoring_table (vote_type v) in
    (∀ u, profiles s' !! u =
       (λ p, mkUserProfile
               (profile_score p
                + (if decide (u = vote_post_author v s) then d_author else 0)
                + (if decide (u = vote_author v) then d_voter else 0))
               (bronze_badges p) (silver_badges p) (gold_badges p))
       <$> profiles s !! u) ∧
    (∀ k, posts s' !! k =
       (λ p, mkPost (post_author p) (post_content p) (post_html p) (post_title p)
               (post_tag_string p) (post_views p)
               (post_score p + (if decide (k = vote_post v) then d_score else 0))
               (comment_count p) (revision_count p) (creation_date p)
               (lastedit_date p) (lastedit_user p))
       <$> posts s !! k) ∧
    answer_count <$> questions s' = answer_count <$> questions s ∧
    badges s' = badges s ∧
    tags s' = tags s.
Proof.
  intros Hok. exists (Vote_effect v 1 s). split; [by apply Vote_apply_ok|].
  pose proof (dicts_scoring_table v) as T.
  destruct (scoring_table (vote_type v)) as [[d_score d_author] d_voter].
  injection T as Hs Ha Hv.
  split; [|split; [|split; [|split]]].
  - intros u. rewrite Vote_effect_profiles, Ha, Hv.
    by rewrite !Z.mul_1_l.
  - intros k. rewrite Vote_effect_posts, Hs. by rewrite Z.mul_1_l.
  - unfold Vote_effect. case_decide; simpl; [|done]. apply answer_count_set_accepted.
  - unfold Vote_effect. by case_decide.
  - unfold Vote_effect. by case_decide.
Qed.

(** ** The other [apply] methods *)

Lemma badge_update_ok (f : Badge → Badge) (k : Z) (s : Store) (b : Badge) :
  badges s !! k = Some b →
  save_badge k (f b) s = (Ok tt, set_badges (alter f k) s).
Proof.
  intros H. unfold save_badge, modify, set_badges. by rewrite (insert_as_alter f _ _ _ H).
Qed.

Lemma Award_apply_ok (a : Award) (dir : Z) (s : Store) (badge : Badge) :
  badges s !! award_badge a = Some badge →
  is_Some (profiles s !! award_user a) →
  Award.apply a dir s = (Ok tt, Award_effect a (badge_type badge) dir s).
Proof.
  intros Hb [prof Hp]. unfold Award.apply, Award_effect.
  erewrite bind_Ok by (by apply get_row_Some).
  unfold get_profile. erewrite bind_Ok by (by apply get_row_Some).
  unfold save_profile, modify at 1. unfold mbind at 1, M_bind.
  fold (add_badge_tier (badge_type badge) dir prof).
  rewrite (badge_update_ok _ _ _ badge) by done.
  unfold set_profiles at 1. by rewrite (insert_as_alter _ _ _ _ Hp).
Qed.

Lemma Award_apply_Ok_inv (a : Award) (dir : Z) (s s' : Store) :
  Award.apply a dir s = (Ok tt, s') →
  ∃ badge, badges s !! award_badge a = Some badge ∧ is_Some (profiles s !! award_user a).
Proof.
  unfold Award.apply. intros H.
  apply bind_Ok_inv in H as (badge & s0 & [Hb ->]%get_row_Ok_inv & H).
  apply bind_Ok_inv in H as (prof & s0 & [Hp ->]%get_row_Ok_inv & H).
  eauto.
Qed.

(** ** Undoing an [apply] *)

Lemma alter_alter_cancel {A} (f g : A → A) (k : Z) (m : gmap Z A) :
  (∀ x, g (f x) = x) → alter g k (alter f k m) = m.
Proof.
  intros Hgf. apply map_eq; intros j. rewrite !lookup_alter.
  repeat case_decide; subst; try done. destruct (m !! j); simpl; by rewrite ?Hgf.
Qed.

Lemma profile_scores_cancel (r w : Z) (a b : Z) (m : gmap Z UserProfile) :
  alter (add_profile_score (-1 * w)) b
    (alter (add_profile_score (-1 * r)) a
       (alter (add_profile_score (1 * w)) b
          (alter (add_profile_score (1 * r)) a m))) = m.
Proof.
  apply map_eq; intros j. rewrite !lookup_alter.
  repeat case_decide; subst; try done;
    destruct (m !! j) as [[]|]; simpl; try done;
    unfold add_profile_score; simpl; do 2 f_equal; lia.
Qed.

Lemma add_post_score_cancel (d : Z) (p : Post) :
  add_post_score (-1 * d) (add_post_score (1 * d) p) = p.
Proof. destruct p. unfold add_post_score; simpl. f_equal; lia. Qed.

Lemma add_comment_count_cancel (p : Post) :
  add_comment_count (-1) (add_comment_count 1 p) = p.
Proof. destruct p. unfold add_comment_count; simpl. f_equal; lia. Qed.

Lemma add_revision_count_cancel (p : Post) :
  add_revision_count (-1) (add_revision_count 1 p) = p.
Proof. destruct p. unfold add_revision_count; simpl. f_equal; lia. Qed.

Lemma add_answer_count_cancel (q : Question) :
  add_answer_count (-1) (add_answer_count 1 q) = q.
Proof. destruct q. unfold add_answer_count; simpl. f_equal; lia. Qed.

Lemma add_badge_count_cancel (b : Badge) :
  add_badge_count (-1) (add_badge_count 1 b) = b.
Proof. destruct b. unfold add_badge_count; simpl. f_equal; lia. Qed.

Lemma add_badge_tier_cancel (type : Z) (p : UserProfile) :
  add_badge_tier type (-1) (add_badge_tier type 1 p) = p.
Proof.
  destruct p. unfold add_badge_tier, add_bronze, add_silver, add_gold.
  unfold BADGE_BRONZE, BADGE_SILVER, BADGE_GOLD.
  repeat case_decide; simpl; try lia; f_equal; lia.
Qed.

Lemma vote_refs_ok_effect (v : Vote) (dir : Z) (s : Store) :
  vote_refs_ok v s → vote_refs_ok v (Vote_effect v dir s).
Proof.
  intros (Hrep & Hvrep & Hsc & Hacc).
  assert (Hposts : ∀ k p, posts s !! k = Some p →
            ∃ p', posts (Vote_effect v dir s) !! k = Some p' ∧ post_author p' = post_author p).
  { intros k p Hp. unfold Vote_effect. case_decide; simpl;
      rewrite lookup_alter; case_decide; subst; rewrite Hp; simpl; eauto. }
  assert (Hprof : ∀ u, is_Some (profiles s !! u) →
            is_Some (profiles (Vote_effect v dir s) !! u)).
  { intros u Hu. unfold Vote_effect. case_decide; simpl;
      by do 2 apply lookup_alter_is_Some. }
  repeat split.
  - intros E. destruct (Hrep E) as (post & Hpost & Ha).
    destruct (Hposts _ _ Hpost) as (p' & Hp' & Hauth).
    exists p'. rewrite Hauth. auto.
  - auto.
  - intros E. destruct (Hsc E) as [p Hp]. destruct (Hposts _ _ Hp) as (p' & Hp' & _). eauto.
  - destruct (Hacc H) as ([p Hp] & _). destruct (Hposts _ _ Hp) as (p' & Hp' & _). eauto.
  - destruct (Hacc H) as (_ & answer & Hans & Hq).
    exists (set_accepted (bool_decide (dir = 1)) answer).
    unfold Vote_effect. rewrite decide_True by done. simpl. split.
    + rewrite lookup_alter, decide_True by done. by rewrite Hans.
    + by apply lookup_alter_is_Some.
Qed.

Lemma vote_post_author_effect (v : Vote) (dir : Z) (s : Store) :
  vote_post_author v (Vote_effect v dir s) = vote_post_author v s.
Proof.
  unfold vote_post_author, Vote_effect. case_decide; simpl;
    rewrite lookup_alter, decide_True by done; by destruct (posts s !! _).
Qed.

Lemma counters_Vote_effect (v : Vote) (dir : Z) (s : Store) :
  counters (Vote_effect v dir s) =
  mkCounters
    (alter (add_profile_score (dir * Vote.voter_reputation v)) (vote_author v)
       (alter (add_profile_score (dir * Vote.reputation v)) (vote_post_author v s)
          (profiles s)))
    (alter (add_post_score (dir * Vote.score v)) (vote_post v) (posts s))
    (answer_count <$> questions s)
    (badges s)
    (tags s).
Proof.
  unfold Vote_effect, counters. case_decide; simpl; [|done].
  f_equal. apply answer_count_set_accepted.
Qed.

Lemma Vote_effect_undo (v : Vote) (s : Store) :
  counters (Vote_effect v (-1) (Vote_effect v 1 s)) = counters s.
Proof.
  rewrite counters_Vote_effect, vote_post_author_effect.
  pose proof (counters_Vote_effect v 1 s) as E. unfold counters in E at 1.
  injection E as -> -> -> -> ->.
  unfold counters. f_equal.
  - apply profile_scores_cancel.
  - apply alter_alter_cancel, add_post_score_cancel.
Qed.

Lemma Award_effect_undo (a : Award) (type : Z) (s : Store) :
  counters (Award_effect a type (-1) (Award_effect a type 1 s)) = counters s.
Proof.
  unfold counters, Award_effect; simpl. f_equal.
  - apply alter_alter_cancel, add_badge_tier_cancel.
  - apply alter_alter_cancel, add_badge_count_cancel.
Qed.

(** C2: for every record with an [apply] method (vote, award, comment,
    answer, revision) and every database, when [apply(+1)] returns,
    [apply(-1)] on the same record returns as well and every counter
    (reputation and badge tallies of the profiles, score, comment count
    and revision count of the posts, answer counts, award counts and tag
    counts) has the value it had before the pair ran. *)
Theorem apply_then_unapply_restores_counters (i : Instance) (s s1 : Store) :
  instance_apply i 1 s = (Ok tt, s1) →
  ∃ s2, instance_apply i (-1) s1 = (Ok tt, s2) ∧ counters s2 = counters s.
Proof.
  destruct i as [v|a|c|a|r]; simpl; intros H.
  - pose proof (Vote_apply_Ok_inv _ _ _ _ H) as Hok.
    rewrite (Vote_apply_ok _ _ _ Hok) in H. injection H as <-.
    exists (Vote_effect v (-1) (Vote_effect v 1 s)). split.
    + by apply Vote_apply_ok, vote_refs_ok_effect.
    + apply Vote_effect_undo.
  - destruct (Award_apply_Ok_inv _ _ _ _ H) as (badge & Hb & Hp).
    rewrite (Award_apply_ok _ _ _ _ Hb Hp) in H. injection H as <-.
    exists (Award_effect a (badge_type badge) (-1) (Award_effect a (badge_type badge) 1 s)).
    split; [|apply Award_effect_undo].
    assert (Hb' : badges (Award_effect a (badge_type badge) 1 s) !! award_badge a
                  = Some (add_badge_count 1 badge)).
    { unfold Award_effect; simpl. rewrite lookup_alter, decide_True by done. by rewrite Hb. }
    rewrite (Award_apply_ok _ _ _ _ Hb'); [done|].
    unfold Award_effect; simpl. by apply lookup_alter_is_Some.
  - unfold Comment.apply in *.
    destruct (post_update_inv _ _ _ _ H) as [p Hp].
    rewrite (post_update_ok _ _ _ _ Hp) in H. injection H as <-.
    eexists. split.
    + eapply post_update_ok. simpl. rewrite lookup_alter, decide_True by done.
      by rewrite Hp.
    + unfold counters; simpl. f_equal. apply alter_alter_cancel, add_comment_count_cancel.
  - unfold Answer.apply in *.
    destruct (question_update_inv _ _ _ _ H) as [q Hq].
    rewrite (question_update_ok _ _ _ _ Hq) in H. injection H as <-.
    eexists. split.
    + eapply question_update_ok. simpl. rewrite lookup_alter, decide_True by done.
      by rewrite Hq.
    + unfold counters; simpl. f_equal.
      rewrite alter_alter_cancel; [done|]. apply add_answer_count_cancel.
  - unfold PostRevision.apply in *.
    destruct (post_update_inv _ _ _ _ H) as [p Hp].
    rewrite (post_update_ok _ _ _ _ Hp) in H. injection H as <-.
    eexists. split.
    + eapply post_update_ok. simpl. rewrite lookup_alter, decide_True by done.
      by rewrite Hp.
    + unfold counters; simpl. f_equal. apply alter_alter_cancel, add_revision_count_cancel.
Qed.

(** ** Votes on the example database *)

Lemma example_vote_refs_ok (user post type : Z) :
  user ∈ [1; 2; 3] → post ∈ [11; 12] → vote_refs_ok (mkVote user post type) example_db.
Proof.
  intros Hu Hp.
  assert (Hprof : is_Some (profiles example_db !! user)).
  { repeat (apply elem_of_cons in Hu as [->|Hu]; [by eexists|]). by apply elem_of_nil in Hu. }
  assert (Hpost : ∃ p, posts example_db !! post = Some p
                       ∧ is_Some (profiles example_db !! post_author p)
                       ∧ ∃ answer, answers example_db !! post = Some answer
                           ∧ is_Some (questions example_db !! answer_question answer)).
  { repeat (apply elem_of_cons in Hp as [->|Hp];
            [eexists; split; [reflexivity|]; split; [by eexists|];
             eexists; split; [reflexivity|by eexists]|]).
    by apply elem_of_nil in Hp. }
  destruct Hpost as (p & Hp1 & Hp2 & Hp3).
  unfold vote_refs_ok; simpl. eauto 10.
Qed.

(** C6, witness: user 1 casts a Downvote on post 11, whose author is user
    2. *)
Lemma vote_apply_scoring_table_witness :
  ∃ s', Vote.apply (mkVote 1 11 VOTE_DOWN) 1 example_db = (Ok tt, s') ∧
    let '(d_score, d_author, d_voter) := scoring_table VOTE_DOWN in
    (∀ u, profiles s' !! u =
       (λ p, mkUserProfile
               (profile_score p
                + (if decide (u = vote_post_author (mkVote 1 11 VOTE_DOWN) example_db)
                   then d_author else 0)
                + (if decide (u = 1) then d_voter else 0))
               (bronze_badges p) (silver_badges p) (gold_badges p))
       <$> profiles example_db !! u) ∧
    (∀ k, posts s' !! k =
       (λ p, mkPost (post_author p) (post_content p) (post_html p) (post_title p)
               (post_tag_string p) (post_views p)
               (post_score p + (if decide (k = 11) then d_score else 0))
               (comment_count p) (revision_count p) (creation_date p)
               (lastedit_date p) (lastedit_user p))
       <$> posts example_db !! k) ∧
    answer_count <$> questions s' = answer_count <$> questions example_db ∧
    badges s' = badges example_db ∧
    tags s' = tags example_db.
Proof.
  apply (vote_apply_scoring_table (mkVote 1 11 VOTE_DOWN) example_db).
  apply example_vote_refs_ok; set_solver.
Defined.

(** C2, witness: an Accept vote of user 1 for the answer in post 11. *)
Lemma apply_then_unapply_restores_counters_witness :
  ∃ s2, instance_apply (IVote (mkVote 1 11 VOTE_ACCEPT)) (-1)
          (Vote_effect (mkVote 1 11 VOTE_ACCEPT) 1 example_db) = (Ok tt, s2)
        ∧ counters s2 = counters example_db.
Proof.
  apply (apply_then_unapply_restores_counters (IVote (mkVote 1 11 VOTE_ACCEPT)) example_db).
  vm_compute. reflexivity.
Defined.

(** ** Accepting an answer *)

(** C3, counterexample: user 1 accepts the answer in post 11 and then the
    answer in post 12 of the same question 100. Both runs of [apply(+1)]
    return; afterwards both answers are accepted and the author of the
    first answer (user 2) still has the 15 points of the first Accept
    vote, so the first answer was neither unaccepted nor its vote
    reversed. *)
Lemma accept_second_answer_keeps_first :
  let s1 := (Vote.apply (mkVote 1 11 VOTE_ACCEPT) 1 example_db).2 in
  let r2 := Vote.apply (mkVote 1 12 VOTE_ACCEPT) 1 s1 in
  at_most_one_accepted s1 100 ∧
  r2.1 = Ok tt ∧
  accepted <$> answers r2.2 !! 11 = Some true ∧
  accepted <$> answers r2.2 !! 12 = Some true ∧
  profile_score <$> profiles r2.2 !! 2 = Some 15 ∧
  ¬ at_most_one_accepted r2.2 100.
Proof.
  cbv zeta. split; [|split; [|split; [|split; [|split]]]]; try (vm_compute; reflexivity).
  - intros k1 k2 a1 a2 H1 H2 _ _ A1 A2.
    assert (Hk : ∀ k a, answers (Vote.apply (mkVote 1 11 VOTE_ACCEPT) 1 example_db).2 !! k
                        = Some a → accepted a = true → k = 11).
    { intros k a. replace (answers _) with
        ({[ 11 := mkAnswer 100 11 true; 12 := mkAnswer 100 12 false ]} : gmap Z Answer)
        by (vm_compute; reflexivity).
      intros H A. destruct (decide (k = 11)) as [|N1]; [done|].
      rewrite lookup_insert_ne in H by done.
      destruct (decide (k = 12)) as [->|N2].
      - rewrite lookup_singleton_eq in H. injection H as <-. discriminate.
      - by rewrite lookup_singleton_ne in H. }
    by rewrite (Hk _ _ H1 A1), (Hk _ _ H2 A2).
  - intros H.
    specialize (H 11 12 (mkAnswer 100 11 true) (mkAnswer 100 12 true)).
    discriminate H; reflexivity.
Qed.

(** C3 as the code has it: [apply(+1)] of an Accept vote for an answer
    sets the accepted flag of that answer and the [answer_accepted] flag
    of its question, leaves every other answer as it was (an answer
    accepted before stays accepted) and changes the profiles only by
    adding 15 to the reputation of the author of the voted answer and 2 to
    the reputation of the voter, so no earlier vote is reversed. *)
Theorem accept_sets_flags_and_clears_nothing (v : Vote) (s : Store) :
  vote_type v = VOTE_ACCEPT → vote_refs_ok v s →
  ∃ s', Vote.apply v 1 s = (Ok tt, s') ∧
    accepted <$> answers s' !! vote_post v = Some true ∧
    answer_accepted <$> questions s' !! vote_question v s = Some true ∧
    (∀ k, k ≠ vote_post v → answers s' !! k = answers s !! k) ∧
    (∀ u, profiles s' !! u =
       (λ p, mkUserProfile
               (profile_score p
                + (if decide (u = vote_post_author v s) then 15 else 0)
                + (if decide (u = vote_author v) then 2 else 0))
               (bronze_badges p) (silver_badges p) (gold_badges p))
       <$> profiles s !! u).
Proof.
  intros E Hok. exists (Vote_effect v 1 s). split; [by apply Vote_apply_ok|].
  destruct Hok as (_ & _ & _ & Hacc). destruct (Hacc E) as (_ & answer & Hans & [q Hq]).
  pose proof (dicts_scoring_table v) as T. rewrite E in T. injection T as _ T1 T2.
  split; [|split; [|split]].
  - unfold Vote_effect. rewrite decide_True by done. simpl.
    rewrite lookup_alter, decide_True by done. by rewrite Hans.
  - unfold Vote_effect. rewrite decide_True by done. simpl.
    unfold vote_question. rewrite Hans; simpl.
    rewrite lookup_alter, decide_True by done. by rewrite Hq.
  - intros k Hk. unfold Vote_effect. rewrite decide_True by done. simpl.
    by rewrite lookup_alter, decide_False.
  - intros u. by rewrite Vote_effect_profiles, T1, T2.
Qed.

(** C3, witness: user 1 accepts the answer in post 12, whose author is
    user 3. *)
Lemma accept_sets_flags_and_clears_nothing_witness :
  ∃ s', Vote.apply (mkVote 1 12 VOTE_ACCEPT) 1 example_db = (Ok tt, s') ∧
    accepted <$> answers s' !! 12 = Some true ∧
    answer_accepted <$> questions s' !! vote_question (mkVote 1 12 VOTE_ACCEPT) example_db
      = Some true ∧
    (∀ k, k ≠ 12 → answers s' !! k = answers example_db !! k) ∧
    (∀ u, profiles s' !! u =
       (λ p, mkUserProfile
               (profile_score p
                + (if decide (u = vote_post_author (mkVote 1 12 VOTE_ACCEPT) example_db)
                   then 15 else 0)
                + (if decide (u = 1) then 2 else 0))
               (bronze_badges p) (silver_badges p) (gold_badges p))
       <$> profiles example_db !! u).
Proof.
  apply (accept_sets_flags_and_clears_nothing (mkVote 1 12 VOTE_ACCEPT) example_db).
  - reflexivity.
  - apply example_vote_refs_ok; set_solver.
Defined.

(** ** The life cycle of a record: creation, update, deletion *)

Lemma send_post_save (i : Instance) (kw : kwargs) :
  send post_save (model_of i) kw = (apply_instance kw ;; mret tt).
Proof. by destruct i. Qed.

Lemma send_post_delete (i : Instance) (kw : kwargs) :
  send post_delete (model_of i) kw = (apply_instance kw ;; mret tt).
Proof. by destruct i. Qed.

Lemma delete_row_Ok (pk : Z) (i : Instance) (s : Store) :
  ∃ s', delete_row pk i s = (Ok tt, s') ∧ applied s' = applied s ∧ counters s' = counters s.
Proof. destruct i; eexists; (split; [reflexivity|done]). Qed.

(** Deleting a record of any of the five classes: the receiver connected
    to [post_delete] is [apply_instance], which is called without
    [created] and [raw]; the call raises [TypeError] and [apply] is not
    run, so no counter moves. *)
Lemma delete_instance_raises (pk : Z) (i : Instance) (s : Store) :
  ∃ s', delete_instance pk i s = (Raise TypeError, s') ∧
        applied s' = applied s ∧ counters s' = counters s.
Proof.
  destruct (delete_row_Ok pk i s) as (s' & Hd & Ha & Hc).
  exists s'. split; [|done].
  unfold delete_instance. rewrite (bind_Ok _ _ _ _ _ Hd), send_post_delete.
  reflexivity.
Qed.

(** Had [post_delete] been connected to [unapply_instance], the receiver
    would have run [apply(-1)] once. *)
Lemma unapply_instance_calls_apply (i : Instance) (s : Store) :
  unapply_instance (mkKwargs i None None) s
  = instance_apply i (-1) (set_applied (λ l, l ++ [(i, -1)]) s).
Proof. reflexivity. Qed.

Lemma pre_save_Ok (i : Instance) (s : Store) :
  ∃ i', pre_save i s = (Ok i', s) ∧ model_of i' = model_of i.
Proof.
  destruct i as [| a | | |]; try (eexists; split; reflexivity).
  simpl. unfold create_award. destruct (award_date a); eexists; split; reflexivity.
Qed.

Lemma insert_row_frame (i : Instance) (s : Store) :
  applied (insert_row i s).2 = applied s ∧ counters (insert_row i s).2 = counters s.
Proof. destruct i as [| | | a |]; simpl; try done. by destruct (answers s !! _). Qed.

(** Saving a record that already has a row, and loading a record from a
    fixture, do not run [apply]. *)
Lemma save_existing_does_not_apply (pk : Z) (i : Instance) (raw : bool) (s : Store) :
  ∃ s', save_existing pk i raw s = (Ok tt, s') ∧
        applied s' = applied s ∧ counters s' = counters s.
Proof.
  unfold save_existing. destruct (pre_save_Ok i s) as (i' & Hp & Hm).
  rewrite (bind_Ok _ _ _ _ _ Hp).
  assert (∃ s', update_row pk i' s = (Ok tt, s') ∧ applied s' = applied s
                ∧ counters s' = counters s) as (s' & Hu & Ha & Hc).
  { destruct i'; eexists; (split; [reflexivity|done]). }
  exists s'. rewrite (bind_Ok _ _ _ _ _ Hu), send_post_save. done.
Qed.

Lemma save_new_raw_does_not_apply (i : Instance) (s : Store) :
  applied (save_new i true s).2 = applied s ∧
  counters (save_new i true s).2 = counters s.
Proof.
  unfold save_new. destruct (pre_save_Ok i s) as (i' & Hp & Hm).
  rewrite (bind_Ok _ _ _ _ _ Hp).
  pose proof (insert_row_frame i' s) as Hf.
  destruct (insert_row i' s) as [[pk|e] s'] eqn:Hu.
  - by rewrite (bind_Ok _ _ _ _ _ Hu), send_post_save.
  - by rewrite (bind_Raise _ _ _ _ _ Hu).
Qed.

(** Creating a record through [save()] runs [apply(+1)] once, right after
    the row is inserted. *)
Lemma save_new_applies_once (i i' : Instance) (pk : Z) (s s0 : Store) :
  pre_save i s = (Ok i', s) → insert_row i' s = (Ok pk, s0) →
  applied s0 = applied s ∧ counters s0 = counters s ∧
  save_new i false s =
    (_ ← instance_apply i' 1; mret pk) (set_applied (λ l, l ++ [(i', 1)]) s0).
Proof.
  intros Hp Hu. pose proof (insert_row_frame i' s) as Hf. rewrite Hu in Hf.
  destruct Hf as [Ha Hc]. split; [done|]. split; [done|].
  unfold save_new.
  rewrite (bind_Ok _ _ _ _ _ Hp), (bind_Ok _ _ _ _ _ Hu), send_post_save.
  unfold apply_instance, call_apply; simpl.
  unfold mbind, M_bind, modify, mret, M_ret.
  destruct (instance_apply i' 1 _) as [[[]|e] s1]; reflexivity.
Qed.

(** C1, evaluated on the example database: user 1 casts an Upvote on post
    11, which runs [apply(+1)] once (score 1, author's reputation 10);
    then the vote is removed through [remove_vote]. The deletion raises
    [TypeError], the trace still holds the single [apply(+1)] and no
    [apply(-1)], and the score and the reputation keep the vote's
    effect. *)
Theorem remove_vote_never_unapplies :
  let v := mkVote 1 11 VOTE_UP in
  let r1 := Post.add_vote 11 (User 1) VOTE_UP example_db in
  let r2 := Post.remove_vote 11 (User 1) VOTE_UP r1.2 in
  r1.1 = Ok v ∧
  applied r1.2 = [(IVote v, 1)] ∧
  post_score <$> posts r1.2 !! 11 = Some 1 ∧
  profile_score <$> profiles r1.2 !! 2 = Some 10 ∧
  r2.1 = Raise TypeError ∧
  applied r2.2 = [(IVote v, 1)] ∧
  post_score <$> posts r2.2 !! 11 = Some 1 ∧
  profile_score <$> profiles r2.2 !! 2 = Some 10.
Proof. cbv zeta. repeat split; vm_compute; reflexivity. Qed.

(** ** Granting an award *)

(** The award as [create_award] leaves it: with the date of the clock when
    it had none. *)
Lemma pre_save_award (a : Award) (s : Store) :
  pre_save (IAward a) s
  = (Ok (IAward (mkAward (award_badge a) (award_user a)
                   (Some (default (clock s) (award_date a))))), s).
Proof. destruct a as [b u [d|]]; reflexivity. Qed.

Lemma fresh_key_None {A} (m : gmap Z A) : m !! fresh (dom m) = None.
Proof. apply not_elem_of_dom, is_fresh. Qed.

(** C7, evaluated on the example database: badge 1 is unique (the source
    comments the field with "Unique badges may be earned only once"); it
    is granted to user 2 twice. The second grant, made while the first
    award is in the table, returns normally instead of raising
    [DuplicateAward], inserts a second award and counts again: the user's
    bronze counter and the badge's award count go from 1 to 2. *)
Theorem unique_badge_granted_twice :
  let a := mkAward 1 2 None in
  let r1 := save_new (IAward a) false example_db in
  let r2 := save_new (IAward a) false r1.2 in
  badge_unique <$> badges example_db !! 1 = Some true ∧
  r1.1 = Ok 0 ∧
  awards r1.2 !! 0 = Some (mkAward 1 2 (Some 1000)) ∧
  r2.1 = Ok 1 ∧
  r2.1 ≠ Raise DuplicateAward ∧
  awards r2.2 !! 0 = Some (mkAward 1 2 (Some 1000)) ∧
  awards r2.2 !! 1 = Some (mkAward 1 2 (Some 1000)) ∧
  bronze_badges <$> profiles r1.2 !! 2 = Some 1 ∧
  bronze_badges <$> profiles r2.2 !! 2 = Some 2 ∧
  badge_count <$> badges r1.2 !! 1 = Some 1 ∧
  badge_count <$> badges r2.2 !! 1 = Some 2.
Proof. cbv zeta. repeat split; try (vm_compute; reflexivity). vm_compute. discriminate. Qed.

(** ** The current revision *)

#[local] Instance date_le_trans : Transitive date_le.
Proof. intros a b c. unfold date_le. lia. Qed.

#[local] Instance date_le_total : Total date_le.
Proof. intros a b. unfold date_le. lia. Qed.

(** [current_revision] returns a revision of the post whose date is the
    least among the revisions of the post. *)
Lemma current_revision_is_oldest (self : Z) (s s' : Store) (pk : Z) (r : PostRevision) :
  Post.current_revision self s = (Ok (pk, r), s') →
  revisions s !! pk = Some r ∧ revision_post r = self ∧
  ∀ pk' r', revisions s !! pk' = Some r' → revision_post r' = self →
            revision_date r ≤ revision_date r'.
Proof.
  unfold Post.current_revision, gets, mbind, M_bind.
  set (l := map_to_list _).
  pose proof (merge_sort_Permutation date_le l) as Hperm.
  pose proof (StronglySorted_merge_sort date_le l) as Hsorted.
  destruct (merge_sort date_le l) as [|x xs]; [discriminate|].
  intros [= -> <-].
  assert (Hin : ∀ k row, (k, row) ∈ l ↔ revisions s !! k = Some row ∧ revision_post row = self).
  { intros k row. subst l. rewrite elem_of_map_to_list, map_lookup_filter_Some. done. }
  assert (Hhead : (pk, r) ∈ l) by (rewrite <- Hperm; left).
  apply Hin in Hhead as [H1 H2]. split; [done|]. split; [done|].
  intros pk' r' H1' H2'.
  assert (Hin' : (pk', r') ∈ (pk, r) :: xs) by (rewrite Hperm; by apply Hin).
  apply StronglySorted_inv in Hsorted as [_ Hall].
  apply elem_of_cons in Hin' as [[= -> ->]|Hin']; [lia|].
  rewrite Forall_forall in Hall. apply (Hall _ Hin').
Qed.

(** A post with a revision has a current revision. *)
Lemma current_revision_returns (self : Z) (s : Store) (pk : Z) (r : PostRevision) :
  revisions s !! pk = Some r → revision_post r = self →
  ∃ kv, Post.current_revision self s = (Ok kv, s).
Proof.
  intros H1 H2. unfold Post.current_revision, gets, mbind, M_bind.
  set (l := map_to_list _).
  assert (Hin : (pk, r) ∈ l).
  { subst l. rewrite elem_of_map_to_list, map_lookup_filter_Some. done. }
  rewrite <- (merge_sort_Permutation date_le l) in Hin.
  destruct (merge_sort date_le l) as [|x xs]; [by apply elem_of_nil in Hin|].
  by exists x.
Qed.

(** C5, evaluated: post 10 of the example database is edited twice through
    [create_revision], at date 1 with content "first" and at date 2 with
    content "second". The post then holds "second", its revisions are the
    two snapshots, and [current_revision] returns the snapshot of date 1,
    the oldest one, where the most recent one has date 2. *)
Theorem current_revision_returns_first_edit :
  let first := mkPostRevision 10 "first" EmptyString EmptyString 1 1 in
  let second := mkPostRevision 10 "second" EmptyString EmptyString 1 2 in
  post_content <$> posts two_edits !! 10 = Some "second"%string ∧
  revisions two_edits = {[ 0 := first; 1 := second ]} ∧
  (Post.current_revision 10 two_edits).1 = Ok (0, first) ∧
  revision_date first < revision_date second.
Proof. cbv zeta. repeat split; vm_compute; reflexivity. Qed.

(** ** Loops over tag rows *)

Lemma for_each_alter (f : Tag → Tag) (l : list Z) (s : Store) :
  for_each l (λ pk, modify (set_tag_rows (alter f pk))) s
  = (Ok tt, set_tag_rows (alter_all f l) s).
Proof.
  revert s. induction l as [|pk l IH]; intros s.
  - by destruct s.
  - simpl. unfold mbind, M_bind, modify at 1. rewrite IH. by destruct s.
Qed.

Lemma lookup_alter_all {A} (f : A → A) (l : list Z) (m : gmap Z A) (k : Z) :
  NoDup l →
  alter_all f l m !! k = if decide (k ∈ l) then f <$> m !! k else m !! k.
Proof.
  intros Hnd. revert m. induction Hnd as [|pk l Hpk Hnd IH]; intros m.
  - done.
  - change (alter_all f (pk :: l) m) with (alter_all f l (alter f pk m)).
    rewrite IH, lookup_alter.
    destruct (decide (pk = k)) as [->|Hne].
    + rewrite (decide_False (P := k ∈ l)) by done.
      by rewrite (decide_True (P := k ∈ k :: l)) by left.
    + destruct (decide (k ∈ l)) as [Hin|Hin].
      * by rewrite (decide_True (P := k ∈ pk :: l)) by (by right).
      * rewrite (decide_False (P := k ∈ pk :: l)); [done|].
        intros [?|?]%elem_of_cons; by auto.
Qed.

Lemma for_each_get_save (f : Tag → Tag) (l : list Z) (s : Store) :
  (∀ pk, pk ∈ l → is_Some (tags s !! pk)) →
  for_each l (λ pk, tag ← get_row tags pk; save_tag pk (f tag)) s
  = (Ok tt, set_tag_rows (alter_all f l) s).
Proof.
  revert s. induction l as [|pk l IH]; intros s Hall.
  - by destruct s.
  - destruct (Hall pk) as [t Ht]; [left|].
    simpl. unfold mbind at 1, M_bind at 1.
    erewrite bind_Ok by (by apply get_row_Some).
    unfold save_tag, modify. rewrite IH.
    + unfold set_tag_rows; simpl. by rewrite (insert_as_alter f _ _ _ Ht).
    + intros pk' Hpk'. simpl. apply lookup_insert_is_Some'. right. apply Hall. by right.
Qed.

(** ** Looking a row up by a condition *)

Lemma objects_get_none {A} (table : Store → gmap Z A) (P : A → Prop)
    `{!∀ x, Decision (P x)} (s : Store) :
  (∀ k x, table s !! k = Some x → ¬ P x) →
  objects_get table P s = (Raise DoesNotExist, s).
Proof.
  intros Hnone. unfold objects_get.
  assert (E : filter (λ kv : Z * A, P kv.2) (table s) = ∅).
  { apply map_empty_filter. intros k x Hk. by apply Hnone in Hk. }
  by rewrite E, map_to_list_empty.
Qed.

Lemma objects_get_unique {A} (table : Store → gmap Z A) (P : A → Prop)
    `{!∀ x, Decision (P x)} (s : Store) (k : Z) (x : A) :
  table s !! k = Some x → P x →
  (∀ k' x', table s !! k' = Some x' → P x' → k' = k) →
  objects_get table P s = (Ok (k, x), s).
Proof.
  intros Hk HP Huniq. unfold objects_get.
  assert (E : filter (λ kv : Z * A, P kv.2) (table s) = {[ k := x ]}).
  { apply map_eq; intros j. apply option_eq; intros y.
    rewrite map_lookup_filter_Some, lookup_singleton_Some. simpl. split.
    - intros [Hj Hy]. assert (j = k) as -> by eauto. split; congruence.
    - by intros [<- <-]. }
  by rewrite E, map_to_list_singleton.
Qed.

Lemma get_or_create_tag_existing (n : string) (s : Store) (k : Z) (t : Tag) :
  tags s !! k = Some t → tag_name t = n →
  (∀ k' t', tags s !! k' = Some t' → tag_name t' = n → k' = k) →
  get_or_create_tag n s = (Ok k, s).
Proof.
  intros Hk Hn Huniq. unfold get_or_create_tag, try_except.
  erewrite bind_Ok by (by apply (objects_get_unique tags _ s k t)).
  reflexivity.
Qed.

Lemma get_or_create_tag_new (n : string) (s : Store) :
  (∀ k t, tags s !! k = Some t → tag_name t ≠ n) →
  get_or_create_tag n s
  = (Ok (fresh (dom (tags s))),
     set_tag_rows (insert (fresh (dom (tags s))) (mkTag n 0)) s).
Proof.
  intros Hnone. unfold get_or_create_tag, try_except.
  erewrite bind_Raise by (by apply (objects_get_none tags)).
  by rewrite decide_True.
Qed.

(** Either some row has the name, or none has. *)
Lemma tag_named_or_not (n : string) (m : gmap Z Tag) :
  (∃ k t, m !! k = Some t ∧ tag_name t = n) ∨ (∀ k t, m !! k = Some t → tag_name t ≠ n).
Proof.
  destruct (map_choose_or_empty (filter (λ kv : Z * Tag, tag_name kv.2 = n) m))
    as [(k & t & [Hk Hn]%map_lookup_filter_Some)|E].
  - left. eauto.
  - right. intros k t Hk Hn.
    assert (filter (λ kv : Z * Tag, tag_name kv.2 = n) m !! k = Some t) as H
      by (by apply map_lookup_filter_Some).
    by rewrite E in H.
Qed.

(** ** The receiver [tags_changed] *)

Lemma tags_changed_pre_clear (self : Z) (pk_set : gset Z) (s : Store) :
  tags_changed self "pre_clear" pk_set s
  = (Ok tt, set_tag_rows (alter_all (add_tag_count (-1)) (elements (tag_set_of s self))) s).
Proof.
  unfold tags_changed. cbn [decide]. simpl.
  unfold mbind, M_bind, mret, M_ret, gets. apply for_each_alter.
Qed.

Lemma tags_changed_post_clear (self : Z) (pk_set : gset Z) (s : Store) :
  tags_changed self "post_clear" pk_set s = (Ok tt, s).
Proof. reflexivity. Qed.

Lemma tags_changed_pre_add (self : Z) (pk_set : gset Z) (s : Store) :
  tags_changed self "pre_add" pk_set s = (Ok tt, s).
Proof. reflexivity. Qed.

Lemma tags_changed_post_add (self : Z) (pk_set : gset Z) (s : Store) :
  (∀ pk, pk ∈ pk_set → is_Some (tags s !! pk)) →
  tags_changed self "post_add" pk_set s
  = (Ok tt, set_tag_rows (alter_all (add_tag_count 1) (elements pk_set)) s).
Proof.
  intros Hall. unfold tags_changed. simpl.
  erewrite bind_Ok; [reflexivity|].
  apply for_each_get_save. intros pk Hpk. apply Hall. by apply elem_of_elements.
Qed.

(** ** [clear], the loop of [set_tags], [add] *)

Lemma tag_set_clear_ok (self : Z) (s : Store) :
  tag_set_clear self s
  = (Ok tt,
     set_post_tag_set (insert self ∅)
       (set_tag_rows (alter_all (add_tag_count (-1)) (elements (tag_set_of s self))) s)).
Proof.
  unfold tag_set_clear.
  rewrite (bind_Ok _ _ _ _ _ (tags_changed_pre_clear self ∅ s)).
  reflexivity.
Qed.

Lemma tag_set_add_ok (self : Z) (pks : list Z) (s : Store) :
  pks ≠ [] →
  post_tag_set s !! self = Some ∅ →
  (∀ pk, pk ∈ pks → is_Some (tags s !! pk)) →
  tag_set_add self pks s
  = (Ok tt,
     set_tag_rows (alter_all (add_tag_count 1) (elements (list_to_set pks : gset Z)))
       (set_post_tag_set (insert self (list_to_set pks)) s)).
Proof.
  intros Hne Hempty Hall. unfold tag_set_add. destruct pks as [|pk pks]; [done|].
  set (l := pk :: pks) in *.
  unfold gets, mbind at 1, M_bind at 1. rewrite Hempty. simpl default.
  rewrite difference_empty_L, (left_id_L ∅ (∪)).
  rewrite (bind_Ok _ _ _ _ _ (tags_changed_pre_add self _ s)).
  unfold modify at 1, mbind at 1, M_bind at 1.
  apply tags_changed_post_add. intros k Hk. simpl. apply Hall.
  by apply elem_of_list_to_set in Hk.
Qed.

Lemma names_unique_in_insert (L : list string) (m : gmap Z Tag) (pk : Z) (n : string) :
  names_unique_in L m → m !! pk = None →
  (∀ k t, m !! k = Some t → tag_name t ≠ n) →
  names_unique_in L (<[pk := mkTag n 0]> m).
Proof.
  intros Hu Hfresh Hnone k1 k2 t1 t2 H1 H2 Hn HL.
  apply lookup_insert_Some in H1 as [[<- <-]|[N1 H1]];
    apply lookup_insert_Some in H2 as [[<- <-]|[N2 H2]]; simpl in *.
  - done.
  - by destruct (Hnone _ _ H2).
  - by destruct (Hnone _ _ H1).
  - eauto.
Qed.

(** The loop of [set_tags] returns one key per name; rows that were in the
    table are untouched, and a row that was not has count 0, carries one
    of the names and is among the keys returned. *)
Lemma collect_tags_spec (L names : list string) (s : Store) :
  names ⊆ L → names_unique_in L (tags s) →
  ∃ pks m',
    collect_tags names s = (Ok pks, set_tag_rows (λ _, m') s) ∧
    names_unique_in L m' ∧
    (∀ k t, tags s !! k = Some t → m' !! k = Some t) ∧
    (∀ k t, m' !! k = Some t → tags s !! k = None →
            t = mkTag (tag_name t) 0 ∧ tag_name t ∈ names ∧ k ∈ pks) ∧
    Forall2 (λ n pk, ∃ t, m' !! pk = Some t ∧ tag_name t = n) names pks.
Proof.
  revert s. induction names as [|n names IH]; intros s Hsub Hu.
  - exists [], (tags s). split; [by destruct s|]. naive_solver.
  - assert (Hn : n ∈ L) by set_solver.
    assert (Hsub' : names ⊆ L) by set_solver.
    destruct (tag_named_or_not n (tags s)) as [(k & t & Hk & Hname)|Hnone].
    + destruct (IH s Hsub' Hu) as (pks & m' & Hrun & Hu' & Hold & Hnew & Hall).
      exists (k :: pks), m'. split; [|split; [done|split; [done|split]]].
      * simpl. erewrite bind_Ok; last first.
        { apply (get_or_create_tag_existing n s k t); [done..|].
          intros k' t' Hk' Hn'. apply (Hu k' k t' t); congruence. }
        by rewrite (bind_Ok _ _ _ _ _ Hrun).
      * intros k' t' H1 H2. destruct (Hnew _ _ H1 H2) as (? & ? & ?).
        split; [done|]. split; by right.
      * constructor; [|done]. exists t. split; [by apply Hold|done].
    + set (pk := fresh (dom (tags s))).
      set (s1 := set_tag_rows (insert pk (mkTag n 0)) s).
      assert (Hfresh : tags s !! pk = None) by apply fresh_key_None.
      destruct (IH s1 Hsub') as (pks & m' & Hrun & Hu' & Hold & Hnew & Hall).
      { simpl. by apply names_unique_in_insert. }
      exists (pk :: pks), m'. split; [|split; [done|split; [|split]]].
      * simpl. rewrite (bind_Ok _ _ _ _ _ (get_or_create_tag_new n s Hnone)).
        fold pk. fold s1. by rewrite (bind_Ok _ _ _ _ _ Hrun).
      * intros k t Hk. apply Hold. simpl. rewrite lookup_insert_ne; [done|].
        intros <-. congruence.
      * intros k t H1 H2. destruct (decide (k = pk)) as [->|Hne].
        -- assert (m' !! pk = Some (mkTag n 0)) as H3
             by (apply Hold; simpl; apply lookup_insert_eq).
           rewrite H1 in H3. injection H3 as ->. simpl. split; [done|]. split; left.
        -- destruct (Hnew k t H1) as (? & ? & ?).
           { simpl. by rewrite lookup_insert_ne. }
           split; [done|]. split; by right.
      * constructor; [|done]. exists (mkTag n 0). split; [|done].
        apply Hold. simpl. apply lookup_insert_eq.
Qed.

Lemma split_space_nonempty (s : string) : split_space s ≠ [].
Proof.
  destruct s as [|c s]; simpl; [done|].
  case_decide; [done|]. by destruct (split_space s).
Qed.

Lemma add_tag_count_0 (t : Tag) : add_tag_count 0 t = t.
Proof. destruct t. unfold add_tag_count; simpl. f_equal. lia. Qed.

(** What [set_tags] does, when no two rows share one of the names of the
    tag string. *)
Lemma set_tags_spec (self : Z) (tag_string : string) (s : Store) (post : Post) :
  posts s !! self = Some post →
  names_unique_in (split_space tag_string) (tags s) →
  ∃ s',
    Post.set_tags self tag_string s = (Ok tt, s') ∧
    posts s' = <[self := set_tag_string tag_string post]> (posts s) ∧
    (∀ n, n ∈ split_space tag_string ↔
          ∃ k t, k ∈ tag_set_of s' self ∧ tags s' !! k = Some t ∧ tag_name t = n) ∧
    (∀ k t, tags s !! k = Some t →
            tags s' !! k
            = Some (add_tag_count (net_change (tag_set_of s self) (tag_set_of s' self) k) t)) ∧
    (∀ k t', tags s' !! k = Some t' → tags s !! k = None →
             k ∈ tag_set_of s' self ∧ tag_count t' = 1 ∧
             tag_name t' ∈ split_space tag_string).
Proof.
  intros Hpost Hu.
  set (names := split_space tag_string) in *.
  set (old := tag_set_of s self).
  set (s0 := set_posts (insert self (set_tag_string tag_string post)) s).
  set (m1 := alter_all (add_tag_count (-1)) (elements old) (tags s)).
  set (s1 := set_post_tag_set (insert self ∅) (set_tag_rows (λ _, m1) s0)).
  assert (Hm1 : ∀ k, m1 !! k = if decide (k ∈ old) then add_tag_count (-1) <$> tags s !! k
                                else tags s !! k).
  { intros k. subst m1. rewrite lookup_alter_all by apply NoDup_elements.
    destruct (decide (k ∈ elements old)) as [Hin|Hin]; apply elem_of_elements in Hin ||
      rewrite elem_of_elements in Hin; [by rewrite decide_True|by rewrite decide_False]. }
  assert (Hu1 : names_unique_in names (tags s1)).
  { intros k1 k2 t1 t2 H1 H2 Hn HL. simpl in H1, H2. rewrite Hm1 in H1, H2.
    assert (∃ t, tags s !! k1 = Some t ∧ tag_name t = tag_name t1) as (u1 & U1 & N1).
    { destruct (decide (k1 ∈ old)); [|eauto].
      destruct (tags s !! k1) as [u|]; [|done]. injection H1 as <-. eauto. }
    assert (∃ t, tags s !! k2 = Some t ∧ tag_name t = tag_name t2) as (u2 & U2 & N2).
    { destruct (decide (k2 ∈ old)); [|eauto].
      destruct (tags s !! k2) as [u|]; [|done]. injection H2 as <-. eauto. }
    apply (Hu k1 k2 u1 u2); congruence. }
  destruct (collect_tags_spec names names s1) as (pks & m2 & Hrun & Hu2 & Hold & Hnew & Hall);
    [done|done|].
  set (s2 := set_tag_rows (λ _, m2) s1) in *.
  set (new := list_to_set pks : gset Z).
  set (s3 := set_tag_rows (alter_all (add_tag_count 1) (elements new))
               (set_post_tag_set (insert self new) s2)).
  assert (Hpks : pks ≠ []).
  { intros ->. apply Forall2_nil_inv_r in Hall. by apply split_space_nonempty in Hall. }
  assert (Hrows : ∀ pk, pk ∈ pks → is_Some (m2 !! pk)).
  { intros pk Hpk. apply list_elem_of_lookup in Hpk as [i Hi].
    destruct (Forall2_lookup_r _ _ _ _ _ Hall Hi) as (n & _ & t & Ht & _). eauto. }
  assert (Hm3 : ∀ k, tags s3 !! k = if decide (k ∈ new) then add_tag_count 1 <$> m2 !! k
                                    else m2 !! k).
  { intros k. subst s3; simpl. rewrite lookup_alter_all by apply NoDup_elements.
    destruct (decide (k ∈ elements new)) as [Hin|Hin]; apply elem_of_elements in Hin ||
      rewrite elem_of_elements in Hin; [by rewrite decide_True|by rewrite decide_False]. }
  assert (Hnew3 : tag_set_of s3 self = new).
  { unfold tag_set_of. subst s3; simpl. by rewrite lookup_insert_eq. }
  exists s3. split; [|split; [|split; [|split]]].
  - unfold Post.set_tags.
    erewrite bind_Ok by (by apply get_row_Some).
    unfold save_post, modify at 1, mbind at 1, M_bind at 1. fold s0.
    rewrite (bind_Ok _ _ _ _ _ (tag_set_clear_ok self s0)).
    change (set_post_tag_set _ (set_tag_rows _ s0)) with s1.
    rewrite (bind_Ok _ _ _ _ _ Hrun).
    apply tag_set_add_ok; [done| |done].
    simpl. apply lookup_insert_eq.
  - reflexivity.
  - rewrite Hnew3. intros n. split.
    + intros Hn. apply list_elem_of_lookup in Hn as [i Hi].
      destruct (Forall2_lookup_l _ _ _ _ _ Hall Hi) as (pk & Hpk & t & Ht & Hname).
      assert (Hin : pk ∈ new).
      { apply elem_of_list_to_set, list_elem_of_lookup. eauto. }
      exists pk, (add_tag_count 1 t). split; [done|].
      rewrite Hm3, decide_True, Ht by done. done.
    + intros (k & t & Hk & Ht & Hname).
      apply elem_of_list_to_set, list_elem_of_lookup in Hk as [i Hi].
      destruct (Forall2_lookup_r _ _ _ _ _ Hall Hi) as (n' & Hn' & t2 & Ht2 & Hname2).
      rewrite Hm3, decide_True, Ht2 in Ht
        by (apply elem_of_list_to_set, list_elem_of_lookup; eauto).
      injection Ht as <-. simpl in Hname. subst n'.
      rewrite <- Hname. apply list_elem_of_lookup. eauto.
  - rewrite Hnew3. intros k t Hk. unfold net_change. fold old.
    assert (H2 : m2 !! k = Some (if decide (k ∈ old) then add_tag_count (-1) t else t)).
    { apply Hold. simpl. rewrite Hm1, Hk. by destruct (decide (k ∈ old)). }
    rewrite Hm3, H2.
    destruct t as [n c]. unfold add_tag_count.
    destruct (decide (k ∈ new)), (decide (k ∈ old)); simpl; do 2 f_equal; lia.
  - rewrite Hnew3. intros k t' Hk Hnone.
    assert (H1 : tags s1 !! k = None).
    { simpl. rewrite Hm1, Hnone. by destruct (decide (k ∈ old)). }
    assert (∃ t2, m2 !! k = Some t2) as [t2 H2].
    { destruct (m2 !! k) as [t2|] eqn:E2; [eauto|].
      rewrite Hm3, E2 in Hk. by destruct (decide (k ∈ new)). }
    destruct (Hnew _ _ H2 H1) as (Ht2 & Hn2 & Hin).
    assert (Hin' : k ∈ new) by (by apply elem_of_list_to_set).
    rewrite Hm3, decide_True, H2 in Hk by done. injection Hk as <-.
    split; [done|]. rewrite Ht2. simpl. done.
Qed.

(** ** The usage counts of the tags *)

(** C4, counterexample: post 10 holds the tag "a" (row 5), whose count is
    0. [set_tags] with the tag string "b" removes the tag from the post
    and leaves its count at -1: the decrement has no floor at 0. *)
Lemma set_tags_count_below_zero :
  let r := Post.set_tags 10 "b" stale_count_db in
  r.1 = Ok tt ∧
  tag_set_of stale_count_db 10 = {[ 5 ]} ∧
  tag_set_of r.2 10 = {[ 6 ]} ∧
  tags stale_count_db !! 5 = Some (mkTag "a" 0) ∧
  tags r.2 !! 5 = Some (mkTag "a" (-1)) ∧
  tags r.2 !! 6 = Some (mkTag "b" 1) ∧
  ¬ (0 ≤ -1).
Proof. cbv zeta. repeat split; try (vm_compute; reflexivity). lia. Qed.

(** C4 as the code has it: when the post exists and no two tag rows share
    a name of the new tag string, [set_tags] returns and the tags related
    to the post afterwards are exactly the rows that carry the names of
    the string. A row that was in the table keeps its name; its count is
    decremented by exactly 1 if the post held it and holds it no more
    (with no floor at 0), incremented by 1 if the post newly holds it,
    and equal to its old value otherwise (a tag held before and after is
    decremented by [clear] and incremented again by [add]). A row that
    was not in the table was created for a name of the string, is held
    by the post and has count 1. *)
Theorem set_tags_counts_by_set_difference
    (self : Z) (tag_string : string) (s : Store) (post : Post) :
  posts s !! self = Some post →
  names_unique_in (split_space tag_string) (tags s) →
  ∃ s',
    Post.set_tags self tag_string s = (Ok tt, s') ∧
    let old := tag_set_of s self in
    let new := tag_set_of s' self in
    (∀ n, n ∈ split_space tag_string ↔
          ∃ k t, k ∈ new ∧ tags s' !! k = Some t ∧ tag_name t = n) ∧
    (∀ k t, tags s !! k = Some t →
       ∃ t', tags s' !! k = Some t' ∧ tag_name t' = tag_name t ∧
         (k ∈ old → k ∉ new → tag_count t' = tag_count t - 1) ∧
         (k ∉ old → k ∈ new → tag_count t' = tag_count t + 1) ∧
         (k ∈ old → k ∈ new → tag_count t' = tag_count t) ∧
         (k ∉ old → k ∉ new → tag_count t' = tag_count t)) ∧
    (∀ k t', tags s' !! k = Some t' → tags s !! k = None →
       k ∈ new ∧ tag_count t' = 1 ∧ tag_name t' ∈ split_space tag_string).
Proof.
  intros Hpost Hu.
  destruct (set_tags_spec self tag_string s post Hpost Hu)
    as (s' & Hrun & _ & Hnames & Hold & Hnew).
  exists s'. split; [done|]. cbv zeta. split; [done|]. split; [|done].
  intros k t Hk. eexists. split; [by apply Hold|]. split; [done|].
  unfold net_change; simpl.
  repeat split; intros H1 H2;
    destruct (decide (k ∈ tag_set_of s' self)), (decide (k ∈ tag_set_of s self));
    try done; lia.
Qed.

Lemma example_db_names_unique (names : list string) :
  names_unique_in names (tags example_db).
Proof. intros k1 k2 t1 t2 H1. simpl in H1. by rewrite lookup_empty in H1. Qed.

Lemma set_tags_counts_by_set_difference_witness :
  ∃ s',
    Post.set_tags 10 "a b" example_db = (Ok tt, s') ∧
    let old := tag_set_of example_db 10 in
    let new := tag_set_of s' 10 in
    (∀ n, n ∈ split_space "a b" ↔
          ∃ k t, k ∈ new ∧ tags s' !! k = Some t ∧ tag_name t = n) ∧
    (∀ k t, tags example_db !! k = Some t →
       ∃ t', tags s' !! k = Some t' ∧ tag_name t' = tag_name t ∧
         (k ∈ old → k ∉ new → tag_count t' = tag_count t - 1) ∧
         (k ∉ old → k ∈ new → tag_count t' = tag_count t + 1) ∧
         (k ∈ old → k ∈ new → tag_count t' = tag_count t) ∧
         (k ∉ old → k ∉ new → tag_count t' = tag_count t)) ∧
    (∀ k t', tags s' !! k = Some t' → tags example_db !! k = None →
       k ∈ new ∧ tag_count t' = 1 ∧ tag_name t' ∈ split_space "a b").
Proof.
  apply (set_tags_counts_by_set_difference 10 "a b" example_db (new_post 1 "Q")).
  - reflexivity.
  - apply example_db_names_unique.
Defined.

Lemma concat_split_space (s : string) :
  String.concat " " (split_space s) = s.
Proof.
  induction s as [|c s IH]; [done|]. simpl.
  pose proof (split_space_nonempty s) as Hne.
  destruct (split_space s) as [|t ts]; [done|].
  case_decide as Hc.
  - subst c. simpl in *. by rewrite IH.
  - destruct ts as [|t' ts]; simpl in *; by rewrite <- IH.
Qed.

Lemma split_space_no_space (s : string) :
  Forall (λ n, " "%char ∉ list_ascii_of_string n) (split_space s).
Proof.
  induction s as [|c s IH]; simpl.
  - constructor; [|done]. simpl. apply not_elem_of_nil.
  - case_decide as Hc.
    + constructor; [|done]. simpl. apply not_elem_of_nil.
    + destruct (split_space s) as [|t ts].
      * constructor; [|done]. simpl. by intros [?|?%elem_of_nil]%elem_of_cons.
      * apply Forall_cons in IH as [Ht Hts]. constructor; [|done].
        simpl. intros [?|?]%elem_of_cons; [congruence|done].
Qed.

(** C10: [get_tags] splits the tag string at every single space: the
    names it returns hold no space and, joined by single spaces, are the
    tag string again, so that two spaces in a row give an empty name
    between them. It never returns the empty list; for the empty tag
    string it returns the list whose only element is the empty name; and
    [set_tags] with the empty string, on a database with no tag of the
    empty name, creates a tag row with the empty name, relates it to the
    post and leaves it with count 1. *)
Theorem empty_tag_string_is_one_empty_tag :
  (∀ p : Post, String.concat " " (Post.get_tags p) = post_tag_string p) ∧
  (∀ p : Post, Forall (λ n, " "%char ∉ list_ascii_of_string n) (Post.get_tags p)) ∧
  (∀ p : Post, post_tag_string p = "a  b c"%string →
     Post.get_tags p = ["a"; EmptyString; "b"; "c"]%string) ∧
  (∀ p : Post, Post.get_tags p ≠ []) ∧
  (∀ p : Post, post_tag_string p = EmptyString → Post.get_tags p = [EmptyString]) ∧
  (∀ (self : Z) (s : Store) (post : Post),
     posts s !! self = Some post →
     (∀ k t, tags s !! k = Some t → tag_name t ≠ EmptyString) →
     ∃ s' pk,
       Post.set_tags self EmptyString s = (Ok tt, s') ∧
       tags s !! pk = None ∧
       tags s' !! pk = Some (mkTag EmptyString 1) ∧
       pk ∈ tag_set_of s' self).
Proof.
  split; [|split; [|split; [|split; [|split]]]].
  - intros p. apply concat_split_space.
  - intros p. apply split_space_no_space.
  - intros p Hp. unfold Post.get_tags. by rewrite Hp.
  - intros p. apply split_space_nonempty.
  - intros p Hp. unfold Post.get_tags. by rewrite Hp.
  - intros self s post Hpost Hnone.
    destruct (set_tags_spec self EmptyString s post Hpost)
      as (s' & Hrun & _ & Hnames & Hold & Hnew).
    { intros k1 k2 t1 t2 H1 _ _ Hin. simpl in Hin.
      apply list_elem_of_singleton in Hin. by destruct (Hnone _ _ H1). }
    destruct (proj1 (Hnames EmptyString)) as (k & t & Hk & Ht & Hname); [simpl; left|].
    assert (Hfresh : tags s !! k = None).
    { destruct (tags s !! k) as [t0|] eqn:E; [|done].
      rewrite (Hold _ _ E) in Ht. injection Ht as <-. simpl in Hname.
      by destruct (Hnone _ _ E). }
    destruct (Hnew _ _ Ht Hfresh) as (_ & Hcount & _).
    exists s', k. repeat split; try done.
    rewrite Ht. destruct t; simpl in *. by subst.
Qed.

(** C10, witness: a post with two spaces in a row in its tag string, and
    [set_tags] with the empty string on post 10 of the example database,
    which has no tag rows. *)
Lemma empty_tag_string_is_one_empty_tag_witness :
  Post.get_tags (set_tag_string "a  b c" (new_post 1 "Q"))
    = ["a"; EmptyString; "b"; "c"]%string ∧
  Post.get_tags (new_post 1 "Q") = [EmptyString] ∧
  ∃ s' pk,
    Post.set_tags 10 EmptyString example_db = (Ok tt, s') ∧
    tags example_db !! pk = None ∧
    tags s' !! pk = Some (mkTag EmptyString 1) ∧
    pk ∈ tag_set_of s' 10.
Proof.
  destruct empty_tag_string_is_one_empty_tag as (_ & _ & H1 & _ & H2 & H3).
  split; [|split].
  - apply H1. reflexivity.
  - apply H2. reflexivity.
  - apply (H3 10 example_db (new_post 1 "Q")).
    + reflexivity.
    + intros k t H. simpl in H. by rewrite lookup_empty in H.
Defined.

(** ** Creating a revision *)

Lemma keeps_posts_ret {A} (a : A) : keeps_posts (mret a : M A).
Proof. by intros s. Qed.

Lemma keeps_posts_bind {A B} (m : M A) (f : A → M B) :
  keeps_posts m → (∀ a, keeps_posts (f a)) → keeps_posts (m ≫= f).
Proof.
  intros Hm Hf s. unfold mbind, M_bind. specialize (Hm s).
  destruct (m s) as [[a|e] s1]; simpl in *; [|done].
  by rewrite Hf.
Qed.

Lemma keeps_posts_for_each {A} (l : list A) (body : A → M unit) :
  (∀ x, keeps_posts (body x)) → keeps_posts (for_each l body).
Proof.
  intros Hb. induction l as [|x l IH]; simpl.
  - apply keeps_posts_ret.
  - apply keeps_posts_bind; [apply Hb|done].
Qed.

Lemma keeps_posts_get_row {A} (table : Store → gmap Z A) (k : Z) :
  keeps_posts (get_row table k).
Proof. intros s. unfold get_row. by destruct (table s !! k). Qed.

Lemma keeps_posts_tags_changed (self : Z) (action : string) (pk_set : gset Z) :
  keeps_posts (tags_changed self action pk_set).
Proof.
  unfold tags_changed.
  repeat (apply keeps_posts_bind; [|intros _]); case_decide;
    try apply keeps_posts_ret.
  - apply keeps_posts_for_each. intros pk.
    apply keeps_posts_bind; [apply keeps_posts_get_row|by intros t s].
  - apply keeps_posts_for_each. intros pk.
    apply keeps_posts_bind; [apply keeps_posts_get_row|by intros t s].
  - apply keeps_posts_bind; [by intros s|]. intros held.
    apply keeps_posts_for_each. by intros pk s.
Qed.

Lemma keeps_posts_tag_set_clear (self : Z) : keeps_posts (tag_set_clear self).
Proof.
  unfold tag_set_clear.
  apply keeps_posts_bind; [apply keeps_posts_tags_changed|intros _].
  apply keeps_posts_bind; [by intros s|intros _].
  apply keeps_posts_tags_changed.
Qed.

Lemma keeps_posts_tag_set_add (self : Z) (objs : list Z) : keeps_posts (tag_set_add self objs).
Proof.
  unfold tag_set_add. destruct objs as [|pk objs]; [apply keeps_posts_ret|].
  apply keeps_posts_bind; [by intros s|intros existing].
  apply keeps_posts_bind; [apply keeps_posts_tags_changed|intros _].
  apply keeps_posts_bind; [by intros s|intros _].
  apply keeps_posts_tags_changed.
Qed.

Lemma keeps_posts_get_or_create_tag (n : string) : keeps_posts (get_or_create_tag n).
Proof.
  intros s. unfold get_or_create_tag, try_except, mbind, M_bind, objects_get.
  destruct (map_to_list _) as [|kv [|kv' l]]; simpl; try done.
Qed.

Lemma keeps_posts_collect_tags (names : list string) : keeps_posts (collect_tags names).
Proof.
  induction names as [|n names IH]; simpl.
  - apply keeps_posts_ret.
  - apply keeps_posts_bind; [apply keeps_posts_get_or_create_tag|intros pk].
    apply keeps_posts_bind; [done|intros pks]. apply keeps_posts_ret.
Qed.

(** Whatever becomes of the tag rows, [set_tags] stores the tag string in
    the post and changes nothing else in the table of posts. *)
Lemma set_tags_posts (self : Z) (tag_string : string) (s : Store) (post : Post) :
  posts s !! self = Some post →
  posts (Post.set_tags self tag_string s).2
  = <[self := set_tag_string tag_string post]> (posts s).
Proof.
  intros Hpost. unfold Post.set_tags.
  erewrite bind_Ok by (by apply get_row_Some).
  unfold save_post, modify at 1, mbind at 1, M_bind at 1.
  set (s0 := set_posts _ s).
  change (<[self := set_tag_string tag_string post]> (posts s)) with (posts s0).
  apply (keeps_posts_bind (tag_set_clear self)); [apply keeps_posts_tag_set_clear|intros _].
  apply keeps_posts_bind; [apply keeps_posts_collect_tags|intros pks].
  apply keeps_posts_tag_set_add.
Qed.

(** Saving a new revision of an existing post inserts it and increments
    the revision count of the post. *)
Lemma save_new_revision (r : PostRevision) (s : Store) (post : Post) :
  posts s !! revision_post r = Some post →
  ∃ pk s1,
    save_new (IPostRevision r) false s = (Ok pk, s1) ∧
    posts s1 = <[revision_post r := add_revision_count 1 post]> (posts s) ∧
    clock s1 = clock s.
Proof.
  intros Hpost.
  set (pk := fresh (dom (revisions s))).
  set (s0 := set_applied (λ l, l ++ [(IPostRevision r, 1)])
               (set_revisions (insert pk r) s)).
  exists pk, (set_posts (alter (add_revision_count 1) (revision_post r)) s0).
  split; [|split].
  - unfold save_new.
    rewrite (bind_Ok (pre_save (IPostRevision r)) _ s s (IPostRevision r)) by reflexivity.
    rewrite (bind_Ok (insert_row (IPostRevision r)) _ s (set_revisions (insert pk r) s) pk)
      by reflexivity.
    rewrite (send_post_save (IPostRevision r)).
    unfold apply_instance, call_apply. cbn [kw_created kw_raw kw_instance andb negb].
    unfold mbind, M_bind, modify, mret, M_ret. fold s0.
    change (instance_apply (IPostRevision r) 1 s0) with (PostRevision.apply r 1 s0).
    unfold PostRevision.apply. by rewrite (post_update_ok _ _ s0 post).
  - simpl. symmetry. by apply insert_as_alter.
  - reflexivity.
Qed.

(** The row of the post after [create_revision], whether the call returns
    or raises while the tag rows are updated. *)
Lemma create_revision_posts (generate : string → string) (self : Z)
    (content title tag_string : option string) (author date : option Z)
    (s : Store) (post : Post) :
  posts s !! self = Some post →
  posts (Post.create_revision generate self content title tag_string author date s).2
  = <[self :=
        set_tag_string (str_or tag_string (post_tag_string post))
          (edit_post (default (clock s) date) (default (post_author post) author)
             (generate (unix_line_endings (str_or content (post_content post))))
             (unix_line_endings (str_or content (post_content post)))
             (str_or title (post_title post))
             (add_revision_count 1 post))]> (posts s).
Proof.
  intros Hpost. unfold Post.create_revision.
  erewrite bind_Ok by (by apply get_row_Some).
  unfold gets at 1, mbind at 1, M_bind at 1.
  set (r := mkPostRevision _ _ _ _ _ _).
  destruct (save_new_revision r s post Hpost) as (pk & s1 & Hsave & Hposts1 & _).
  rewrite (bind_Ok _ _ _ _ _ Hsave).
  assert (H1 : posts s1 !! self = Some (add_revision_count 1 post))
    by (rewrite Hposts1; apply lookup_insert_eq).
  erewrite bind_Ok by (by apply get_row_Some).
  set (edited := edit_post _ _ _ _ _ _).
  set (s2 := set_posts (insert self edited) s1).
  rewrite (bind_Ok (save_post self edited) _ s1 s2 tt) by reflexivity.
  assert (Hp : posts (Post.set_tags self (str_or tag_string (post_tag_string post)) s2).2
               = <[self := set_tag_string (str_or tag_string (post_tag_string post)) edited]>
                   (posts s2)).
  { apply set_tags_posts. simpl. apply lookup_insert_eq. }
  unfold mbind, M_bind.
  destruct (Post.set_tags self _ s2) as [[[]|e] s3]; simpl in Hp.
  - unfold get_row. rewrite Hp, lookup_insert_eq. simpl.
    rewrite Hp, Hposts1. by rewrite !insert_insert_eq.
  - simpl. rewrite Hp, Hposts1. by rewrite !insert_insert_eq.
Qed.

(** ** Line endings *)

Lemma elem_of_string_app (c : ascii) (a b : string) :
  c ∈ list_ascii_of_string (a ++ b)
  ↔ c ∈ list_ascii_of_string a ∨ c ∈ list_ascii_of_string b.
Proof.
  induction a as [|x a IH]; simpl.
  - split; [auto|]. by intros [?%elem_of_nil|?].
  - rewrite !elem_of_cons, IH. tauto.
Qed.

(** One step of [splitlines]: a line boundary in front closes a line,
    any other character joins the line that follows. *)
Lemma splitlines_unfold (c : ascii) (s1 : string) :
  splitlines (String c s1) =
  match skip_line_boundary (String c s1) with
  | Some rest => EmptyString :: splitlines rest
  | None => push_char c (splitlines s1)
  end.
Proof.
  simpl. destruct (is_line_break_byte c); [reflexivity|].
  destruct (decide (c = "013"%char)).
  - destruct s1 as [|c1 s2]; [reflexivity|]. lazy beta iota.
    destruct (decide _); reflexivity.
  - destruct s1 as [|c1 s2]; [reflexivity|]. lazy beta iota.
    destruct (decide _); [reflexivity|].
    destruct s2 as [|c2 s3]; [reflexivity|]. lazy beta iota.
    destruct (decide _); reflexivity.
Qed.

Lemma skip_line_boundary_shorter (s rest : string) :
  skip_line_boundary s = Some rest → (String.length rest < String.length s)%nat.
Proof.
  destruct s as [|c [|c1 [|c2 s3]]]; simpl; intros H;
    repeat case_match; simplify_eq; simpl; lia.
Qed.

Lemma skip_line_boundary_CR (s1 : string) :
  skip_line_boundary (String CR s1) ≠ None.
Proof. destruct s1 as [|c1 s2]; simpl; [done|]. by case_decide. Qed.

(** No line holds a carriage return, hence neither does their join. *)
Lemma splitlines_no_CR_aux (n : nat) (s : string) :
  (String.length s ≤ n)%nat →
  Forall (λ l, CR ∉ list_ascii_of_string l) (splitlines s).
Proof.
  revert s. induction n as [|n IH]; intros [|c s] Hlen;
    try (simpl in *; first [done | lia]).
  rewrite splitlines_unfold.
  destruct (skip_line_boundary (String c s)) as [rest|] eqn:Hskip.
  - constructor; [simpl; apply not_elem_of_nil|].
    apply IH. apply skip_line_boundary_shorter in Hskip. simpl in *. lia.
  - assert (c ≠ CR) as Hc by (intros ->; by apply skip_line_boundary_CR in Hskip).
    assert (IHs : Forall (λ l, CR ∉ list_ascii_of_string l) (splitlines s))
      by (apply IH; simpl in Hlen; lia).
    destruct (splitlines s) as [|t ts]; simpl.
    + constructor; [|done]. simpl. by intros [?|?%elem_of_nil]%elem_of_cons.
    + apply Forall_cons in IHs as [Ht Hts]. constructor; [|done].
      simpl. intros [?|?]%elem_of_cons; [by subst|done].
Qed.

Lemma unix_line_endings_no_CR (content : string) :
  CR ∉ list_ascii_of_string (unix_line_endings content).
Proof.
  unfold unix_line_endings.
  pose proof (splitlines_no_CR_aux (String.length content) content (le_n _)) as H.
  induction H as [|l ls Hl Hls IH]; simpl; [apply not_elem_of_nil|].
  destruct ls as [|l' ls]; [done|].
  rewrite elem_of_string_app. intros [?|Hin]; [done|].
  simpl in Hin. apply elem_of_cons in Hin as [?|Hin]; [done|]. by apply IH.
Qed.

(** A text without line boundaries is one line, or none when empty. *)
Lemma splitlines_one_line (s : string) :
  line_boundary_free s = true →
  splitlines s = match s with EmptyString => [] | _ => [s] end.
Proof.
  induction s as [|c s IH]; [done|]. intros Hfree.
  rewrite splitlines_unfold.
  change (match skip_line_boundary (String c s) with
          | Some _ => false
          | None => line_boundary_free s
          end = true) in Hfree.
  destruct (skip_line_boundary (String c s)); [done|].
  rewrite (IH Hfree). by destruct s.
Qed.

Lemma unix_line_endings_one_line (s : string) :
  line_boundary_free s = true → unix_line_endings s = s.
Proof.
  intros Hfree. unfold unix_line_endings. rewrite splitlines_one_line by done.
  by destruct s.
Qed.


Lemma string_app_nil (s : string) : (EmptyString ++ s)%string = s.
Proof. reflexivity. Qed.

Lemma string_app_cons (c : ascii) (a s : string) :
  (String c a ++ s)%string = String c (a ++ s).
Proof. reflexivity. Qed.

Lemma line_boundaries_cases (t : string) :
  t ∈ line_boundaries →
  ∃ t0 t', t = String t0 t' ∧
    t0 ∈ ["010"; "011"; "012"; "013"; "028"; "029"; "030"; "194"; "226"]%char.
Proof.
  unfold line_boundaries. rewrite !elem_of_cons, elem_of_nil.
  intros Ht. destruct_or!; try done; subst; do 2 eexists; (split; [reflexivity|]);
    repeat first [apply list_elem_of_here | apply list_elem_of_further].
Qed.

(** A line boundary in front is skipped as a whole (a carriage return
    before a line feed is only the first half of one), and no line
    boundary starts inside a line that is followed by one. *)
Lemma skip_line_boundary_front (t rest : string) :
  t ∈ line_boundaries →
  (t = String CR EmptyString → ∀ rest', rest ≠ String "010" rest') →
  skip_line_boundary (t ++ rest)%string = Some rest.
Proof.
  unfold line_boundaries. rewrite !elem_of_cons, elem_of_nil.
  intros Ht Hrest. destruct_or!; subst; try done.
  rewrite string_app_cons, string_app_nil. simpl.
  destruct rest as [|c1 rest']; [done|].
  case_decide; [|done]. subst. by destruct (Hrest eq_refl rest').
Qed.

Lemma skip_line_boundary_inside (c : ascii) (a t rest : string) :
  skip_line_boundary (String c a) = None →
  t ∈ line_boundaries →
  skip_line_boundary (String c a ++ t ++ rest)%string = None.
Proof.
  intros Hnone (t0 & t' & -> & Ht0)%line_boundaries_cases.
  rewrite !elem_of_cons, elem_of_nil in Ht0.
  destruct a as [|c1 [|c2 a3]]; rewrite ?string_app_cons, ?string_app_nil; simpl in *.
  - destruct (is_line_break_byte c); [done|]. case_decide; [done|].
    rewrite decide_False by (intros [_ ->]; destruct_or!; discriminate).
    destruct (t' ++ rest)%string; [done|].
    apply decide_False. intros (_ & -> & _). destruct_or!; discriminate.
  - destruct (is_line_break_byte c); [done|].
    destruct (decide (c = "013"%char)); [by destruct (decide (c1 = "010"%char))|].
    destruct (decide (c = "194"%char ∧ c1 = "133"%char)); [done|].
    apply decide_False. intros (_ & _ & [->| ->]); destruct_or!; discriminate.
  - by repeat case_match.
Qed.

(** A first line without line boundaries, closed by a line boundary, is
    cut off as it is. *)
Lemma splitlines_line (a t rest : string) :
  line_boundary_free a = true →
  t ∈ line_boundaries →
  (t = String CR EmptyString → ∀ rest', rest ≠ String "010" rest') →
  splitlines (a ++ t ++ rest)%string = a :: splitlines rest.
Proof.
  intros Hfree Ht Hrest. induction a as [|c a IH].
  - pose proof (skip_line_boundary_front t rest Ht Hrest) as Hskip.
    apply line_boundaries_cases in Ht as (t0 & t' & -> & _).
    rewrite string_app_nil, string_app_cons in *.
    rewrite splitlines_unfold. by rewrite Hskip.
  - change (match skip_line_boundary (String c a) with
            | Some _ => false
            | None => line_boundary_free a
            end = true) in Hfree.
    destruct (skip_line_boundary (String c a)) eqn:Hskip; [done|].
    pose proof (skip_line_boundary_inside c a t rest Hskip Ht) as Hin.
    rewrite string_app_cons in Hin |- *.
    rewrite splitlines_unfold, Hin, (IH Hfree). done.
Qed.

Lemma splitlines_nil (s : string) : splitlines s = [] → s = EmptyString.
Proof.
  destruct s as [|c s]; [done|]. rewrite splitlines_unfold.
  destruct (skip_line_boundary _); [done|]. by destruct (splitlines s).
Qed.

Lemma unix_line_endings_line (a t rest : string) :
  line_boundary_free a = true →
  t ∈ line_boundaries →
  (t = String CR EmptyString → ∀ rest', rest ≠ String "010" rest') →
  unix_line_endings (a ++ t ++ rest)%string =
  match rest with
  | EmptyString => a
  | _ => (a ++ LF ++ unix_line_endings rest)%string
  end.
Proof.
  intros Hfree Ht Hrest. unfold unix_line_endings.
  rewrite splitlines_line by done. simpl.
  destruct rest as [|c rest]; [done|].
  destruct (splitlines (String c rest)) eqn:Hl; [|done].
  by apply splitlines_nil in Hl.
Qed.

Lemma line_boundary_free_not_LF (b rest' : string) :
  line_boundary_free b = true → b ≠ String "010" rest'.
Proof. intros Hfree ->. done. Qed.

Lemma unix_line_endings_two_lines (a t b : string) :
  line_boundary_free a = true →
  line_boundary_free b = true →
  t ∈ line_boundaries →
  unix_line_endings (a ++ t ++ b)%string =
  match b with
  | EmptyString => a
  | _ => (a ++ LF ++ b)%string
  end.
Proof.
  intros Ha Hb Ht. rewrite unix_line_endings_line; [|done..|].
  - by rewrite (unix_line_endings_one_line b).
  - intros _ rest'. by apply line_boundary_free_not_LF.
Qed.

Lemma string_app_empty_r (s : string) : (s ++ EmptyString)%string = s.
Proof. induction s as [|c s IH]; [done|]. by rewrite string_app_cons, IH. Qed.

Lemma unix_line_endings_final_boundary (a t : string) :
  line_boundary_free a = true →
  t ∈ line_boundaries →
  unix_line_endings (a ++ t)%string = a.
Proof.
  intros Ha Ht. rewrite <- (string_app_empty_r t).
  by rewrite (unix_line_endings_two_lines a t EmptyString).
Qed.

Lemma str_or_omitted_or_empty (x : option string) (y : string) :
  omitted_or_empty x → str_or x y = y.
Proof. by intros [->| ->]. Qed.

(** C9, counterexample: post 10 holds one line feed, a content that is not
    empty. [create_revision(content=EmptyString)] returns and leaves the
    post with the empty content: the content was not kept. The same
    happens with the argument omitted. *)
Lemma create_revision_empty_content_not_kept :
  let r := Post.create_revision (λ x, x) 10 (Some EmptyString) None None None None
             blank_line_db in
  post_content <$> posts blank_line_db !! 10 = Some LF ∧
  LF ≠ EmptyString ∧
  r.1 = Ok tt ∧
  post_content <$> posts r.2 !! 10 = Some EmptyString.
Proof. cbv zeta. repeat split; try (vm_compute; reflexivity). discriminate. Qed.

(** C9 as the code has it: [create_revision] treats an argument that is
    the empty string exactly as an omitted one, for the content, the
    title and the tag string alike. With such an argument the title and
    the tag string of the post are kept as they are. The content of the
    post becomes its current content with the line endings normalised, as
    in every call: it is the current content itself when that holds no
    line boundary, it never holds a carriage return, and a current
    content that is one line followed by a line boundary loses the
    boundary. *)
Theorem create_revision_empty_argument_is_omitted
    (generate : string → string) (self : Z)
    (content title tag_string : option string) (author date : option Z)
    (s : Store) (post : Post) :
  posts s !! self = Some post →
  Post.create_revision generate self (Some EmptyString) title tag_string author date s
  = Post.create_revision generate self None title tag_string author date s ∧
  Post.create_revision generate self content (Some EmptyString) tag_string author date s
  = Post.create_revision generate self content None tag_string author date s ∧
  Post.create_revision generate self content title (Some EmptyString) author date s
  = Post.create_revision generate self content title None author date s ∧
  ∃ post',
    posts (Post.create_revision generate self content title tag_string author date s).2
      !! self = Some post' ∧
    (omitted_or_empty content →
       post_content post' = unix_line_endings (post_content post) ∧
       (CR ∉ list_ascii_of_string (post_content post')) ∧
       (line_boundary_free (post_content post) = true →
          post_content post' = post_content post) ∧
       (∀ line t, line_boundary_free line = true → t ∈ line_boundaries →
          post_content post = (line ++ t)%string → post_content post' = line)) ∧
    (omitted_or_empty title → post_title post' = post_title post) ∧
    (omitted_or_empty tag_string → post_tag_string post' = post_tag_string post).
Proof.
  intros Hpost. split; [reflexivity|]. split; [reflexivity|]. split; [reflexivity|].
  eexists. split.
  - rewrite (create_revision_posts _ _ _ _ _ _ _ _ _ Hpost). apply lookup_insert_eq.
  - simpl. split; [|split]; intros H; rewrite (str_or_omitted_or_empty _ _ H); [|done..].
    split; [done|]. split; [apply unix_line_endings_no_CR|]. split.
    + apply unix_line_endings_one_line.
    + intros line t Hline Ht ->. by apply unix_line_endings_final_boundary.
Qed.

(** C9, witness: post 10 of the example database, whose content "Q" holds
    no line boundary, with all three arguments empty. *)
Lemma create_revision_empty_argument_is_omitted_witness :
  let cr := Post.create_revision (λ x, x) 10 in
  let empty := Some EmptyString in
  cr empty empty empty None None example_db = cr None empty empty None None example_db ∧
  cr empty empty empty None None example_db = cr empty None empty None None example_db ∧
  cr empty empty empty None None example_db = cr empty empty None None None example_db ∧
  ∃ post',
    posts (cr empty empty empty None None example_db).2 !! 10 = Some post' ∧
    (omitted_or_empty empty →
       post_content post' = unix_line_endings (post_content (new_post 1 "Q")) ∧
       (CR ∉ list_ascii_of_string (post_content post')) ∧
       (line_boundary_free (post_content (new_post 1 "Q")) = true →
          post_content post' = post_content (new_post 1 "Q")) ∧
       (∀ line t, line_boundary_free line = true → t ∈ line_boundaries →
          post_content (new_post 1 "Q") = (line ++ t)%string →
          post_content post' = line)) ∧
    (omitted_or_empty empty → post_title post' = post_title (new_post 1 "Q")) ∧
    (omitted_or_empty empty → post_tag_string post' = post_tag_string (new_post 1 "Q")).
Proof.
  apply (create_revision_empty_argument_is_omitted (λ x, x) 10
           (Some EmptyString) (Some EmptyString) (Some EmptyString) None None
           example_db (new_post 1 "Q")).
  reflexivity.
Defined.

(** * Further properties of the model layer *)

(** ** Observations a computation keeps *)

Lemma keeps_ret {A B} (f : Store → B) (a : A) : keeps f (mret a : M A).
Proof. by intros s. Qed.

Lemma keeps_raise {A B} (f : Store → B) (e : exn) : keeps f (raise e : M A).
Proof. by intros s. Qed.

Lemma keeps_gets {A B} (f : Store → B) (g : Store → A) : keeps f (gets g).
Proof. by intros s. Qed.

Lemma keeps_modify {B} (f : Store → B) (g : Store → Store) :
  (∀ s, f (g s) = f s) → keeps f (modify g).
Proof. intros H s. apply H. Qed.

Lemma keeps_bind {A B C} (f : Store → C) (m : M A) (k : A → M B) :
  keeps f m → (∀ a, keeps f (k a)) → keeps f (m ≫= k).
Proof.
  intros Hm Hk s. unfold mbind, M_bind. specialize (Hm s).
  destruct (m s) as [[a|e] s1]; simpl in *; [|done].
  by rewrite Hk.
Qed.

Lemma keeps_for_each {A B} (f : Store → B) (l : list A) (body : A → M unit) :
  (∀ x, keeps f (body x)) → keeps f (for_each l body).
Proof.
  intros Hb. induction l as [|x l IH]; simpl.
  - apply keeps_ret.
  - apply keeps_bind; [apply Hb|done].
Qed.

Lemma keeps_get_row {A B} (f : Store → B) (table : Store → gmap Z A) (k : Z) :
  keeps f (get_row table k).
Proof. intros s. unfold get_row. by destruct (table s !! k). Qed.

Lemma keeps_objects_get {A B} (f : Store → B) (table : Store → gmap Z A)
    (P : A → Prop) `{!∀ x, Decision (P x)} :
  keeps f (objects_get table P).
Proof.
  intros s. unfold objects_get. by destruct (map_to_list _) as [|kv [|kv' l]].
Qed.

Lemma keeps_try_except {A B} (f : Store → B) (body handler : M A) (e : exn) :
  keeps f body → keeps f handler → keeps f (try_except body e handler).
Proof.
  intros Hb Hh s. unfold try_except. specialize (Hb s).
  destruct (body s) as [[a|e'] s1]; simpl in *; [done|].
  case_decide; [|done]. by rewrite Hh.
Qed.

(** The [apply] methods write profiles, posts, questions, answers and
    badges only. *)
Ltac keeps_steps :=
  repeat first
    [ apply keeps_ret
    | apply keeps_get_row
    | apply keeps_modify; intros ?; reflexivity
    | apply keeps_bind; [|intros ?]
    | case_decide ].

Lemma instance_apply_keeps_applied (i : Instance) (dir : Z) :
  keeps applied (instance_apply i dir).
Proof.
  destruct i; simpl;
    unfold Vote.apply, Award.apply, Comment.apply, Answer.apply, PostRevision.apply,
      get_profile, save_profile, save_post, save_question, save_answer, save_badge;
    keeps_steps.
Qed.

(** ** Saving and deleting, for all five classes *)

(** X1: deleting a record of any class with an [apply] method, on any
    database, raises [TypeError]: the receiver connected to [post_delete]
    is called without [created] and [raw]. No [apply] is run and no
    counter moves. *)
Theorem delete_raises_and_applies_nothing (pk : Z) (i : Instance) (s : Store) :
  (delete_instance pk i s).1 = Raise TypeError ∧
  applied (delete_instance pk i s).2 = applied s ∧
  counters (delete_instance pk i s).2 = counters s.
Proof.
  destruct (delete_instance_raises pk i s) as (s' & -> & Ha & Hc). by simpl.
Qed.

(** X2: [apply] is run on creation only. Saving a record that already
    has a row, and saving a new record raw (as a fixture is loaded), run
    no [apply] and move no counter, whatever the record and the
    database. *)
Theorem update_and_raw_save_apply_nothing
    (pk : Z) (i : Instance) (raw : bool) (s : Store) :
  (save_existing pk i raw s).1 = Ok tt ∧
  applied (save_existing pk i raw s).2 = applied s ∧
  counters (save_existing pk i raw s).2 = counters s ∧
  applied (save_new i true s).2 = applied s ∧
  counters (save_new i true s).2 = counters s.
Proof.
  destruct (save_existing_does_not_apply pk i raw s) as (s' & -> & Ha & Hc).
  destruct (save_new_raw_does_not_apply i s) as [Ha' Hc']. by simpl.
Qed.

(** X3: when saving a new record (not raw) returns, the trace of [apply]
    calls has grown by exactly one call, [apply(+1)] on the record as the
    [pre_save] hook left it. *)
Theorem save_new_applies_exactly_once (i : Instance) (s s' : Store) (pk : Z) :
  save_new i false s = (Ok pk, s') →
  ∃ i', pre_save i s = (Ok i', s) ∧ applied s' = applied s ++ [(i', 1)].
Proof.
  intros Hsave. destruct (pre_save_Ok i s) as (i' & Hp & _).
  exists i'. split; [done|].
  destruct (insert_row i' s) as [[pk0|e] s0] eqn:Hins.
  - destruct (save_new_applies_once i i' pk0 s s0 Hp Hins) as (Ha & _ & Hrun).
    rewrite Hrun in Hsave.
    pose proof (keeps_bind applied (instance_apply i' 1) (λ _, mret pk0)
                  (instance_apply_keeps_applied i' 1) (λ _, keeps_ret applied pk0)
                  (set_applied (λ l, l ++ [(i', 1)]) s0)) as Hk.
    rewrite Hsave in Hk. simpl in Hk. by rewrite Hk, Ha.
  - unfold save_new in Hsave.
    rewrite (bind_Ok _ _ _ _ _ Hp), (bind_Raise _ _ _ _ _ Hins) in Hsave. done.
Qed.

Lemma save_new_applies_exactly_once_witness :
  ∃ i', pre_save (IComment (mkComment 10 11)) example_db = (Ok i', example_db) ∧
        applied (save_new (IComment (mkComment 10 11)) false example_db).2
        = applied example_db ++ [(i', 1)].
Proof.
  apply (save_new_applies_exactly_once (IComment (mkComment 10 11)) example_db
           (save_new (IComment (mkComment 10 11)) false example_db).2 0).
  vm_compute. reflexivity.
Defined.

(** ** Votes *)

(** X4: a vote whose type is none of Upvote, Downvote and Accept has score
    and reputations 0 (the default of [dict.get]), and [apply] on it, in
    either direction, returns without reading or writing anything. *)
Theorem vote_of_unknown_type_has_no_effect (v : Vote) (dir : Z) (s : Store) :
  vote_type v ≠ VOTE_UP → vote_type v ≠ VOTE_DOWN → vote_type v ≠ VOTE_ACCEPT →
  Vote.score v = 0 ∧ Vote.reputation v = 0 ∧ Vote.voter_reputation v = 0 ∧
  Vote.apply v dir s = (Ok tt, s).
Proof.
  intros H1 H2 H3. pose proof (dicts_scoring_table v) as T.
  unfold scoring_table in T. rewrite !decide_False in T by done.
  injection T as Hs Hr Hv. repeat split; try done.
  unfold Vote.apply. rewrite Hs, Hr, Hv. rewrite (decide_False (P := _ = VOTE_ACCEPT)) by done.
  reflexivity.
Qed.

Lemma vote_of_unknown_type_has_no_effect_witness :
  Vote.score (mkVote 1 11 7) = 0 ∧ Vote.reputation (mkVote 1 11 7) = 0 ∧
  Vote.voter_reputation (mkVote 1 11 7) = 0 ∧
  Vote.apply (mkVote 1 11 7) (-1) example_db = (Ok tt, example_db).
Proof.
  apply (vote_of_unknown_type_has_no_effect (mkVote 1 11 7) (-1) example_db);
    simpl; unfold VOTE_UP, VOTE_DOWN, VOTE_ACCEPT; lia.
Defined.

Lemma get_vote_none (self id type : Z) (s : Store) :
  (∀ k v, votes s !! k = Some v → ¬ vote_matches self id type v) →
  Post.get_vote self (User id) type s = (Ok None, s).
Proof.
  intros Hnone. unfold Post.get_vote, try_except.
  erewrite bind_Raise; last first.
  { apply (objects_get_none votes); intros k v Hk. by apply Hnone in Hk. }
  by rewrite decide_True.
Qed.

(** X8: when there is nothing to remove, [remove_vote] returns False and
    leaves the database as it is: for the anonymous user always, and for
    a registered user who has no vote of that type on the post. *)
Theorem remove_vote_without_vote (self type : Z) (s : Store) :
  Post.remove_vote self AnonymousUser type s = (Ok false, s) ∧
  ∀ id, (∀ k v, votes s !! k = Some v → ¬ vote_matches self id type v) →
        Post.remove_vote self (User id) type s = (Ok false, s).
Proof.
  split; [reflexivity|]. intros id Hnone. unfold Post.remove_vote.
  by rewrite (bind_Ok _ _ _ _ _ (get_vote_none self id type s Hnone)).
Qed.

Lemma remove_vote_without_vote_witness :
  Post.remove_vote 11 (User 1) VOTE_UP example_db = (Ok false, example_db).
Proof.
  apply (remove_vote_without_vote 11 VOTE_UP example_db).
  intros k v H. simpl in H. by rewrite lookup_empty in H.
Defined.

(** ** Revisions *)

(** X9: [current_revision] raises [IndexError] for a post that has no
    revision; for a post with a revision it returns, without changing the
    database, a revision of that post whose date is the least among the
    dates of the post's revisions. *)
Theorem current_revision_least_date_or_IndexError (self : Z) (s : Store) :
  ((∀ k r, revisions s !! k = Some r → revision_post r ≠ self) →
   Post.current_revision self s = (Raise IndexError, s)) ∧
  (∀ k0 r0, revisions s !! k0 = Some r0 → revision_post r0 = self →
     ∃ pk r,
       Post.current_revision self s = (Ok (pk, r), s) ∧
       revisions s !! pk = Some r ∧ revision_post r = self ∧
       ∀ pk' r', revisions s !! pk' = Some r' → revision_post r' = self →
                 revision_date r ≤ revision_date r').
Proof.
  split.
  - intros Hnone. unfold Post.current_revision, gets, mbind, M_bind.
    assert (E : filter (λ kv : Z * PostRevision, revision_post kv.2 = self) (revisions s) = ∅).
    { apply map_empty_filter. intros k r Hk. by apply Hnone in Hk. }
    by rewrite E, map_to_list_empty.
  - intros k0 r0 H0 Hself.
    destruct (current_revision_returns self s k0 r0 H0 Hself) as ([pk r] & Hrun).
    exists pk, r. split; [done|]. by apply (current_revision_is_oldest self s s).
Qed.

Lemma current_revision_least_date_or_IndexError_witness :
  Post.current_revision 10 example_db = (Raise IndexError, example_db) ∧
  ∃ pk r,
    Post.current_revision 10 two_edits = (Ok (pk, r), two_edits) ∧
    revisions two_edits !! pk = Some r ∧ revision_post r = 10 ∧
    ∀ pk' r', revisions two_edits !! pk' = Some r' → revision_post r' = 10 →
              revision_date r ≤ revision_date r'.
Proof.
  split.
  - apply (current_revision_least_date_or_IndexError 10 example_db).
    intros k r H. simpl in H. by rewrite lookup_empty in H.
  - apply (proj2 (current_revision_least_date_or_IndexError 10 two_edits) 1
             (mkPostRevision 10 "second" EmptyString EmptyString 1 2)).
    + vm_compute. reflexivity.
    + reflexivity.
Defined.

(** The database after [add_vote] by a registered user. *)
Lemma add_vote_ok (self id type : Z) (s : Store) :
  vote_refs_ok (mkVote id self type) s →
  Post.add_vote self (User id) type s
  = (Ok (mkVote id self type),
     Vote_effect (mkVote id self type) 1
       (set_applied (λ l, l ++ [(IVote (mkVote id self type), 1)])
          (set_votes (insert (fresh (dom (votes s))) (mkVote id self type)) s))).
Proof.
  intros Hok. set (v := mkVote id self type) in *.
  set (pk := fresh (dom (votes s))).
  set (s1 := set_applied (λ l, l ++ [(IVote v, 1)]) (set_votes (insert pk v) s)).
  assert (Happ : Vote.apply v 1 s1 = (Ok tt, Vote_effect v 1 s1))
    by (by apply Vote_apply_ok).
  unfold Post.add_vote, Vote_init.
  rewrite (bind_Ok (mret v) _ s s v) by reflexivity.
  rewrite (bind_Ok (save_new (IVote v) false) _ s (Vote_effect v 1 s1) pk); [done|].
  unfold save_new.
  rewrite (bind_Ok (pre_save (IVote v)) _ s s (IVote v)) by reflexivity.
  rewrite (bind_Ok (insert_row (IVote v)) _ s (set_votes (insert pk v) s) pk)
    by reflexivity.
  rewrite (send_post_save (IVote v)).
  unfold apply_instance, call_apply. cbn [kw_created kw_raw kw_instance andb negb].
  unfold mbind, M_bind, modify, mret, M_ret. fold s1.
  change (instance_apply (IVote v) 1 s1) with (Vote.apply v 1 s1). by rewrite Happ.
Qed.

Lemma instance_apply_keeps_votes (i : Instance) (dir : Z) :
  keeps votes (instance_apply i dir).
Proof.
  destruct i; simpl;
    unfold Vote.apply, Award.apply, Comment.apply, Answer.apply, PostRevision.apply,
      get_profile, save_profile, save_post, save_question, save_answer, save_badge;
    keeps_steps.
Qed.

(** [add_vote] by a registered user, on any database: the vote is
    inserted, [apply(+1)] is recorded and run, and the vote is returned
    when [apply] returns. *)
Lemma add_vote_run (self id type : Z) (s : Store) :
  Post.add_vote self (User id) type s
  = (match (Vote.apply (mkVote id self type) 1
              (set_applied (λ l, l ++ [(IVote (mkVote id self type), 1)])
                 (set_votes (insert (fresh (dom (votes s))) (mkVote id self type)) s))).1
     with
     | Ok _ => Ok (mkVote id self type)
     | Raise e => Raise e
     end,
     (Vote.apply (mkVote id self type) 1
        (set_applied (λ l, l ++ [(IVote (mkVote id self type), 1)])
           (set_votes (insert (fresh (dom (votes s))) (mkVote id self type)) s))).2).
Proof.
  set (v := mkVote id self type).
  set (pk := fresh (dom (votes s))).
  set (s1 := set_applied (λ l, l ++ [(IVote v, 1)]) (set_votes (insert pk v) s)).
  unfold Post.add_vote, Vote_init.
  rewrite (bind_Ok (mret v) _ s s v) by reflexivity.
  assert (Hsave : save_new (IVote v) false s
                  = (match (Vote.apply v 1 s1).1 with
                     | Ok _ => Ok pk
                     | Raise e => Raise e
                     end, (Vote.apply v 1 s1).2)).
  { unfold save_new.
    rewrite (bind_Ok (pre_save (IVote v)) _ s s (IVote v)) by reflexivity.
    rewrite (bind_Ok (insert_row (IVote v)) _ s (set_votes (insert pk v) s) pk)
      by reflexivity.
    rewrite (send_post_save (IVote v)).
    unfold apply_instance, call_apply. cbn [kw_created kw_raw kw_instance andb negb].
    unfold mbind, M_bind, modify, mret, M_ret. fold s1.
    change (instance_apply (IVote v) 1 s1) with (Vote.apply v 1 s1).
    by destruct (Vote.apply v 1 s1) as [[[]|e] s2]. }
  unfold mbind, M_bind. rewrite Hsave.
  by destruct (Vote.apply v 1 s1) as [[[]|e] s2].
Qed.

(** C8: [add_vote] fails for the anonymous user and writes nothing (the
    failure is raised by the constructor of [Vote], whose author must be a
    registered user). For every registered user, on every database, it
    inserts one vote row of that user, post and type under a new key and
    runs [apply(+1)] on that vote exactly once, on the database that
    holds the new row; the outcome and the database of [add_vote] are
    those of that [apply], and the vote is returned when [apply] returns.
    When the rows the vote refers to exist, [apply] returns and the
    counters move by the effect of the vote. *)
Theorem add_vote_creates_and_applies (self type : Z) (s : Store) :
  Post.add_vote self AnonymousUser type s = (Raise ValueError, s) ∧
  ∀ id,
    let v := mkVote id self type in
    let pk := fresh (dom (votes s)) in
    let s1 := set_applied (λ l, l ++ [(IVote v, 1)]) (set_votes (insert pk v) s) in
    let r := Post.add_vote self (User id) type s in
    votes s !! pk = None ∧
    votes r.2 = <[pk := v]> (votes s) ∧
    applied r.2 = applied s ++ [(IVote v, 1)] ∧
    r.2 = (Vote.apply v 1 s1).2 ∧
    r.1 = match (Vote.apply v 1 s1).1 with
          | Ok _ => Ok v
          | Raise e => Raise e
          end ∧
    (vote_refs_ok v s → r.1 = Ok v ∧ counters r.2 = counters (Vote_effect v 1 s)).
Proof.
  split; [reflexivity|]. intros id v pk s1 r.
  assert (Hr : r = (match (Vote.apply v 1 s1).1 with
                    | Ok _ => Ok v
                    | Raise e => Raise e
                    end, (Vote.apply v 1 s1).2)) by apply add_vote_run.
  split; [apply fresh_key_None|].
  split; [rewrite Hr; exact (instance_apply_keeps_votes (IVote v) 1 s1)|].
  split; [rewrite Hr; exact (instance_apply_keeps_applied (IVote v) 1 s1)|].
  split; [by rewrite Hr|]. split; [by rewrite Hr|].
  intros Hok. subst r. rewrite (add_vote_ok self id type s Hok). simpl.
  split; [done|]. by rewrite !counters_Vote_effect.
Qed.

(** C8, witness: user 1 casts an Upvote on post 11 of the example
    database, where the rows the vote refers to exist. *)
Lemma add_vote_creates_and_applies_witness :
  let v := mkVote 1 11 VOTE_UP in
  let r := Post.add_vote 11 (User 1) VOTE_UP example_db in
  Post.add_vote 11 AnonymousUser VOTE_UP example_db = (Raise ValueError, example_db) ∧
  votes r.2 = <[fresh (dom (votes example_db)) := v]> (votes example_db) ∧
  applied r.2 = applied example_db ++ [(IVote v, 1)] ∧
  r.1 = Ok v ∧
  counters r.2 = counters (Vote_effect v 1 example_db).
Proof.
  destruct (add_vote_creates_and_applies 11 VOTE_UP example_db) as [Hanon Hreg].
  destruct (Hreg 1) as (_ & Hvotes & Happlied & _ & _ & Hok).
  destruct Hok as [Hres Hcounters]; [apply example_vote_refs_ok; repeat constructor|].
  done.
Defined.

Lemma votes_Vote_effect (v : Vote) (dir : Z) (s : Store) :
  votes (Vote_effect v dir s) = votes s.
Proof. unfold Vote_effect. by case_decide. Qed.

Lemma posts_Vote_effect (v : Vote) (dir : Z) (s : Store) :
  posts (Vote_effect v dir s)
  = alter (add_post_score (dir * Vote.score v)) (vote_post v) (posts s).
Proof. unfold Vote_effect. by case_decide. Qed.

Lemma votes_score_insert (s : Store) (pk : Z) (v : Vote) (p : Z) (f : Store → Store) :
  votes s !! pk = None →
  votes (f s) = <[pk := v]> (votes s) →
  votes_score (f s) p
  = (if decide (vote_post v = p) then Vote.score v else 0) + votes_score s p.
Proof.
  intros Hfresh Hv. unfold votes_score. rewrite Hv.
  rewrite map_fold_insert_L; [done| |done].
  intros. lia.
Qed.

(** X5: [add_vote] keeps the scores in step with the votes: if the score
    of every post is the sum of [score()] over the votes on it, the same
    holds after a registered user has cast a vote. *)
Theorem add_vote_keeps_scores_in_step (self id type : Z) (s : Store) :
  scores_in_step s →
  vote_refs_ok (mkVote id self type) s →
  ∃ s', Post.add_vote self (User id) type s = (Ok (mkVote id self type), s') ∧
        scores_in_step s'.
Proof.
  intros Hstep Hok. eexists. split; [by apply add_vote_ok|].
  set (v := mkVote id self type). set (pk := fresh (dom (votes s))).
  intros p post. rewrite posts_Vote_effect. simpl.
  rewrite (votes_score_insert s pk v p (λ s0, Vote_effect v 1 _));
    [|apply fresh_key_None|by rewrite votes_Vote_effect].
  rewrite lookup_alter. simpl.
  destruct (decide (self = p)) as [->|Hne].
  - destruct (posts s !! p) as [post0|] eqn:E; [|done]. simpl. intros [= <-].
    simpl. rewrite (Hstep _ _ E). lia.
  - intros E. rewrite (Hstep _ _ E). lia.
Qed.

Lemma example_db_scores_in_step : scores_in_step example_db.
Proof.
  intros p post H. unfold votes_score. simpl. rewrite map_fold_empty.
  simpl in H. apply lookup_insert_Some in H as [[<- <-]|[_ H]]; [done|].
  apply lookup_insert_Some in H as [[<- <-]|[_ H]]; [done|].
  apply lookup_singleton_Some in H as [<- <-]. done.
Qed.

Lemma add_vote_keeps_scores_in_step_witness :
  ∃ s', Post.add_vote 11 (User 1) VOTE_DOWN example_db = (Ok (mkVote 1 11 VOTE_DOWN), s') ∧
        scores_in_step s'.
Proof.
  apply (add_vote_keeps_scores_in_step 11 1 VOTE_DOWN example_db).
  - apply example_db_scores_in_step.
  - apply example_vote_refs_ok; repeat constructor.
Defined.

Lemma objects_get_multiple {A} (table : Store → gmap Z A) (P : A → Prop)
    `{!∀ x, Decision (P x)} (s : Store) (k1 k2 : Z) (x1 x2 : A) :
  table s !! k1 = Some x1 → table s !! k2 = Some x2 → k1 ≠ k2 → P x1 → P x2 →
  objects_get table P s = (Raise MultipleObjectsReturned, s).
Proof.
  intros H1 H2 Hne P1 P2. unfold objects_get.
  set (l := map_to_list _).
  assert (I1 : (k1, x1) ∈ l)
    by (subst l; by rewrite elem_of_map_to_list, map_lookup_filter_Some).
  assert (I2 : (k2, x2) ∈ l)
    by (subst l; by rewrite elem_of_map_to_list, map_lookup_filter_Some).
  destruct l as [|a [|b l]]; [by apply elem_of_nil in I1| |done].
  apply list_elem_of_singleton in I1, I2. congruence.
Qed.

Lemma get_vote_unique (self id type : Z) (s : Store) (k : Z) (v : Vote) :
  votes s !! k = Some v → vote_matches self id type v →
  (∀ k' v', votes s !! k' = Some v' → vote_matches self id type v' → k' = k) →
  Post.get_vote self (User id) type s = (Ok (Some (k, v)), s).
Proof.
  intros Hk Hm Hu. unfold Post.get_vote, try_except.
  erewrite bind_Ok; [reflexivity|].
  by apply (objects_get_unique votes _ s k v).
Qed.

(** X6: a vote cast through [add_vote] is the one [get_vote] returns: when
    the user had no vote of that type on the post, [get_vote] for the
    same user, post and type finds the new row right after [add_vote]. *)
Theorem get_vote_finds_the_vote_cast (self id type : Z) (s : Store) :
  vote_refs_ok (mkVote id self type) s →
  (∀ k v, votes s !! k = Some v → ¬ vote_matches self id type v) →
  ∃ pk s',
    Post.add_vote self (User id) type s = (Ok (mkVote id self type), s') ∧
    votes s !! pk = None ∧
    Post.get_vote self (User id) type s' = (Ok (Some (pk, mkVote id self type)), s').
Proof.
  intros Hok Hnone. exists (fresh (dom (votes s))). eexists.
  split; [by apply add_vote_ok|]. split; [apply fresh_key_None|].
  apply get_vote_unique.
  - rewrite votes_Vote_effect. simpl. apply lookup_insert_eq.
  - done.
  - intros k' v'. rewrite votes_Vote_effect. simpl.
    intros [[<- <-]|[_ H]]%lookup_insert_Some Hm; [done|].
    by destruct (Hnone _ _ H).
Qed.

Lemma get_vote_finds_the_vote_cast_witness :
  ∃ pk s',
    Post.add_vote 11 (User 1) VOTE_UP example_db = (Ok (mkVote 1 11 VOTE_UP), s') ∧
    votes example_db !! pk = None ∧
    Post.get_vote 11 (User 1) VOTE_UP s' = (Ok (Some (pk, mkVote 1 11 VOTE_UP)), s').
Proof.
  apply (get_vote_finds_the_vote_cast 11 1 VOTE_UP example_db).
  - apply example_vote_refs_ok; repeat constructor.
  - intros k v H. simpl in H. by rewrite lookup_empty in H.
Defined.

(** X7: [add_vote] does not stop a user from casting the same vote twice:
    the second call returns as the first did and inserts a second row.
    From then on [get_vote] for that user, post and type raises
    [MultipleObjectsReturned] (only [DoesNotExist] is caught), and so does
    [remove_vote]. *)
Theorem second_same_vote_breaks_get_vote (self id type : Z) (s : Store) :
  vote_refs_ok (mkVote id self type) s →
  let v := mkVote id self type in
  let r1 := Post.add_vote self (User id) type s in
  let r2 := Post.add_vote self (User id) type r1.2 in
  r1.1 = Ok v ∧ r2.1 = Ok v ∧
  Post.get_vote self (User id) type r2.2 = (Raise MultipleObjectsReturned, r2.2) ∧
  Post.remove_vote self (User id) type r2.2 = (Raise MultipleObjectsReturned, r2.2).
Proof.
  intros Hok v r1 r2.
  assert (E1 : r1 = (Ok v, r1.2)) by (subst r1; by rewrite (add_vote_ok _ _ _ _ Hok)).
  assert (Hok1 : vote_refs_ok v r1.2).
  { subst r1. rewrite (add_vote_ok _ _ _ _ Hok). simpl. by apply vote_refs_ok_effect. }
  assert (E2 : r2 = (Ok v, r2.2)) by (subst r2; by rewrite (add_vote_ok _ _ _ _ Hok1)).
  assert (Hget : Post.get_vote self (User id) type r2.2
                 = (Raise MultipleObjectsReturned, r2.2)).
  { set (pk1 := fresh (dom (votes s))). set (pk2 := fresh (dom (votes r1.2))).
    assert (V1 : votes r1.2 = <[pk1 := v]> (votes s)).
    { subst r1. rewrite (add_vote_ok _ _ _ _ Hok). simpl. by rewrite votes_Vote_effect. }
    assert (V2 : votes r2.2 = <[pk2 := v]> (votes r1.2)).
    { subst r2. rewrite (add_vote_ok _ _ _ _ Hok1). simpl. by rewrite votes_Vote_effect. }
    assert (Hne : pk1 ≠ pk2).
    { intros Heq. pose proof (fresh_key_None (votes r1.2)) as Hf. fold pk2 in Hf.
      rewrite <- Heq, V1, lookup_insert_eq in Hf. done. }
    unfold Post.get_vote, try_except.
    erewrite bind_Raise; last first.
    { apply (objects_get_multiple votes _ _ pk1 pk2 v v); try done.
      - rewrite V2, lookup_insert_ne, V1 by done. apply lookup_insert_eq.
      - rewrite V2. apply lookup_insert_eq. }
    by rewrite decide_False. }
  split; [by rewrite E1|]. split; [by rewrite E2|]. split; [done|].
  unfold Post.remove_vote. by rewrite (bind_Raise _ _ _ _ _ Hget).
Qed.

Lemma second_same_vote_breaks_get_vote_witness :
  let v := mkVote 1 11 VOTE_UP in
  let r1 := Post.add_vote 11 (User 1) VOTE_UP example_db in
  let r2 := Post.add_vote 11 (User 1) VOTE_UP r1.2 in
  r1.1 = Ok v ∧ r2.1 = Ok v ∧
  Post.get_vote 11 (User 1) VOTE_UP r2.2 = (Raise MultipleObjectsReturned, r2.2) ∧
  Post.remove_vote 11 (User 1) VOTE_UP r2.2 = (Raise MultipleObjectsReturned, r2.2).
Proof.
  apply (second_same_vote_breaks_get_vote 11 1 VOTE_UP example_db).
  apply example_vote_refs_ok; repeat constructor.
Defined.

(** ** What [set_tags] leaves alone *)

Section TagFrame.

Context {B : Type} (f : Store → B) (self : Z).
Hypothesis f_tag_rows : ∀ g s, f (set_tag_rows g s) = f s.
Hypothesis f_tag_set : ∀ X s, f (set_post_tag_set (insert self X) s) = f s.

Lemma keeps_tags_changed (p : Z) (action : string) (pk_set : gset Z) :
  keeps f (tags_changed p action pk_set).
Proof.
  unfold tags_changed.
  repeat (apply keeps_bind; [|intros _]); case_decide; try apply keeps_ret.
  - apply keeps_for_each. intros pk.
    apply keeps_bind; [apply keeps_get_row|]. intros t s. apply f_tag_rows.
  - apply keeps_for_each. intros pk.
    apply keeps_bind; [apply keeps_get_row|]. intros t s. apply f_tag_rows.
  - apply keeps_bind; [apply keeps_gets|]. intros held.
    apply keeps_for_each. intros pk s. apply f_tag_rows.
Qed.

Lemma keeps_tag_set_clear : keeps f (tag_set_clear self).
Proof.
  unfold tag_set_clear.
  apply keeps_bind; [apply keeps_tags_changed|intros _].
  apply keeps_bind; [intros s; apply f_tag_set|intros _].
  apply keeps_tags_changed.
Qed.

Lemma keeps_tag_set_add (objs : list Z) : keeps f (tag_set_add self objs).
Proof.
  unfold tag_set_add. destruct objs as [|pk objs]; [apply keeps_ret|].
  apply keeps_bind; [apply keeps_gets|intros existing].
  apply keeps_bind; [apply keeps_tags_changed|intros _].
  apply keeps_bind; [intros s; apply f_tag_set|intros _].
  apply keeps_tags_changed.
Qed.

Lemma keeps_get_or_create_tag (n : string) : keeps f (get_or_create_tag n).
Proof.
  unfold get_or_create_tag. apply keeps_try_except.
  - apply keeps_bind; [apply keeps_objects_get|]. intros kv. apply keeps_ret.
  - intros s. apply f_tag_rows.
Qed.

Lemma keeps_collect_tags (names : list string) : keeps f (collect_tags names).
Proof.
  induction names as [|n names IH]; simpl.
  - apply keeps_ret.
  - apply keeps_bind; [apply keeps_get_or_create_tag|intros pk].
    apply keeps_bind; [done|intros pks]. apply keeps_ret.
Qed.

Hypothesis f_post : ∀ p s, f (set_posts (insert self p) s) = f s.

Lemma keeps_set_tags (tag_string : string) : keeps f (Post.set_tags self tag_string).
Proof.
  unfold Post.set_tags.
  apply keeps_bind; [apply keeps_get_row|intros post].
  apply keeps_bind; [intros s; apply f_post|intros _].
  apply keeps_bind; [apply keeps_tag_set_clear|intros _].
  apply keeps_bind; [apply keeps_collect_tags|intros pks].
  apply keeps_tag_set_add.
Qed.

End TagFrame.

Lemma set_tags_touches_only_its_post_aux (self : Z) (tag_string : string) (s : Store)
    (p : Z) :
  p ≠ self →
  posts (Post.set_tags self tag_string s).2 !! p = posts s !! p ∧
  post_tag_set (Post.set_tags self tag_string s).2 !! p = post_tag_set s !! p.
Proof.
  intros Hp. split.
  - apply (keeps_set_tags (λ s, posts s !! p) self); try done.
    intros q s0. simpl. by rewrite lookup_insert_ne.
  - apply (keeps_set_tags (λ s, post_tag_set s !! p) self); try done.
    intros X s0. simpl. by rewrite lookup_insert_ne.
Qed.

(** X10: whether it returns or raises, [set_tags] touches nothing but the
    row of its post, the tags related to its post, and tag rows: the rows
    and tag sets of all other posts, and the profiles, revisions,
    questions, answers, comments, votes, badges and awards are as
    before, and no [apply] is run. *)
Theorem set_tags_touches_only_its_post (self : Z) (tag_string : string) (s : Store) :
  let s' := (Post.set_tags self tag_string s).2 in
  (∀ p, p ≠ self → posts s' !! p = posts s !! p) ∧
  (∀ p, p ≠ self → post_tag_set s' !! p = post_tag_set s !! p) ∧
  profiles s' = profiles s ∧ revisions s' = revisions s ∧
  questions s' = questions s ∧ answers s' = answers s ∧
  comments s' = comments s ∧ votes s' = votes s ∧
  badges s' = badges s ∧ awards s' = awards s ∧
  applied s' = applied s.
Proof.
  cbv zeta. split; [|split].
  - intros p Hp. by apply set_tags_touches_only_its_post_aux.
  - intros p Hp. by apply set_tags_touches_only_its_post_aux.
  - repeat split; by apply (keeps_set_tags _ self).
Qed.

(** ** Tag counts and the relation stay in step *)

(** After [set_tags] every tag related to the post has a row. *)
Lemma set_tags_held_rows_exist (self : Z) (tag_string : string) (s : Store) (post : Post) :
  posts s !! self = Some post →
  names_unique_in (split_space tag_string) (tags s) →
  ∃ s', Post.set_tags self tag_string s = (Ok tt, s') ∧
        ∀ k, k ∈ tag_set_of s' self → is_Some (tags s' !! k).
Proof.
  intros Hpost Hu.
  set (names := split_space tag_string) in *.
  set (old := tag_set_of s self).
  set (s0 := set_posts (insert self (set_tag_string tag_string post)) s).
  set (m1 := alter_all (add_tag_count (-1)) (elements old) (tags s)).
  set (s1 := set_post_tag_set (insert self ∅) (set_tag_rows (λ _, m1) s0)).
  assert (Hm1 : ∀ k t1, m1 !! k = Some t1 →
                  ∃ t, tags s !! k = Some t ∧ tag_name t = tag_name t1).
  { intros k t1. subst m1. rewrite lookup_alter_all by apply NoDup_elements.
    destruct (decide (k ∈ elements old)); [|eauto].
    destruct (tags s !! k) as [u|]; [|done]. intros [= <-]. eauto. }
  assert (Hu1 : names_unique_in names (tags s1)).
  { intros k1 k2 t1 t2 H1 H2 Hn HL. simpl in H1, H2.
    destruct (Hm1 _ _ H1) as (u1 & U1 & N1). destruct (Hm1 _ _ H2) as (u2 & U2 & N2).
    apply (Hu k1 k2 u1 u2); congruence. }
  destruct (collect_tags_spec names names s1) as (pks & m2 & Hrun & _ & _ & _ & Hall);
    [done|done|].
  set (s2 := set_tag_rows (λ _, m2) s1) in *.
  set (new := list_to_set pks : gset Z).
  assert (Hpks : pks ≠ []).
  { intros ->. apply Forall2_nil_inv_r in Hall. by apply split_space_nonempty in Hall. }
  assert (Hrows : ∀ pk, pk ∈ pks → is_Some (m2 !! pk)).
  { intros pk Hpk. apply list_elem_of_lookup in Hpk as [i Hi].
    destruct (Forall2_lookup_r _ _ _ _ _ Hall Hi) as (n & _ & t & Ht & _). eauto. }
  eexists. split.
  - unfold Post.set_tags.
    erewrite bind_Ok by (by apply get_row_Some).
    unfold save_post, modify at 1, mbind at 1, M_bind at 1. fold s0.
    rewrite (bind_Ok _ _ _ _ _ (tag_set_clear_ok self s0)).
    change (set_post_tag_set _ (set_tag_rows _ s0)) with s1.
    rewrite (bind_Ok _ _ _ _ _ Hrun).
    apply tag_set_add_ok; [done| |done].
    simpl. apply lookup_insert_eq.
  - intros k. unfold tag_set_of. simpl. rewrite lookup_insert_eq. simpl.
    intros Hk%elem_of_list_to_set.
    rewrite lookup_alter_all by apply NoDup_elements.
    destruct (Hrows _ Hk) as [t Ht]. rewrite Ht. by case_decide.
Qed.

Lemma elem_of_holders (s : Store) (k p : Z) : p ∈ holders s k ↔ k ∈ tag_set_of s p.
Proof.
  unfold holders. rewrite elem_of_filter, elem_of_dom. split; [by intros [? _]|].
  intros Hk. split; [done|]. unfold tag_set_of in Hk.
  destruct (post_tag_set s !! p); [done|]. by apply elem_of_empty in Hk.
Qed.

(** How the holders of a tag change when one post's tags are replaced. *)
Lemma size_holders_change (s s' : Store) (self k : Z) :
  (∀ p, p ≠ self → tag_set_of s' p = tag_set_of s p) →
  Z.of_nat (size (holders s' k))
  = Z.of_nat (size (holders s k)) + net_change (tag_set_of s self) (tag_set_of s' self) k.
Proof.
  intros Hframe. unfold net_change.
  assert (Hother : ∀ p, p ≠ self → p ∈ holders s' k ↔ p ∈ holders s k).
  { intros p Hp. by rewrite !elem_of_holders, Hframe. }
  pose proof (elem_of_holders s k self) as Hs.
  pose proof (elem_of_holders s' k self) as Hs'.
  destruct (decide (k ∈ tag_set_of s' self)) as [Hn|Hn],
           (decide (k ∈ tag_set_of s self)) as [Ho|Ho].
  - assert (holders s' k = holders s k) as ->; [|lia].
    apply set_eq. intros p. destruct (decide (p = self)) as [->|Hp]; [tauto|auto].
  - assert (holders s' k = holders s k ∪ {[self]}) as ->.
    { apply set_eq. intros p. rewrite elem_of_union, elem_of_singleton.
      destruct (decide (p = self)) as [->|Hp]; [tauto|]. rewrite Hother by done. tauto. }
    rewrite size_union, size_singleton; [lia|].
    intros p Hp1 Hp2%elem_of_singleton. subst. tauto.
  - assert (holders s' k = holders s k ∖ {[self]}) as ->.
    { apply set_eq. intros p. rewrite elem_of_difference, elem_of_singleton.
      destruct (decide (p = self)) as [->|Hp]; [tauto|]. rewrite Hother by done. tauto. }
    rewrite size_difference, size_singleton.
    + assert (size (holders s k) ≠ 0%nat); [|lia].
      apply size_non_empty_iff. intros Hempty.
      apply Hs in Ho. rewrite Hempty in Ho. by apply elem_of_empty in Ho.
    + intros p ->%elem_of_singleton. tauto.
  - assert (holders s' k = holders s k) as ->; [|lia].
    apply set_eq. intros p. destruct (decide (p = self)) as [->|Hp]; [tauto|auto].
Qed.

(** X11: [set_tags] keeps the tag counts in step with the relation. If
    every tag held by a post has a row and the count of every tag row is
    the number of posts that hold it, the same is true after [set_tags]
    (on an existing post, when no two rows share a name of the new tag
    string). *)
Theorem set_tags_keeps_counts_in_step
    (self : Z) (tag_string : string) (s : Store) (post : Post) :
  posts s !! self = Some post →
  names_unique_in (split_space tag_string) (tags s) →
  held_tags_exist s → counts_in_step s →
  ∃ s', Post.set_tags self tag_string s = (Ok tt, s') ∧
        held_tags_exist s' ∧ counts_in_step s'.
Proof.
  intros Hpost Hu Hheld Hcount.
  destruct (set_tags_spec self tag_string s post Hpost Hu)
    as (s' & Hrun & _ & _ & Hold & Hnew).
  destruct (set_tags_held_rows_exist self tag_string s post Hpost Hu)
    as (s'' & Hrun' & Hrows).
  rewrite Hrun in Hrun'. injection Hrun' as <-.
  assert (Hframe : ∀ p, p ≠ self → tag_set_of s' p = tag_set_of s p).
  { intros p Hp. unfold tag_set_of.
    destruct (set_tags_touches_only_its_post_aux self tag_string s p Hp) as [_ Hts].
    by rewrite Hrun in Hts; simpl in Hts; rewrite Hts. }
  exists s'. split; [done|]. split.
  - intros p k Hk. destruct (decide (p = self)) as [->|Hp]; [by apply Hrows|].
    rewrite Hframe in Hk by done. destruct (Hheld _ _ Hk) as [t Ht].
    rewrite (Hold _ _ Ht). eauto.
  - intros k t' Ht'. rewrite (size_holders_change s s' self k Hframe).
    destruct (tags s !! k) as [t|] eqn:E.
    + rewrite (Hold _ _ E) in Ht'. injection Ht' as <-. simpl.
      rewrite (Hcount _ _ E). lia.
    + destruct (Hnew _ _ Ht' E) as (Hin & Hc & _).
      assert (Hempty : holders s k = ∅).
      { apply set_eq. intros p. rewrite elem_of_holders. split.
        - intros Hk. destruct (Hheld _ _ Hk) as [t Ht]. congruence.
        - by intros ?%elem_of_empty. }
      assert (Hnot : k ∉ tag_set_of s self).
      { intros Hk. destruct (Hheld _ _ Hk) as [t Ht]. congruence. }
      rewrite Hempty, size_empty, Hc. unfold net_change.
      rewrite decide_True, decide_False by done. lia.
Qed.

Lemma example_db_in_step : held_tags_exist example_db ∧ counts_in_step example_db.
Proof.
  split.
  - intros p k Hk. unfold tag_set_of in Hk. simpl in Hk.
    rewrite lookup_empty in Hk. by apply elem_of_empty in Hk.
  - intros k t H. simpl in H. by rewrite lookup_empty in H.
Qed.

Lemma set_tags_keeps_counts_in_step_witness :
  ∃ s', Post.set_tags 10 "a b" example_db = (Ok tt, s') ∧
        held_tags_exist s' ∧ counts_in_step s'.
Proof.
  apply (set_tags_keeps_counts_in_step 10 "a b" example_db (new_post 1 "Q")).
  - reflexivity.
  - apply example_db_names_unique.
  - apply example_db_in_step.
  - apply example_db_in_step.
Defined.

(** ** Tag strings and tag lists *)

(** X13: [get_tags], of a post and of a revision, loses nothing of the tag
    string: no name it returns contains a space, and the names joined by
    single spaces are the tag string again. *)
Theorem get_tags_joined_is_tag_string (p : Post) (r : PostRevision) :
  String.concat " " (Post.get_tags p) = post_tag_string p ∧
  Forall (λ n, " "%char ∉ list_ascii_of_string n) (Post.get_tags p) ∧
  String.concat " " (PostRevision_get_tags r) = revision_tag_string r ∧
  Forall (λ n, " "%char ∉ list_ascii_of_string n) (PostRevision_get_tags r).
Proof.
  unfold Post.get_tags, PostRevision_get_tags.
  auto using concat_split_space, split_space_no_space.
Qed.

(** X12: after [set_tags], whether the tag rows could be updated or the
    call raised on them, the post carries the new tag string, with every
    other field as before, and [get_tags] of the post is the list of
    names of that string. *)
Theorem set_tags_then_get_tags (self : Z) (tag_string : string) (s : Store) (post : Post) :
  posts s !! self = Some post →
  posts (Post.set_tags self tag_string s).2 !! self
    = Some (set_tag_string tag_string post) ∧
  Post.get_tags (set_tag_string tag_string post) = split_space tag_string ∧
  String.concat " " (Post.get_tags (set_tag_string tag_string post)) = tag_string.
Proof.
  intros Hpost. split; [|split].
  - rewrite (set_tags_posts _ _ _ _ Hpost). apply lookup_insert_eq.
  - reflexivity.
  - apply concat_split_space.
Qed.

Lemma set_tags_then_get_tags_witness :
  posts (Post.set_tags 10 "snp codon" example_db).2 !! 10
    = Some (set_tag_string "snp codon" (new_post 1 "Q")) ∧
  Post.get_tags (set_tag_string "snp codon" (new_post 1 "Q")) = split_space "snp codon" ∧
  String.concat " " (Post.get_tags (set_tag_string "snp codon" (new_post 1 "Q")))
    = "snp codon"%string.
Proof.
  apply (set_tags_then_get_tags 10 "snp codon" example_db (new_post 1 "Q")).
  reflexivity.
Defined.

(** ** What [create_revision] records *)

(** The revision is saved first; the rest of [create_revision] runs on the
    database that holds it. *)
Lemma create_revision_run (generate : string → string) (self : Z)
    (content title tag_string : option string) (author date : option Z)
    (s : Store) (post : Post) :
  posts s !! self = Some post →
  let r := new_revision self content title tag_string author date (clock s) post in
  let pk := fresh (dom (revisions s)) in
  let s1 := set_posts (alter (add_revision_count 1) self)
              (set_applied (λ l, l ++ [(IPostRevision r, 1)])
                 (set_revisions (insert pk r) s)) in
  let edited := edit_post (revision_date r) (revision_author r)
                  (generate (unix_line_endings (revision_content r)))
                  (unix_line_endings (revision_content r))
                  (revision_title r) (add_revision_count 1 post) in
  Post.create_revision generate self content title tag_string author date s
  = (Post.set_tags self (revision_tag_string r) ;;
     post ← get_row posts self; save_post self post)
      (set_posts (insert self edited) s1).
Proof.
  intros Hpost r pk s1 edited. unfold Post.create_revision.
  erewrite bind_Ok by (by apply get_row_Some).
  unfold gets at 1, mbind at 1, M_bind at 1.
  fold (new_revision self content title tag_string author date (clock s) post). fold r.
  assert (Hsave : save_new (IPostRevision r) false s = (Ok pk, s1)).
  { set (s0 := set_applied (λ l, l ++ [(IPostRevision r, 1)])
                 (set_revisions (insert pk r) s)).
    unfold save_new.
    rewrite (bind_Ok (pre_save (IPostRevision r)) _ s s (IPostRevision r)) by reflexivity.
    rewrite (bind_Ok (insert_row (IPostRevision r)) _ s (set_revisions (insert pk r) s) pk)
      by reflexivity.
    rewrite (send_post_save (IPostRevision r)).
    unfold apply_instance, call_apply. cbn [kw_created kw_raw kw_instance andb negb].
    unfold mbind, M_bind, modify, mret, M_ret. fold s0.
    change (instance_apply (IPostRevision r) 1 s0) with (PostRevision.apply r 1 s0).
    unfold PostRevision.apply. by rewrite (post_update_ok _ _ s0 post). }
  rewrite (bind_Ok _ _ _ _ _ Hsave).
  assert (H1 : posts s1 !! self = Some (add_revision_count 1 post)).
  { subst s1. simpl. rewrite lookup_alter, decide_True by done. by rewrite Hpost. }
  erewrite bind_Ok by (by apply get_row_Some).
  by rewrite (bind_Ok (save_post self edited) _ s1 (set_posts (insert self edited) s1) tt)
    by reflexivity.
Qed.

(** An observation that neither tag rows, nor the tags and the row of the
    post count for is the same after [create_revision] as after its
    revision was saved. *)
Lemma create_revision_keeps {B} (f : Store → B) (generate : string → string) (self : Z)
    (content title tag_string : option string) (author date : option Z)
    (s : Store) (post : Post) :
  (∀ g s, f (set_tag_rows g s) = f s) →
  (∀ X s, f (set_post_tag_set (insert self X) s) = f s) →
  (∀ p s, f (set_posts (insert self p) s) = f s) →
  posts s !! self = Some post →
  f (Post.create_revision generate self content title tag_string author date s).2
  = f (set_applied
         (λ l, l ++ [(IPostRevision
                        (new_revision self content title tag_string author date (clock s) post),
                      1)])
         (set_revisions
            (insert (fresh (dom (revisions s)))
               (new_revision self content title tag_string author date (clock s) post)) s)).
Proof.
  intros H1 H2 H3 Hpost.
  rewrite (create_revision_run generate self content title tag_string author date s post Hpost).
  set (tail := (Post.set_tags self _ ;; _)).
  assert (Hk : keeps f tail).
  { apply keeps_bind; [by apply keeps_set_tags|intros _].
    apply keeps_bind; [apply keeps_get_row|intros p s0]. apply H3. }
  rewrite Hk, H3.
  set (s0 := set_applied _ _).
  assert (E : set_posts (alter (add_revision_count 1) self) s0
              = set_posts (insert self (add_revision_count 1 post)) s0).
  { unfold set_posts. f_equal. symmetry. by apply insert_as_alter. }
  by rewrite E, H3.
Qed.

(** X14: [create_revision] on an existing post, whether it returns or
    raises while tag rows are updated, adds exactly one revision under a
    new key, the snapshot of the values chosen (the content before line
    endings are normalised), keeps all other revisions, runs [apply(+1)]
    on the snapshot once, and leaves the post with its revision count
    incremented by 1, the author and date of the revision as last editor
    and last edit date, and its other counters as before. *)
Theorem create_revision_appends_one_revision (generate : string → string) (self : Z)
    (content title tag_string : option string) (author date : option Z)
    (s : Store) (post : Post) :
  posts s !! self = Some post →
  let s' := (Post.create_revision generate self content title tag_string author date s).2 in
  let r := new_revision self content title tag_string author date (clock s) post in
  revisions s !! fresh (dom (revisions s)) = None ∧
  revisions s' = <[fresh (dom (revisions s)) := r]> (revisions s) ∧
  applied s' = applied s ++ [(IPostRevision r, 1)] ∧
  ∃ post',
    posts s' !! self = Some post' ∧
    revision_count post' = revision_count post + 1 ∧
    lastedit_user post' = revision_author r ∧
    lastedit_date post' = revision_date r ∧
    post_author post' = post_author post ∧
    post_score post' = post_score post ∧
    comment_count post' = comment_count post ∧
    Post.get_tags post' = PostRevision_get_tags r.
Proof.
  intros Hpost s' r. split; [apply fresh_key_None|]. split; [|split].
  - subst s'. by rewrite (create_revision_keeps revisions _ _ _ _ _ _ _ _ post).
  - subst s'. by rewrite (create_revision_keeps applied _ _ _ _ _ _ _ _ post).
  - eexists. split.
    + subst s'. rewrite (create_revision_posts _ _ _ _ _ _ _ _ _ Hpost).
      apply lookup_insert_eq.
    + by simpl.
Qed.

Lemma create_revision_appends_one_revision_witness :
  let s' := (Post.create_revision (λ x, x) 10 (Some "first"%string) None (Some "snp"%string)
               None None example_db).2 in
  let r := new_revision 10 (Some "first"%string) None (Some "snp"%string) None None
             (clock example_db) (new_post 1 "Q") in
  revisions example_db !! fresh (dom (revisions example_db)) = None ∧
  revisions s' = <[fresh (dom (revisions example_db)) := r]> (revisions example_db) ∧
  applied s' = applied example_db ++ [(IPostRevision r, 1)] ∧
  ∃ post',
    posts s' !! 10 = Some post' ∧
    revision_count post' = revision_count (new_post 1 "Q") + 1 ∧
    lastedit_user post' = revision_author r ∧
    lastedit_date post' = revision_date r ∧
    post_author post' = post_author (new_post 1 "Q") ∧
    post_score post' = post_score (new_post 1 "Q") ∧
    comment_count post' = comment_count (new_post 1 "Q") ∧
    Post.get_tags post' = PostRevision_get_tags r.
Proof.
  apply (create_revision_appends_one_revision (λ x, x) 10 (Some "first"%string) None
           (Some "snp"%string) None None example_db (new_post 1 "Q")).
  reflexivity.
Defined.

(** X15: [create_revision] keeps the revision counts in step: if the
    revision count of every post is the number of its revisions, the same
    holds after [create_revision] on an existing post, whether the call
    returns or raises while tag rows are updated. *)
Theorem create_revision_keeps_revision_counts (generate : string → string) (self : Z)
    (content title tag_string : option string) (author date : option Z)
    (s : Store) (post : Post) :
  posts s !! self = Some post →
  revision_counts_in_step s →
  revision_counts_in_step
    (Post.create_revision generate self content title tag_string author date s).2.
Proof.
  intros Hpost Hstep.
  set (s' := (Post.create_revision _ _ _ _ _ _ _ s).2).
  set (r := new_revision self content title tag_string author date (clock s) post).
  set (pk := fresh (dom (revisions s))).
  assert (Hfresh : revisions s !! pk = None) by apply fresh_key_None.
  assert (Hrevs : revisions s' = <[pk := r]> (revisions s)).
  { subst s'. by rewrite (create_revision_keeps revisions _ _ _ _ _ _ _ _ post). }
  assert (Hposts : posts s' = <[self := revised_post generate content title tag_string
                                          author date (clock s) post]> (posts s)).
  { subst s'. by rewrite (create_revision_posts _ _ _ _ _ _ _ _ _ Hpost). }
  intros p q. rewrite Hposts. unfold revisions_of. rewrite Hrevs.
  intros [[<- <-]|[Hne Hq]]%lookup_insert_Some.
  - rewrite map_filter_insert_True by done.
    rewrite map_size_insert_None by (by apply map_lookup_filter_None_2; left).
    simpl. rewrite (Hstep _ _ Hpost). unfold revisions_of. lia.
  - rewrite map_filter_insert_False by (simpl; congruence).
    rewrite delete_id by done. by apply Hstep.
Qed.

Lemma example_db_revision_counts : revision_counts_in_step example_db.
Proof.
  intros p post H. unfold revisions_of. simpl. rewrite map_filter_empty, map_size_empty.
  simpl in H. apply lookup_insert_Some in H as [[<- <-]|[_ H]]; [done|].
  apply lookup_insert_Some in H as [[<- <-]|[_ H]]; [done|].
  apply lookup_singleton_Some in H as [<- <-]. done.
Qed.

Lemma create_revision_keeps_revision_counts_witness :
  revision_counts_in_step
    (Post.create_revision (λ x, x) 10 (Some "first"%string) None None None None
       example_db).2.
Proof.
  apply (create_revision_keeps_revision_counts (λ x, x) 10 (Some "first"%string) None None
           None None example_db (new_post 1 "Q")).
  - reflexivity.
  - apply example_db_revision_counts.
Defined.

(** ** The content after an edit *)

(** X16: after [create_revision] on an existing post, the content of the
    post is the chosen content with the line endings normalised: it holds
    no carriage return; a chosen content without any line boundary is
    stored as it is; of two lines separated by a line boundary of any
    kind (LF, VT, FF, CR LF, CR, FS, GS, RS, NEL, LS, PS) the first is
    stored alone when the second is empty (a final boundary is dropped)
    and the two are stored with one line feed between them otherwise. The
    HTML of the post is the rendering of exactly that content; the
    revision keeps the content as it was given, and its HTML is rendered
    from that. *)
Theorem create_revision_normalises_content (generate : string → string) (self : Z)
    (content title tag_string : option string) (author date : option Z)
    (s : Store) (post : Post) :
  posts s !! self = Some post →
  let s' := (Post.create_revision generate self content title tag_string author date s).2 in
  let r := new_revision self content title tag_string author date (clock s) post in
  ∃ post',
    posts s' !! self = Some post' ∧
    post_content post' = unix_line_endings (revision_content r) ∧
    (CR ∉ list_ascii_of_string (post_content post')) ∧
    (line_boundary_free (revision_content r) = true →
       post_content post' = revision_content r) ∧
    (∀ a t b, line_boundary_free a = true → line_boundary_free b = true →
       t ∈ line_boundaries → revision_content r = (a ++ t ++ b)%string →
       post_content post' = match b with
                            | EmptyString => a
                            | _ => (a ++ LF ++ b)%string
                            end) ∧
    post_html post' = generate (post_content post') ∧
    revisions s' !! fresh (dom (revisions s)) = Some r ∧
    revision_content r = str_or content (post_content post) ∧
    PostRevision_to_html generate r = generate (str_or content (post_content post)).
Proof.
  intros Hpost s' r. eexists. split.
  - subst s'. rewrite (create_revision_posts _ _ _ _ _ _ _ _ _ Hpost).
    apply lookup_insert_eq.
  - simpl. split; [done|]. split; [apply unix_line_endings_no_CR|].
    split; [apply unix_line_endings_one_line|].
    split; [intros a t b Ha Hb Ht ->; by apply unix_line_endings_two_lines|].
    split; [done|]. split; [|done].
    subst s'. rewrite (create_revision_keeps revisions _ _ _ _ _ _ _ _ post) by done.
    simpl. apply lookup_insert_eq.
Qed.

(** X16, witness: post 10 is given the two lines "a" and "b", separated by
    CR LF. *)
Lemma create_revision_normalises_content_witness :
  let text := String "a" (String CR (String "010" (String "b" EmptyString))) in
  let s' := (Post.create_revision (λ x, x) 10 (Some text) None None None None example_db).2 in
  let r := new_revision 10 (Some text) None None None None (clock example_db)
             (new_post 1 "Q") in
  ∃ post',
    posts s' !! 10 = Some post' ∧
    post_content post' = unix_line_endings (revision_content r) ∧
    (CR ∉ list_ascii_of_string (post_content post')) ∧
    (line_boundary_free (revision_content r) = true →
       post_content post' = revision_content r) ∧
    (∀ a t b, line_boundary_free a = true → line_boundary_free b = true →
       t ∈ line_boundaries → revision_content r = (a ++ t ++ b)%string →
       post_content post' = match b with
                            | EmptyString => a
                            | _ => (a ++ LF ++ b)%string
                            end) ∧
    post_html post' = post_content post' ∧
    revisions s' !! fresh (dom (revisions example_db)) = Some r ∧
    revision_content r = str_or (Some text) (post_content (new_post 1 "Q")) ∧
    PostRevision_to_html (λ x, x) r = str_or (Some text) (post_content (new_post 1 "Q")).
Proof.
  intros text.
  apply (create_revision_normalises_content (λ x, x) 10 (Some text) None None None None
           example_db (new_post 1 "Q")).
  reflexivity.
Defined.

(** ** [remove_vote] *)

Lemma get_vote_keeps {B} (f : Store → B) (self : Z) (user : RequestUser) (type : Z) :
  keeps f (Post.get_vote self user type).
Proof.
  unfold Post.get_vote. destruct user as [|id]; [apply keeps_ret|].
  apply keeps_try_except; [|apply keeps_ret].
  apply keeps_bind; [apply keeps_objects_get|]. intros kv. apply keeps_ret.
Qed.

(** X17: [remove_vote] never returns True and never undoes a vote: for
    every post, user, vote type and database it returns False or raises,
    runs no [apply] and leaves every counter as it was. *)
Theorem remove_vote_never_returns_True
    (self : Z) (user : RequestUser) (type : Z) (s : Store) :
  (Post.remove_vote self user type s).1 ≠ Ok true ∧
  applied (Post.remove_vote self user type s).2 = applied s ∧
  counters (Post.remove_vote self user type s).2 = counters s.
Proof.
  unfold Post.remove_vote.
  pose proof (get_vote_keeps applied self user type s) as Ha.
  pose proof (get_vote_keeps counters self user type s) as Hc.
  destruct (Post.get_vote self user type s) as [[[[pk v]|]|e] s0] eqn:Hget; simpl in *.
  - rewrite (bind_Ok _ _ _ _ _ Hget).
    destruct (delete_instance_raises pk (IVote v) s0) as (s1 & Hdel & Ha1 & Hc1).
    rewrite (bind_Raise _ _ _ _ _ Hdel). simpl. split; [done|]. split; congruence.
  - by rewrite (bind_Ok _ _ _ _ _ Hget).
  - by rewrite (bind_Raise _ _ _ _ _ Hget).
Qed.

(** ** Awards *)

(** X18: [Award.apply] with direction [dir], for a badge that exists and a
    user with a profile, returns, adds [dir] to the award count of the
    badge, every other field of the badge as before, and to the user's
    counter of the badge's tier only (to none of the three when the type
    of the badge is not bronze, silver or gold), and leaves the user's
    reputation, all other profiles and badges, and the posts as they
    were. *)
Theorem award_apply_counts_one_tier
    (a : Award) (dir : Z) (s : Store) (badge : Badge) (prof : UserProfile) :
  badges s !! award_badge a = Some badge →
  profiles s !! award_user a = Some prof →
  ∃ s',
    Award.apply a dir s = (Ok tt, s') ∧
    badges s' = <[award_badge a :=
                    mkBadge (badge_name badge) (badge_type badge) (badge_unique badge)
                      (badge_secret badge) (badge_count badge + dir)]> (badges s) ∧
    profiles s' = <[award_user a :=
                      mkUserProfile (profile_score prof)
                        (bronze_badges prof
                         + (if decide (badge_type badge = BADGE_BRONZE) then dir else 0))
                        (silver_badges prof
                         + (if decide (badge_type badge = BADGE_SILVER) then dir else 0))
                        (gold_badges prof
                         + (if decide (badge_type badge = BADGE_GOLD) then dir else 0))]>
                    (profiles s) ∧
    posts s' = posts s.
Proof.
  intros Hb Hp. exists (Award_effect a (badge_type badge) dir s).
  split; [apply Award_apply_ok; eauto|].
  unfold Award_effect; simpl.
  split; [symmetry; exact (insert_as_alter (add_badge_count dir) _ _ _ Hb)|].
  split; [|done].
  rewrite <- (insert_as_alter (add_badge_tier (badge_type badge) dir) _ _ _ Hp).
  f_equal. destruct prof as [sc br si go].
  unfold add_badge_tier, add_bronze, add_silver, add_gold.
  unfold BADGE_BRONZE, BADGE_SILVER, BADGE_GOLD.
  repeat case_decide; simpl; f_equal; lia.
Qed.

(** X18, witness: the bronze badge 1 of the example database is awarded to
    user 2. *)
Lemma award_apply_counts_one_tier_witness :
  ∃ s',
    Award.apply (mkAward 1 2 None) 1 example_db = (Ok tt, s') ∧
    badges s' = <[1 := mkBadge "Teacher" BADGE_BRONZE true false (0 + 1)]>
                  (badges example_db) ∧
    profiles s' = <[2 := mkUserProfile 0 (0 + 1) (0 + 0) (0 + 0)]> (profiles example_db) ∧
    posts s' = posts example_db.
Proof.
  apply (award_apply_counts_one_tier (mkAward 1 2 None) 1 example_db
           (mkBadge "Teacher" BADGE_BRONZE true false 0) new_profile); reflexivity.
Defined.

(** ** Counts of comments, answers and awards *)

Lemma size_filter_insert_fresh {A} (P : A → Prop) `{!∀ x, Decision (P x)}
    (m : gmap Z A) (pk : Z) (x : A) :
  m !! pk = None →
  size (filter (λ kv : Z * A, P kv.2) (<[pk := x]> m))
  = if decide (P x) then S (size (filter (λ kv : Z * A, P kv.2) m))
    else size (filter (λ kv : Z * A, P kv.2) m).
Proof.
  intros Hfresh. case_decide as HP.
  - rewrite map_filter_insert_True by done.
    by rewrite map_size_insert_None by (by apply map_lookup_filter_None_2; left).
  - rewrite map_filter_insert_False by done. by rewrite delete_id.
Qed.

(** Saving a new record whose [apply(+1)] returns. *)
Lemma save_new_state (i i' : Instance) (pk : Z) (s s0 s1 : Store) :
  pre_save i s = (Ok i', s) → insert_row i' s = (Ok pk, s0) →
  instance_apply i' 1 (set_applied (λ l, l ++ [(i', 1)]) s0) = (Ok tt, s1) →
  save_new i false s = (Ok pk, s1).
Proof.
  intros Hp Hi Ha.
  destruct (save_new_applies_once i i' pk s s0 Hp Hi) as (_ & _ & ->).
  by rewrite (bind_Ok _ _ _ _ _ Ha).
Qed.

(** X19: saving a new comment on an existing post returns, inserts the
    comment under a new key, and keeps the comment counts in step: if
    the comment count of every post is the number of comments on it, the
    same holds afterwards. *)
Theorem new_comment_keeps_comment_counts (c : Comment) (s : Store) (parent : Post) :
  posts s !! comment_parent c = Some parent →
  comment_counts_in_step s →
  ∃ pk s',
    save_new (IComment c) false s = (Ok pk, s') ∧
    comments s !! pk = None ∧
    comments s' = <[pk := c]> (comments s) ∧
    comment_counts_in_step s'.
Proof.
  intros Hparent Hstep.
  set (pk := fresh (dom (comments s))).
  set (s0 := set_comments (insert pk c) s).
  set (s1 := set_applied (λ l, l ++ [(IComment c, 1)]) s0).
  assert (Hfresh : comments s !! pk = None) by apply fresh_key_None.
  exists pk, (set_posts (alter (add_comment_count 1) (comment_parent c)) s1).
  split; [|split; [done|split; [done|]]].
  - apply (save_new_state _ (IComment c) pk s s0); [done..|].
    simpl. unfold Comment.apply. by apply (post_update_ok _ _ s1 parent).
  - intros p q. unfold comments_on. simpl.
    pose proof (size_filter_insert_fresh (λ x, comment_parent x = p) (comments s) pk c Hfresh)
      as Hsize.
    simpl in Hsize. rewrite Hsize, lookup_alter.
    destruct (decide (comment_parent c = p)) as [Heq|Hne].
    + rewrite Heq in *. rewrite Hparent. simpl. intros [= <-]. simpl.
      rewrite (Hstep _ _ Hparent). unfold comments_on. lia.
    + intros Hq. by apply Hstep.
Qed.

Lemma example_db_comment_counts : comment_counts_in_step example_db.
Proof.
  intros p post H. unfold comments_on. simpl. rewrite map_filter_empty, map_size_empty.
  simpl in H. apply lookup_insert_Some in H as [[<- <-]|[_ H]]; [done|].
  apply lookup_insert_Some in H as [[<- <-]|[_ H]]; [done|].
  apply lookup_singleton_Some in H as [<- <-]. done.
Qed.

Lemma new_comment_keeps_comment_counts_witness :
  ∃ pk s',
    save_new (IComment (mkComment 10 11)) false example_db = (Ok pk, s') ∧
    comments example_db !! pk = None ∧
    comments s' = <[pk := mkComment 10 11]> (comments example_db) ∧
    comment_counts_in_step s'.
Proof.
  apply (new_comment_keeps_comment_counts (mkComment 10 11) example_db (new_post 1 "Q")).
  - reflexivity.
  - apply example_db_comment_counts.
Defined.

(** X20: saving a new answer, for a post that has no answer yet and a
    question that exists, returns, stores the answer under its post, and
    keeps the answer counts in step: if the answer count of every
    question is the number of its answers, the same holds afterwards. *)
Theorem new_answer_keeps_answer_counts (a : Answer) (s : Store) (q : Question) :
  questions s !! answer_question a = Some q →
  answers s !! answer_post a = None →
  answer_counts_in_step s →
  ∃ s',
    save_new (IAnswer a) false s = (Ok (answer_post a), s') ∧
    answers s' = <[answer_post a := a]> (answers s) ∧
    answer_counts_in_step s'.
Proof.
  intros Hq Hfresh Hstep.
  set (pk := answer_post a).
  set (s0 := set_answers (insert pk a) s).
  set (s1 := set_applied (λ l, l ++ [(IAnswer a, 1)]) s0).
  exists (set_questions (alter (add_answer_count 1) (answer_question a)) s1).
  split; [|split; [done|]].
  - apply (save_new_state _ (IAnswer a) pk s s0); [done| |].
    + simpl. by rewrite Hfresh.
    + simpl. unfold Answer.apply. by apply (question_update_ok _ _ s1 q).
  - intros k q'. unfold answers_to. simpl.
    pose proof (size_filter_insert_fresh (λ x, answer_question x = k) (answers s) pk a Hfresh)
      as Hsize.
    simpl in Hsize. rewrite Hsize, lookup_alter.
    destruct (decide (answer_question a = k)) as [Heq|Hne].
    + rewrite Heq in *. rewrite Hq. simpl. intros [= <-]. simpl.
      rewrite (Hstep _ _ Hq). unfold answers_to. lia.
    + intros Hq'. by apply Hstep.
Qed.

Lemma new_answer_keeps_answer_counts_witness :
  ∃ s',
    save_new (IAnswer (mkAnswer 100 10 false)) false
      (set_answers (λ _, ∅) (set_questions (insert 100 (mkQuestion 0 10 false)) example_db))
    = (Ok 10, s') ∧
    answers s' = <[10 := mkAnswer 100 10 false]> ∅ ∧
    answer_counts_in_step s'.
Proof.
  apply (new_answer_keeps_answer_counts (mkAnswer 100 10 false)
           (set_answers (λ _, ∅) (set_questions (insert 100 (mkQuestion 0 10 false)) example_db))
           (mkQuestion 0 10 false)).
  - reflexivity.
  - reflexivity.
  - intros k q H. unfold answers_to. simpl. rewrite map_filter_empty, map_size_empty.
    simpl in H. rewrite insert_singleton_eq in H.
    apply lookup_singleton_Some in H as [<- <-]. done.
Defined.

(** X21: granting an award (saving a new one) of an existing badge to a
    user with a profile keeps the award counts in step: if the count of
    every badge is the number of awards of it, the same holds
    afterwards. *)
Theorem new_award_keeps_badge_counts (a : Award) (s : Store) (badge : Badge) :
  badges s !! award_badge a = Some badge →
  is_Some (profiles s !! award_user a) →
  badge_counts_in_step s →
  ∃ pk s',
    save_new (IAward a) false s = (Ok pk, s') ∧
    awards s !! pk = None ∧
    badge_counts_in_step s'.
Proof.
  intros Hb Hp Hstep.
  set (a' := mkAward (award_badge a) (award_user a)
               (Some (default (clock s) (award_date a)))).
  set (pk := fresh (dom (awards s))).
  set (s0 := set_awards (insert pk a') s).
  set (s1 := set_applied (λ l, l ++ [(IAward a', 1)]) s0).
  assert (Hfresh : awards s !! pk = None) by apply fresh_key_None.
  exists pk, (Award_effect a' (badge_type badge) 1 s1).
  split; [|split; [done|]].
  - apply (save_new_state _ (IAward a') pk s s0); [apply pre_save_award|done|].
    simpl. by apply Award_apply_ok.
  - intros k b. unfold awards_of, Award_effect. simpl.
    pose proof (size_filter_insert_fresh (λ x, award_badge x = k) (awards s) pk a' Hfresh)
      as Hsize.
    simpl in Hsize. rewrite Hsize, lookup_alter.
    destruct (decide (award_badge a = k)) as [Heq|Hne].
    + rewrite Heq in *. rewrite Hb. simpl. intros [= <-]. simpl.
      rewrite (Hstep _ _ Hb). unfold awards_of. lia.
    + intros Hb'. by apply Hstep.
Qed.

Lemma new_award_keeps_badge_counts_witness :
  ∃ pk s',
    save_new (IAward (mkAward 1 2 None)) false example_db = (Ok pk, s') ∧
    awards example_db !! pk = None ∧
    badge_counts_in_step s'.
Proof.
  apply (new_award_keeps_badge_counts (mkAward 1 2 None) example_db
           (mkBadge "Teacher" BADGE_BRONZE true false 0)).
  - reflexivity.
  - by eexists.
  - intros k b H. unfold awards_of. simpl. rewrite map_filter_empty, map_size_empty.
    simpl in H. apply lookup_singleton_Some in H as [<- <-]. done.
Defined.
